(** * Festival emoji analytics: normaliser and aggregator of [app.py]

    A shallow embedding of the data pipeline of [app.py]: the function
    [process_data] that fills in the missing canonical columns of an uploaded
    table, the sidebar filters, and the derivations behind the KPI row, the
    emoji ranking, the sentiment gauge and the emoji indicator matrix.

    The pandas and numpy operations the script calls are modelled by their
    documented behaviour on a small universe of cell values:
    - [value_counts] lists the distinct non-missing values by descending
      count; the sort it uses is not stable, so the order of equal counts is
      that of a sort taken as a parameter, of which only what pandas
      documents is assumed; [nlargest] keeps the first of equal entries;
    - [mode] returns the most frequent values sorted in ascending order; the
      order of most frequent values of different kinds, which changes with
      the version of pandas, is a parameter too;
    - [pd.to_datetime] on a column is a parameter: what parses, and what
      raises, is for pandas to say;
    - [randint(low, high)] excludes [high];
    - date-times are integers of nanoseconds;
    - the rate of the gauge is a double: each operation yields the exact
      result rounded to 53 significant bits, ties to even;
    - the generator of numpy is an explicit stream of raw outputs, and the
      reader of the file and the clock are parameters;
    - [groupby] over two columns lists the pairs of keys that occur, in an
      order of the keys of each column that is left as a parameter; over the
      days of the dates it lists the days in ascending order;
    - Python's [sorted] raises on values of different kinds. *)

From Stdlib Require Import String Ascii.
From Stdlib Require Import ZArith QArith Qround Qpower Qabs List Bool Arith.
From Stdlib Require Import Lia Lqa.
From Stdlib Require Import Sorting.Sorted Permutation.
Import ListNotations.

Open Scope string_scope.
Open Scope list_scope.
Open Scope Z_scope.

(** ** Exceptions *)

Inductive result (A : Type) : Type :=
| Ok (a : A)
| Raise (err : string).

Arguments Ok {A} a.
Arguments Raise {A} err.

(** ** Cells, series and frames *)

Module Pandas.

(** A cell of a table: text, an integer, a date-time (nanoseconds since the
    epoch, as pandas stores it) or a missing value (NaN / NaT). *)
Inductive cell : Type :=
| VStr (s : string)
| VInt (n : Z)
| VTime (t : Z)
| VNaN.

Coercion VStr : string >-> cell.

(** Python's [==] on scalars, as pandas applies it element-wise: values of
    different kinds differ and a missing value equals nothing. *)
Definition cell_eqb (a b : cell) : bool :=
  match a, b with
  | VStr s, VStr t => String.eqb s t
  | VInt m, VInt n => Z.eqb m n
  | VTime m, VTime n => Z.eqb m n
  | _, _ => false
  end.

Definition isna (c : cell) : bool :=
  match c with VNaN => true | _ => false end.

Definition notna (c : cell) : bool := negb (isna c).

(** Python's [<=]; [None] stands for the [TypeError] raised between values of
    different kinds. *)
Definition cell_cmp (a b : cell) : option comparison :=
  match a, b with
  | VStr s, VStr t => Some (String.compare s t)
  | VInt m, VInt n => Some (Z.compare m n)
  | VTime m, VTime n => Some (Z.compare m n)
  | _, _ => None
  end.

Definition cell_leb (a b : cell) : bool :=
  match cell_cmp a b with
  | Some Gt | None => false
  | Some _ => true
  end.

Definition Series := list cell.

(** A frame: the row labels and the columns in their order, each column a
    label with its values.  Labels are cells, as in pandas. *)
Record DataFrame : Type := mkDataFrame {
  index : list Z;
  data : list (cell * Series)
}.

(** [pd.DataFrame()] *)
Definition empty_frame : DataFrame := mkDataFrame [] [].

(** [df.columns] *)
Definition columns (df : DataFrame) : list cell := map fst (data df).

(** [len(df)] *)
Definition len (df : DataFrame) : nat := length (index df).

(** [df.empty]: some axis has length zero. *)
Definition empty (df : DataFrame) : bool :=
  (len df =? 0)%nat || (length (data df) =? 0)%nat.

(** [c in df.columns] *)
Definition col_in (c : cell) (df : DataFrame) : bool :=
  existsb (cell_eqb c) (columns df).

Fixpoint assoc (c : cell) (l : list (cell * Series)) : option Series :=
  match l with
  | [] => None
  | (k, v) :: r => if cell_eqb c k then Some v else assoc c r
  end.

(** [df[c]]; [None] is the [KeyError] of an absent label. *)
Definition getitem (c : cell) (df : DataFrame) : option Series :=
  assoc c (data df).

Fixpoint replace (c : cell) (v : Series) (l : list (cell * Series))
  : list (cell * Series) :=
  match l with
  | [] => []
  | (k, w) :: r =>
      if cell_eqb c k then (k, v) :: r else (k, w) :: replace c v r
  end.

(** [df[c] = v]: an existing column is overwritten in place, a new one is
    appended after the others. *)
Definition setitem (c : cell) (v : Series) (df : DataFrame) : DataFrame :=
  if col_in c df
  then mkDataFrame (index df) (replace c v (data df))
  else mkDataFrame (index df) (data df ++ [(c, v)]).

(** [df[c] = scalar]: the scalar is broadcast to every row. *)
Definition setitem_scalar (c : cell) (x : cell) (df : DataFrame) : DataFrame :=
  setitem c (repeat x (len df)) df.

(** Every column has one value per row label. *)
Definition well_formed (df : DataFrame) : Prop :=
  Forall (fun kv => length (snd kv) = len df) (data df).

(** Selection by a boolean mask, [s[mask]]. *)
Fixpoint select {A : Type} (mask : list bool) (l : list A) : list A :=
  match mask, l with
  | b :: m, x :: r => if b then x :: select m r else select m r
  | _, _ => []
  end.

(** [df[mask]]: the rows at which the mask holds, labels kept. *)
Definition mask_rows (mask : list bool) (df : DataFrame) : DataFrame :=
  mkDataFrame (select mask (index df))
              (map (fun kv => (fst kv, select mask (snd kv))) (data df)).

(** [s == x] *)
Definition series_eq (s : Series) (x : cell) : list bool :=
  map (fun c => cell_eqb c x) s.

(** [(s == x).sum()] *)
Definition count_eq (x : cell) (s : Series) : nat :=
  length (filter (fun c => cell_eqb c x) s).

(** [s.dropna()] *)
Definition dropna (s : Series) : Series := filter notna s.

(** [s.unique()] on values without missing ones: each value once, in order
    of first appearance. *)
Fixpoint unique (s : Series) : Series :=
  match s with
  | [] => []
  | c :: r => c :: filter (fun d => negb (cell_eqb d c)) (unique r)
  end.

(** [s.nunique()] *)
Definition nunique (s : Series) : nat := length (unique (dropna s)).

(** Position of the first row holding [x]. *)
Fixpoint first_pos (x : cell) (s : Series) : nat :=
  match s with
  | [] => O
  | c :: r => if cell_eqb c x then O else S (first_pos x r)
  end.

(** A stable sort by descending count, the one [nlargest] uses: an entry is
    placed before the entries that follow it in the input and do not exceed
    it. *)
Fixpoint insert_desc (x : cell * nat) (l : list (cell * nat))
  : list (cell * nat) :=
  match l with
  | [] => [x]
  | y :: r =>
      if (snd y <=? snd x)%nat then x :: y :: r else y :: insert_desc x r
  end.

Fixpoint sort_desc (l : list (cell * nat)) : list (cell * nat) :=
  match l with
  | [] => []
  | x :: r => insert_desc x (sort_desc r)
  end.

(** The counts of the distinct values, before sorting. *)
Definition counts (s : Series) : list (cell * nat) :=
  map (fun k => (k, count_eq k s)) (unique (dropna s)).

(** What the script takes from pandas as it comes:
    - [sort_values] is [Series.sort_values(ascending=False)] on a table of
      counts, the sort under [value_counts]: numpy's quicksort, which leaves
      equal counts in an order of its own;
    - [sort_mixed] is the order in which [mode] returns most frequent values
      of different kinds: pandas 2 warns that they cannot be sorted and keeps
      them as met, pandas 3 sorts numbers before text;
    - [to_datetime] is [pd.to_datetime] on a column, which parses what it is
      handed or raises. *)
Class Library : Type := {
  sort_values : list (cell * nat) -> list (cell * nat);
  sort_mixed : list cell -> list cell;
  to_datetime : Series -> result Series
}.

(** [s.value_counts()]: the distinct non-missing values with their counts,
    most frequent first. *)
Definition value_counts {lib : Library} (s : Series) : list (cell * nat) :=
  sort_values (counts s).

(** [vc.nlargest(n)] with the default [keep='first']. *)
Definition nlargest (n : nat) (vc : list (cell * nat)) : list (cell * nat) :=
  firstn n (sort_desc vc).

(** [np.sort] on values: ascending; [None] when two values of different kinds
    meet, which raises [TypeError]. *)
Fixpoint insert_asc (x : cell) (l : Series) : Series :=
  match l with
  | [] => [x]
  | y :: r => if cell_leb x y then x :: y :: r else y :: insert_asc x r
  end.

Fixpoint sort_asc (l : Series) : Series :=
  match l with
  | [] => []
  | x :: r => insert_asc x (sort_asc r)
  end.

Definition same_kind (a b : cell) : bool :=
  match cell_cmp a b with Some _ => true | None => false end.

Definition np_sort (l : Series) : option Series :=
  match l with
  | [] => Some []
  | x :: r => if forallb (same_kind x) r then Some (sort_asc l) else None
  end.

(** [s.mode()]: the non-missing values of maximal count, sorted; when they
    are of different kinds and the sort fails, in the order the library
    leaves them in. *)
Definition mode {lib : Library} (s : Series) : Series :=
  let cs := counts s in
  let m := list_max (map snd cs) in
  let modes := map fst (filter (fun kc => (snd kc =? m)%nat) cs) in
  match np_sort modes with
  | Some sorted => sorted
  | None => sort_mixed modes
  end.

End Pandas.

Import Pandas.

(** ** The random generator *)

(** numpy's global generator, as the stream of its raw outputs. *)
Definition RandomState : Type := nat -> Z.

Definition advance (rs : RandomState) : RandomState := fun i => rs (S i).

(** Computations that consume random numbers and may raise. *)
Definition M (A : Type) : Type := RandomState -> result (A * RandomState).

Definition ret {A : Type} (a : A) : M A := fun rs => Ok (a, rs).

Definition bind {A B : Type} (m : M A) (k : A -> M B) : M B :=
  fun rs =>
    match m rs with
    | Ok (a, rs') => k a rs'
    | Raise e => Raise e
    end.

Definition lift {A : Type} (r : result A) : M A :=
  fun rs =>
    match r with
    | Ok a => Ok (a, rs)
    | Raise e => Raise e
    end.

Notation "x <- m ;; k" := (bind m (fun x => k))
  (at level 61, m at next level, right associativity).

Module NumpyRandom.

(** The value [randint(low, high)] makes of one raw output: the upper bound
    is exclusive. *)
Definition randint_of (low high u : Z) : Z := low + u mod (high - low).

Arguments randint_of : simpl never.

(** [np.random.randint(low, high)] *)
Definition randint (low high : Z) : M Z :=
  fun rs => Ok (randint_of low high (rs O), advance rs).

(** [np.random.randint(low, high, size=n)] *)
Fixpoint randint_size (low high : Z) (n : nat) : M (list Z) :=
  match n with
  | O => ret []
  | S k =>
      x <- randint low high ;;
      xs <- randint_size low high k ;;
      ret (x :: xs)
  end.

(** [np.random.choice(a, size=n)] *)
Fixpoint choice (a : list cell) (n : nat) : M (list cell) :=
  match n with
  | O => ret []
  | S k =>
      i <- randint 0 (Z.of_nat (length a)) ;;
      xs <- choice a k ;;
      ret (nth (Z.to_nat i) a VNaN :: xs)
  end.

End NumpyRandom.

Import NumpyRandom.

(** ** The normaliser, [process_data] *)

(** Nanoseconds of a [timedelta(days=d, hours=h)]. *)
Definition timedelta (days hours : Z) : Z :=
  days * 86400000000000 + hours * 3600000000000.

Arguments timedelta : simpl never.

Definition authors : list cell :=
  [VStr "Ananya_Rao"; VStr "Rohan_M"; VStr "Priya_Singh"; VStr "Arjun_K";
   VStr "Vikram_P"; VStr "Meera_N"; VStr "Suresh_Eats"].

(** The list comprehension that simulates the dates: per row, a draw of the
    days and then a draw of the hours. *)
Fixpoint simulated_dates (start_date : Z) (n : nat) : M (list cell) :=
  match n with
  | O => ret []
  | S k =>
      d <- randint 0 30 ;;
      h <- randint 0 23 ;;
      xs <- simulated_dates start_date k ;;
      ret (VTime (start_date + timedelta d h) :: xs)
  end.

Section Normaliser.

(** The uploaded file with its reader and the clock are the surroundings of
    the script. *)
Context {lib : Library}.
Variable UploadedFile : Type.
Variable read_excel : UploadedFile -> result DataFrame.
Variable now : Z.

Definition fill_tweet_id (df : DataFrame) : M DataFrame :=
  if negb (col_in "Tweet_ID" df) then
    ids <- randint_size 1000000 9999999 (len df) ;;
    ret (setitem "Tweet_ID" (map VInt ids) df)
  else ret df.

Definition fill_author_id (df : DataFrame) : M DataFrame :=
  if negb (col_in "Author_ID" df) then
    names <- choice authors (len df) ;;
    ret (setitem "Author_ID" names df)
  else ret df.

Definition fill_date (df : DataFrame) : M DataFrame :=
  match getitem "Date" df with
  | None =>
      let start_date := now - timedelta 30 0 in
      dates <- simulated_dates start_date (len df) ;;
      ret (setitem "Date" dates df)
  | Some col =>
      parsed <- lift (to_datetime col) ;;
      ret (setitem "Date" parsed df)
  end.

Definition fill_tweet_text (df : DataFrame) : DataFrame :=
  match getitem "Tweet" df with
  | Some tweet =>
      if negb (col_in "Tweet_Text" df) then setitem "Tweet_Text" tweet df
      else df
  | None =>
      if negb (col_in "Tweet_Text" df)
      then setitem_scalar "Tweet_Text" "No text available" df
      else df
  end.

Definition fill_emoji (df : DataFrame) : DataFrame :=
  if negb (col_in "Emoji" df) then setitem_scalar "Emoji" "🙂" df else df.

(** The body of the [try] block. *)
Definition process_body (uploaded_file : UploadedFile) : M DataFrame :=
  df <- lift (read_excel uploaded_file) ;;
  df <- fill_tweet_id df ;;
  df <- fill_author_id df ;;
  df <- fill_date df ;;
  ret (fill_emoji (fill_tweet_text df)).

(** [process_data]: the table and the messages shown with [st.error].  Any
    exception of the body is caught, reported, and an empty frame returned. *)
Definition process_data (uploaded_file : UploadedFile) (rs : RandomState)
  : DataFrame * list string :=
  match process_body uploaded_file rs with
  | Ok (df, _) => (df, [])
  | Raise e => (empty_frame, [String.append "Error processing file: " e])
  end.

End Normaliser.

(** ** Doubles *)

Module Float64.

(** The arithmetic of numpy's [float64] on the values the gauge meets, which
    neither overflow nor underflow: a double is the rational it stands for,
    and an operation yields the exact result rounded to the nearest value
    with a significand of 53 bits, a tie going to the even significand. *)

Definition pow2 (k : Z) : Q := (2 ^ k)%Q.

(** The nearest integer, a tie going to the even one. *)
Definition round_int (x : Q) : Z :=
  let f := Qfloor x in
  match (x - inject_Z f ?= 1 # 2)%Q with
  | Lt => f
  | Gt => f + 1
  | Eq => if Z.even f then f else f + 1
  end.

(** The exponent of a positive value: the [e] with [2^e <= x < 2^(e+1)]. *)
Definition exponent (x : Q) : Z :=
  let k := Z.log2 (Qnum x) - Z.log2 (Zpos (Qden x)) in
  if Qle_bool (pow2 k) x then k else k - 1.

(** A positive value rounded: its significand [x / 2^(e-52)], which lies
    between [2^52] and [2^53], is rounded to an integer. *)
Definition round_pos (x : Q) : Q :=
  let e := exponent x in
  (inject_Z (round_int (x * pow2 (52 - e))) * pow2 (e - 52))%Q.

Definition round (x : Q) : Q :=
  match (x ?= 0)%Q with
  | Eq => 0%Q
  | Gt => round_pos x
  | Lt => (- round_pos (- x))%Q
  end.

(** [float(z)] *)
Definition of_int (z : Z) : Q := round (inject_Z z).

(** [a / b] *)
Definition div (a b : Q) : Q := round (a / b).

(** [a * b] *)
Definition mul (a b : Q) : Q := round (a * b).

End Float64.

(** ** The aggregator: filters and derivations of the dashboard *)

Module Aggregator.

(** One sidebar filter: [if sel != "All" and c in df_filt.columns:
    df_filt = df_filt[df_filt[c] == sel]]. *)
Definition filter_by (c sel : cell) (df_filt : DataFrame) : DataFrame :=
  if negb (cell_eqb sel "All") && col_in c df_filt then
    match getitem c df_filt with
    | Some col => mask_rows (series_eq col sel) df_filt
    | None => df_filt
    end
  else df_filt.

(** The filters, festival first and sentiment on what is left. *)
Definition apply_filters (df : DataFrame) (sel_festival sel_sentiment : cell)
  : DataFrame :=
  let df_filt := df in
  let df_filt := filter_by "Festival" sel_festival df_filt in
  filter_by "Sentiment" sel_sentiment df_filt.

(** The metric "Total Tweets". *)
Definition total_tweets (df_filt : DataFrame) : nat := len df_filt.

(** The metric "Unique Emojis". *)
Definition unique_emoji_count (df_filt : DataFrame) : nat :=
  match getitem "Emoji" df_filt with
  | Some col => nunique col
  | None => O
  end.

(** The metrics "Top Emotion" and "Top Emoji": [df_filt[c].mode()[0]], or
    ["N/A"] when the column is absent or its mode is empty. *)
Definition top_value {lib : Library} (c : cell) (df_filt : DataFrame) : cell :=
  match getitem c df_filt with
  | Some col =>
      match mode col with
      | v :: _ => v
      | [] => VStr "N/A"
      end
  | None => VStr "N/A"
  end.

Definition top_emotion {lib : Library} (df_filt : DataFrame) : cell :=
  top_value "Emotion" df_filt.

Definition top_emoji {lib : Library} (df_filt : DataFrame) : cell :=
  top_value "Emoji" df_filt.

(** The emoji frequency ranking,
    [df_filt['Emoji'].value_counts().nlargest(top_n)]; [None] when the chart
    is replaced by the warning of the missing column. *)
Definition emoji_counts {lib : Library} (df_filt : DataFrame) (top_n : nat)
  : option (list (cell * nat)) :=
  match getitem "Emoji" df_filt with
  | Some col => Some (nlargest top_n (value_counts col))
  | None => None
  end.

(** The value of the sentiment gauge, [(positive_count / total) * 100] in
    doubles; [None] when the gauge is replaced by the information message. *)
Definition positive_rate (df_filt : DataFrame) : option Q :=
  match getitem "Sentiment" df_filt with
  | Some col =>
      if (0 <? len df_filt)%nat then
        let total := len df_filt in
        let positive_count := count_eq "Positive" col in
        Some (Float64.mul
                (Float64.div (Float64.of_int (Z.of_nat positive_count))
                             (Float64.of_int (Z.of_nat total)))
                (Float64.of_int 100))
      else None
  | None => None
  end.

(** The labels of the [top_n] most frequent emoji. *)
Definition top_emojis {lib : Library} (col : Series) (top_n : nat) : list cell :=
  map fst (nlargest top_n (value_counts col)).

(** [(df_filt['Emoji'] == e).astype(int)] *)
Definition indicator (col : Series) (e : cell) : Series :=
  map (fun b : bool => VInt (Z.b2z b)) (series_eq col e).

(** The tweet-by-emoji occurrence table [mat_df]: a frame of zeros over the
    rows of [df_filt], one column per top emoji, each then overwritten with
    the indicator of that emoji. *)
Definition mat_df {lib : Library} (df_filt : DataFrame) (top_n : nat)
  : option DataFrame :=
  match getitem "Emoji" df_filt with
  | Some col =>
      let tops := top_emojis col top_n in
      let zeros :=
        mkDataFrame (index df_filt)
                    (map (fun e => (e, repeat (VInt 0) (len df_filt))) tops) in
      Some (fold_left (fun m e => setitem e (indicator col e) m) tops zeros)
  | None => None
  end.

(** [df.iloc[i]]: the values of row [i], column by column. *)
Definition iloc (i : nat) (df : DataFrame) : Series :=
  map (fun kv => nth i (snd kv) VNaN) (data df).

(** What the dashboard shows of the filtered table. *)
Record Dashboard : Type := mkDashboard {
  kpi_total : nat;
  kpi_unique_emoji : nat;
  kpi_top_emotion : cell;
  kpi_top_emoji : cell;
  chart_emoji_counts : option (list (cell * nat));
  gauge_positive_rate : option Q;
  heatmap_mat_df : option DataFrame
}.

Definition dashboard {lib : Library} (df_filt : DataFrame) (top_n : nat)
  : Dashboard :=
  mkDashboard (total_tweets df_filt) (unique_emoji_count df_filt)
              (top_emotion df_filt) (top_emoji df_filt)
              (emoji_counts df_filt top_n) (positive_rate df_filt)
              (mat_df df_filt top_n).

End Aggregator.

Import Aggregator.

(** ** Vocabulary of the statements *)

(** The generator after [n] draws. *)
Fixpoint skip (n : nat) (rs : RandomState) : RandomState :=
  match n with
  | O => rs
  | S k => skip k (advance rs)
  end.

(** The raw outputs a generator hands to its first [n] draws. *)
Definition draws (n : nat) (rs : RandomState) : list Z :=
  map rs (seq 0 n).

(** A generator whose first outputs are the given ones. *)
Definition replay (us : list Z) : RandomState := fun i => nth i us 0.

(** The five canonical columns, in the order [process_data] adds them. *)
Definition canonical : list cell :=
  [VStr "Tweet_ID"; VStr "Author_ID"; VStr "Date"; VStr "Tweet_Text";
   VStr "Emoji"].

(** A column [L] was left alone when present and added when absent. *)
Definition filled (L : cell) (df df' : DataFrame) : Prop :=
  (col_in L df = true /\ df' = df) \/
  (col_in L df = false /\ exists v, df' = setitem L v df).

(** The message [process_data] shows for an exception. *)
Definition error_message (e : string) : string :=
  String.append "Error processing file: " e.

(** A value that is already a date-time, or missing. *)
Definition is_datetime (c : cell) : bool :=
  match c with VTime _ | VNaN => true | _ => false end.

(** What is assumed of [pd.to_datetime]: a column that holds date-times
    already is returned as it is, and what is returned has a date-time, or a
    missing value, for each value handed in. *)
Definition keeps_datetimes (lib : Library) : Prop :=
  forall s, forallb is_datetime s = true -> to_datetime s = Ok s.

Definition yields_datetimes (lib : Library) : Prop :=
  forall s s', to_datetime s = Ok s' ->
               length s' = length s /\ forallb is_datetime s' = true.

Definition day_ns : Z := 86400000000000.
Definition hour_ns : Z := 3600000000000.

(** A simulated date is the start date plus whole days in 0..29 and whole
    hours in 0..22. *)
Definition simulated (start_date : Z) (c : cell) : Prop :=
  exists d h, 0 <= d <= 29 /\ 0 <= h <= 22 /\
              c = VTime (start_date + d * day_ns + h * hour_ns).

(** The rows one sidebar filter lets through: all of them when the selection
    is "All" or the column is absent, else those whose value equals the
    selection. *)
Definition selects (c sel : cell) (df : DataFrame) : list bool :=
  match getitem c df with
  | Some col =>
      if cell_eqb sel "All" then repeat true (len df) else series_eq col sel
  | None => repeat true (len df)
  end.

(** Row-wise conjunction of two masks. *)
Definition both (m1 m2 : list bool) : list bool :=
  map (fun p => fst p && snd p) (combine m1 m2).

(** [a] is met before [b] in the rows of [col]. *)
Definition met_before (col : Series) (a b : cell) : Prop :=
  (first_pos a col < first_pos b col)%nat.

(** The order of a frequency ranking: the larger count first and, among
    equal counts, the value met first in the rows of [col]. *)
Definition ranked (col : Series) (a b : cell * nat) : Prop :=
  (snd b < snd a)%nat \/
  (snd a = snd b /\ met_before col (fst a) (fst b)).

(** Counts in descending order, equal counts in any order. *)
Definition descending (r : list (cell * nat)) : Prop :=
  StronglySorted (fun a b => (snd b <= snd a)%nat) r.

(** What is assumed of the sort under [value_counts]: it rearranges the
    table into descending order of count. *)
Definition sorts_by_count (lib : Library) : Prop :=
  forall l, Permutation (sort_values l) l /\ descending (sort_values l).

(** What is assumed of the order [mode] leaves values of different kinds
    in: it is an order of these values. *)
Definition keeps_values (lib : Library) : Prop :=
  forall l, Permutation (sort_mixed l) l.


(** A value of the column that no other value outnumbers. *)
Definition most_frequent (col : Series) (v : cell) : Prop :=
  In v col /\ notna v = true /\
  forall w, (count_eq w col <= count_eq v col)%nat.

(** The tie-break of a frequency ranking: among the most frequent values,
    the one met first. *)
Definition first_met_most_frequent (col : Series) (v : cell) : Prop :=
  most_frequent col v /\
  forall w, most_frequent col w -> w <> v -> met_before col v w.

(** The non-missing values of the column are comparable: all text, all
    integers or all date-times. *)
Definition one_kind (col : Series) : Prop :=
  forall a b, In a col -> In b col -> notna a = true -> notna b = true ->
              same_kind a b = true.

(** The most frequent values of the column are comparable: all text, all
    integers or all date-times. *)
Definition tied_one_kind (col : Series) : Prop :=
  forall a b, most_frequent col a -> most_frequent col b ->
              same_kind a b = true.

(** What a "top" metric shows for column [c]: "N/A" without the column or
    without a non-missing value in it; otherwise a most frequent value which,
    when the most frequent values are comparable, is the least of them. *)
Definition top_spec (c : cell) (df : DataFrame) (v : cell) : Prop :=
  match getitem c df with
  | None => v = VStr "N/A"
  | Some col =>
      match dropna col with
      | [] => v = VStr "N/A"
      | _ :: _ =>
          most_frequent col v /\
          (tied_one_kind col ->
           forall w, most_frequent col w -> cell_leb v w = true)
      end
  end.

(** ** The sidebar, the time series, the treemap and the Sankey diagram *)

(** What a chart slot shows: the data of the chart, or the message that
    replaces it. *)
Inductive chart (A : Type) : Type :=
| Drawn (a : A)
| Message (text : string).

Arguments Drawn {A} a.
Arguments Message {A} text.

Module Sidebar.

(** Python's [sorted] on a list of values: ascending; [None] is the
    [TypeError] of ordering values of different kinds. *)
Definition sorted (l : list cell) : option (list cell) := np_sort l.

(** The choices of a select box: ["All"], followed when the column exists by
    [sorted(df[c].dropna().unique().tolist())]. *)
Definition options (c : cell) (df : DataFrame) : option (list cell) :=
  if col_in c df then
    match getitem c df with
    | Some col =>
        match sorted (unique (dropna col)) with
        | Some values => Some ([VStr "All"] ++ values)
        | None => None
        end
    | None => Some [VStr "All"]
    end
  else Some [VStr "All"].

Definition festival_options (df : DataFrame) : option (list cell) :=
  options "Festival" df.

Definition sentiment_options (df : DataFrame) : option (list cell) :=
  options "Sentiment" df.

End Sidebar.

Module TimeSeries.

(** [col.dt.date]: the day of each date-time, as days since the epoch, and
    nothing for a missing one; [None] is the [AttributeError] of a column
    that does not hold date-times. *)
Definition dt_date (col : Series) : option (list (option Z)) :=
  if forallb is_datetime col then
    Some (map (fun c => match c with
                        | VTime t => Some (t / day_ns)
                        | _ => None
                        end) col)
  else None.

(** One more row for day [d] in a table of counts kept in ascending order of
    day. *)
Fixpoint tally (d : Z) (l : list (Z * nat)) : list (Z * nat) :=
  match l with
  | [] => [(d, 1%nat)]
  | (k, n) :: r =>
      if d <? k then (d, 1%nat) :: (k, n) :: r
      else if d =? k then (k, S n) :: r
      else (k, n) :: tally d r
  end.

(** [groupby(days).size()]: the rows per day, days ascending, rows without a
    day left out. *)
Definition groupby_days (days : list (option Z)) : list (Z * nat) :=
  fold_left (fun acc o => match o with
                          | Some d => tally d acc
                          | None => acc
                          end) days [].

(** The tweets per day of the time series. *)
Definition daily (df_filt : DataFrame) : result (chart (list (Z * nat))) :=
  match getitem "Date" df_filt with
  | Some col =>
      match dt_date col with
      | Some days => Ok (Drawn (groupby_days days))
      | None => Raise "Can only use .dt accessor with datetimelike values"
      end
  | None => Ok (Message "Date column missing.")
  end.

End TimeSeries.

Module Flows.

(** [s.isin(values)], for values without a missing one. *)
Definition isin (s : Series) (values : list cell) : list bool :=
  map (fun c => existsb (cell_eqb c) values) s.

(** A Python dictionary from labels to positions, in insertion order. *)
Definition dict : Type := list (cell * nat).

Fixpoint dict_get (k : cell) (d : dict) : option nat :=
  match d with
  | [] => None
  | (k', v) :: r => if cell_eqb k k' then Some v else dict_get k r
  end.

(** [d[k] = v]: the value of an existing key is overwritten, a new key is
    added at the end. *)
Fixpoint dict_set (k : cell) (v : nat) (d : dict) : dict :=
  match d with
  | [] => [(k, v)]
  | (k', v') :: r =>
      if cell_eqb k k' then (k', v) :: r else (k', v') :: dict_set k v r
  end.

(** [enumerate(labels)], counting from [i]. *)
Fixpoint enumerate_from (i : nat) (labels : list cell) : list (nat * cell) :=
  match labels with
  | [] => []
  | lab :: r => (i, lab) :: enumerate_from (S i) r
  end.

(** [{lab: i for i, lab in enumerate(labels)}] *)
Definition label_to_idx (labels : list cell) : dict :=
  fold_left (fun d il => dict_set (snd il) (fst il) d)
            (enumerate_from 0 labels) [].

(** The rows holding [a] in the first column and [b] in the second. *)
Definition pair_count (a b : cell) (s1 s2 : Series) : nat :=
  length (filter (fun p => cell_eqb (fst p) a && cell_eqb (snd p) b)
                 (combine s1 s2)).

(** A link of the diagram: source, target and value. *)
Definition link : Type := (nat * nat * nat)%type.

(** The loop over the rows of a table of groups: a link for each group whose
    two keys are labels. *)
Definition links_of (label_to_idx : dict) (groups : list (cell * cell * nat))
  : list link :=
  flat_map (fun g =>
              match dict_get (fst (fst g)) label_to_idx,
                    dict_get (snd (fst g)) label_to_idx with
              | Some i, Some j => [(i, j, snd g)]
              | _, _ => []
              end) groups.

(** The node labels and the links handed to [go.Sankey]. *)
Record SankeyData : Type := mkSankey {
  labels : list cell;
  links : list link
}.

Section Grouping.

(** The order in which [groupby] lists the distinct keys of a column
    (ascending for values that compare). *)
Context {lib : Library}.
Variable sort_keys : list cell -> list cell.

(** [df.groupby([c1, c2]).size().reset_index(name='Count')]: one row per
    pair of keys that occurs, with its number of rows, ordered by the first
    key and then the second; rows with a missing key are left out. *)
Definition groupby_size2 (s1 s2 : Series) : list (cell * cell * nat) :=
  flat_map (fun a =>
    flat_map (fun b =>
                let n := pair_count a b s1 s2 in
                if (0 <? n)%nat then [(a, b, n)] else [])
             (sort_keys (unique (dropna s2))))
    (sort_keys (unique (dropna s1))).

(** The table of the treemap. *)
Definition tree_df (df_filt : DataFrame) : chart (list (cell * cell * nat)) :=
  match getitem "Emotion" df_filt, getitem "Emoji" df_filt with
  | Some emotion, Some emoji => Drawn (groupby_size2 emotion emoji)
  | _, _ => Message "Required columns for Treemap missing."
  end.

(** The Sankey diagram, festival to sentiment to emoji, over the rows of the
    top emoji. *)
Definition sankey (df_filt : DataFrame) (top_n : nat) : chart SankeyData :=
  match getitem "Festival" df_filt, getitem "Sentiment" df_filt,
        getitem "Emoji" df_filt with
  | Some _, Some _, Some emoji =>
      let top_emojis_global := top_emojis emoji top_n in
      let sankey_df := mask_rows (isin emoji top_emojis_global) df_filt in
      match getitem "Festival" sankey_df, getitem "Sentiment" sankey_df,
            getitem "Emoji" sankey_df with
      | Some festival, Some sentiment, Some emoji' =>
          let festivals := unique (dropna festival) in
          let sentiments := unique (dropna sentiment) in
          let emojis := top_emojis_global in
          let labels := festivals ++ sentiments ++ emojis in
          let label_to_idx := label_to_idx labels in
          let fs := groupby_size2 festival sentiment in
          let se := groupby_size2 sentiment emoji' in
          let links := links_of label_to_idx fs ++ links_of label_to_idx se in
          if (0 <? length links)%nat then Drawn (mkSankey labels links)
          else Message "Not enough data to draw Sankey."
      | _, _, _ => Message "Not enough data to draw Sankey."
      end
  | _, _, _ =>
      Message "Need 'Festival', 'Sentiment', and 'Emoji' columns for Sankey diagram."
  end.

End Grouping.

End Flows.

(** ** The script *)

(** A run of the script: the welcome screen without an upload; otherwise the
    messages of [process_data] and, when the table is not empty, the
    dashboard of the filtered table, unless building the choices of the
    sidebar raises, which nothing catches. *)
Inductive Page : Type :=
| Welcome
| Loaded (errors : list string) (shown : option Dashboard)
| Uncaught (errors : list string) (exception : string).

(** The exception of [sorted] on values of different kinds. *)
Definition type_error : string :=
  "TypeError: '<' not supported between instances".

Section Script.

Context {lib : Library}.
Variable UploadedFile : Type.
Variable read_excel : UploadedFile -> result DataFrame.
Variable now : Z.

Definition app (uploaded_file : option UploadedFile) (rs : RandomState)
    (sel_festival sel_sentiment : cell) (top_n : nat) : Page :=
  match uploaded_file with
  | Some f =>
      let '(df, errors) := process_data UploadedFile read_excel now f rs in
      if negb (empty df) then
        match Sidebar.festival_options df with
        | None => Uncaught errors type_error
        | Some _ =>
            match Sidebar.sentiment_options df with
            | None => Uncaught errors type_error
            | Some _ =>
                let df_filt := apply_filters df sel_festival sel_sentiment in
                Loaded errors (Some (dashboard df_filt top_n))
            end
        end
      else Loaded errors None
  | None => Welcome
  end.

End Script.

(** ** Vocabulary of the further statements *)

(** The rows of a list of days that fall on day [d]. *)
Definition on_day (d : Z) (o : option Z) : bool :=
  match o with
  | Some k => d =? k
  | None => false
  end.

Definition count_day (d : Z) (days : list (option Z)) : nat :=
  length (filter (on_day d) days).

(** The rows that have a day. *)
Definition dated (days : list (option Z)) : nat :=
  length (filter (fun o => match o with Some _ => true | None => false end)
                 days).

(** The count a table of counts gives for day [d], zero when the day is not
    listed. *)
Fixpoint rows_on (d : Z) (l : list (Z * nat)) : nat :=
  match l with
  | [] => O
  | (k, n) :: r => if d =? k then n else rows_on d r
  end.

(** Days strictly ascending. *)
Definition ascending_days (l : list (Z * nat)) : Prop :=
  StronglySorted (fun a b => fst a < fst b) l.

(** The sum of the counts of a table of groups. *)
Definition sum_rows {K : Type} (g : list (K * nat)) : nat :=
  list_sum (map snd g).

(** The rows in which both keys are present. *)
Definition both_present (s1 s2 : Series) : nat :=
  length (filter (fun p => notna (fst p) && notna (snd p)) (combine s1 s2)).

(** A link read back through the node labels. *)
Definition decode (labels : list cell) (l : Flows.link) : cell * cell * nat :=
  (nth (fst (fst l)) labels VNaN, nth (snd (fst l)) labels VNaN, snd l).

(** Values strictly ascending in the order of the values. *)
Definition ascending (l : list cell) : Prop :=
  StronglySorted (fun a b => cell_leb a b = true /\ a <> b) l.

(** ** Sample uploads *)

Module Samples.

(** An upload is represented by what reading it yields. *)
Definition Upload : Type := result DataFrame.

Definition read (f : Upload) : result DataFrame := f.

(** A parser of date strings that knows two days. *)
Definition parse (s : string) : option Z :=
  if String.eqb s "2024-01-01" then Some 1704067200000000000
  else if String.eqb s "2024-01-02" then Some 1704153600000000000
  else None.

(** A [pd.to_datetime] built on it.  Text is parsed or raises; an integer
    counts nanoseconds and has to fit the 64 bits of a time stamp; a column
    that mixes text and integers raises. *)
Definition parse_cell (c : cell) : result cell :=
  match c with
  | VTime t => Ok (VTime t)
  | VNaN => Ok VNaN
  | VInt n =>
      if (-9223372036854775808 <? n) && (n <=? 9223372036854775807)
      then Ok (VTime n)
      else Raise "Out of bounds nanosecond timestamp"
  | VStr s =>
      match parse s with
      | Some t => Ok (VTime t)
      | None => Raise (String.append "Unknown datetime string format: " s)
      end
  end.

Fixpoint parse_cells (s : Series) : result Series :=
  match s with
  | [] => Ok []
  | c :: r =>
      match parse_cell c with
      | Raise e => Raise e
      | Ok c' =>
          match parse_cells r with
          | Raise e => Raise e
          | Ok r' => Ok (c' :: r')
          end
      end
  end.

Definition is_text (c : cell) : bool :=
  match c with VStr _ => true | _ => false end.

Definition is_int (c : cell) : bool :=
  match c with VInt _ => true | _ => false end.

Definition parse_dates (s : Series) : result Series :=
  if existsb is_text s && existsb is_int s
  then Raise "time data doesn't match format"
  else parse_cells s.

(** pandas with a sort that leaves equal counts as they are met, as numpy's
    does on a short table, and with most frequent values of different kinds
    left as met, as pandas 2 leaves them. *)
#[export] Instance pandas : Library := {|
  sort_values := sort_desc;
  sort_mixed := fun l => l;
  to_datetime := parse_dates
|}.


(** The clock: 2024-11-03 00:00:00. *)
Definition clock : Z := 1730592000000000000.

(** A generator. *)
Definition gen : RandomState := fun i => Z.of_nat i * 7919 + 13.

(** The dataset of the welcome screen: festival, sentiment, emoji, emotion
    and the text of the tweet. *)
Definition festival_tweets : DataFrame :=
  mkDataFrame [0; 1; 2; 3]
    [(VStr "Festival", [VStr "Diwali"; VStr "Holi"; VStr "Diwali"; VStr "Holi"]);
     (VStr "Sentiment",
      [VStr "Positive"; VStr "Negative"; VStr "Positive"; VStr "Positive"]);
     (VStr "Emoji", [VStr "😀"; VStr "😂"; VStr "😀"; VStr "😂"]);
     (VStr "Emotion", [VStr "Joy"; VStr "Anger"; VStr "Joy"; VStr "Anger"]);
     (VStr "Tweet",
      [VStr "Happy Diwali"; VStr "Too loud"; VStr "Lights"; VStr "Colours"])].

(** The same with a column of date strings. *)
Definition dated_tweets : DataFrame :=
  mkDataFrame [0; 1]
    [(VStr "Emoji", [VStr "😀"; VStr "😂"]);
     (VStr "Date", [VStr "2024-01-01"; VStr "2024-01-02"])].

(** A table whose [Date] column holds a text that is no date. *)
Definition undated_tweets : DataFrame :=
  mkDataFrame [0]
    [(VStr "Emoji", [VStr "😀"]);
     (VStr "Date", [VStr "yesterday"])].

(** A table that has the five canonical columns. *)
Definition canonical_tweets : DataFrame :=
  mkDataFrame [0; 1]
    [(VStr "Tweet_ID", [VInt 1234567; VInt 7654321]);
     (VStr "Author_ID", [VStr "Rohan_M"; VStr "Meera_N"]);
     (VStr "Date", [VTime 1704067200000000000; VTime 1704153600000000000]);
     (VStr "Tweet_Text", [VStr "Happy Holi"; VStr "Colours"]);
     (VStr "Emoji", [VStr "😀"; VStr "😂"])].

(** A table that has the five canonical columns, its dates written as text. *)
Definition canonical_text_dates : DataFrame :=
  mkDataFrame [0; 1]
    [(VStr "Tweet_ID", [VInt 1234567; VInt 7654321]);
     (VStr "Author_ID", [VStr "Rohan_M"; VStr "Meera_N"]);
     (VStr "Date", [VStr "2024-01-01"; VStr "2024-01-02"]);
     (VStr "Tweet_Text", [VStr "Happy Holi"; VStr "Colours"]);
     (VStr "Emoji", [VStr "😀"; VStr "😂"])].

(** A table whose [Date] column mixes a text and an integer. *)
Definition mixed_dates : DataFrame :=
  mkDataFrame [0; 1]
    [(VStr "Emoji", [VStr "😀"; VStr "😂"]);
     (VStr "Date", [VStr "2024-01-01"; VInt 5])].

(** A table in which two emotions tie and a number occurs once. *)
Definition emotions_and_a_number : DataFrame :=
  mkDataFrame [0; 1; 2; 3; 4]
    [(VStr "Emotion",
      [VStr "Joy"; VStr "Anger"; VStr "Joy"; VStr "Anger"; VInt 7])].



(** Twenty rows of which eleven are positive. *)
Definition twenty_sentiments : DataFrame :=
  mkDataFrame [0; 1; 2; 3; 4; 5; 6; 7; 8; 9; 10; 11; 12; 13; 14; 15; 16; 17;
               18; 19]
    [(VStr "Sentiment",
      repeat (VStr "Positive") 11 ++ repeat (VStr "Negative") 9)].

(** The rows of [festival_tweets] for Diwali with a negative sentiment:
    there are none. *)
Definition no_tweets : DataFrame :=
  apply_filters festival_tweets "Diwali" "Negative".

(** The scenarios of the specification. *)
Definition three_emoji : DataFrame :=
  mkDataFrame [0; 1; 2] [(VStr "Emoji", [VStr "😀"; VStr "😀"; VStr "😂"])].

Definition four_sentiments : DataFrame :=
  mkDataFrame [0; 1; 2; 3]
    [(VStr "Sentiment",
      [VStr "Positive"; VStr "Positive"; VStr "Negative"; VStr "Negative"])].

End Samples.

Module MoreSamples.

(** A table that has the text of the tweets and nothing else. *)
Definition plain_tweets : DataFrame :=
  mkDataFrame [0; 1] [(VStr "Tweet", [VStr "Happy Holi"; VStr "Colours"])].

(** A table whose festivals are now a text, now a number. *)
Definition mixed_festivals : DataFrame :=
  mkDataFrame [0; 1]
    [(VStr "Festival", [VStr "Diwali"; VInt 2024]);
     (VStr "Emoji", [VStr "😀"; VStr "😂"])].

(** A table without rows. *)
Definition headers_only : DataFrame :=
  mkDataFrame [] [(VStr "Festival", []); (VStr "Emoji", [])].

End MoreSamples.

(** * Properties *)

Section WithLibrary.

(** The properties hold whatever the sort of [value_counts], the order of
    [mode] and the date parser, as long as these do what pandas documents
    of them. *)
Context {lib : Library}.
Hypothesis to_datetime_keeps : keeps_datetimes lib.
Hypothesis to_datetime_yields : yields_datetimes lib.
Hypothesis sort_values_sorts : sorts_by_count lib.
Hypothesis sort_mixed_keeps : keeps_values lib.

(** ** Cells and frames *)

Lemma cell_eqb_eq (a b : cell) : cell_eqb a b = true -> a = b.
Proof.
  destruct a, b; simpl; try discriminate; intros H.
  - apply String.eqb_eq in H. now subst.
  - apply Z.eqb_eq in H. now subst.
  - apply Z.eqb_eq in H. now subst.
Qed.

Lemma cell_eqb_refl (a : cell) : notna a = true -> cell_eqb a a = true.
Proof.
  destruct a; simpl; intros H; try discriminate.
  - apply String.eqb_refl.
  - apply Z.eqb_refl.
  - apply Z.eqb_refl.
Qed.

Lemma cell_eqb_sym (a b : cell) : cell_eqb a b = cell_eqb b a.
Proof.
  destruct a, b; simpl; auto using String.eqb_sym, Z.eqb_sym.
Qed.

Lemma cell_eqb_neq (a b : cell) : a <> b -> cell_eqb a b = false.
Proof.
  intros H. destruct (cell_eqb a b) eqn:E; [|reflexivity].
  apply cell_eqb_eq in E. contradiction.
Qed.

Lemma cell_eqb_notna_l (a b : cell) : cell_eqb a b = true -> notna a = true.
Proof. destruct a, b; simpl; try discriminate; reflexivity. Qed.

Lemma col_in_assoc (c : cell) (l : list (cell * Series)) :
  existsb (cell_eqb c) (map fst l) = true <-> exists v, assoc c l = Some v.
Proof.
  induction l as [|[k w] r IH]; simpl.
  - split; [discriminate | intros [v H]; discriminate].
  - destruct (cell_eqb c k); simpl.
    + split; eauto.
    + exact IH.
Qed.

Lemma col_in_getitem (c : cell) (df : DataFrame) :
  col_in c df = true <-> exists v, getitem c df = Some v.
Proof. apply col_in_assoc. Qed.

Lemma getitem_None_col_in (c : cell) (df : DataFrame) :
  getitem c df = None -> col_in c df = false.
Proof.
  intros H. destruct (col_in c df) eqn:E; [|reflexivity].
  apply col_in_getitem in E. destruct E as [v E]. congruence.
Qed.

Lemma col_in_false_getitem (c : cell) (df : DataFrame) :
  col_in c df = false -> getitem c df = None.
Proof.
  intros H. destruct (getitem c df) eqn:E; [|reflexivity].
  assert (col_in c df = true) by (apply col_in_getitem; eauto). congruence.
Qed.

Lemma assoc_replace_other (c c' : cell) (v : Series) (l : list (cell * Series)) :
  cell_eqb c' c = false -> assoc c' (replace c v l) = assoc c' l.
Proof.
  intros Hne. induction l as [|[k w] r IH]; simpl; [reflexivity|].
  destruct (cell_eqb c k) eqn:E; simpl.
  - apply cell_eqb_eq in E. subst k. now rewrite Hne.
  - now rewrite IH.
Qed.

Lemma assoc_replace_same (c : cell) (v : Series) (l : list (cell * Series)) :
  existsb (cell_eqb c) (map fst l) = true -> assoc c (replace c v l) = Some v.
Proof.
  induction l as [|[k w] r IH]; simpl; [discriminate|].
  destruct (cell_eqb c k) eqn:E; simpl; rewrite E; auto.
Qed.

Lemma replace_same_value (c : cell) (v : Series) (l : list (cell * Series)) :
  assoc c l = Some v -> replace c v l = l.
Proof.
  induction l as [|[k w] r IH]; simpl; [reflexivity|].
  destruct (cell_eqb c k); intros H.
  - now inversion H.
  - now rewrite IH.
Qed.

Lemma map_fst_replace (c : cell) (v : Series) (l : list (cell * Series)) :
  map fst (replace c v l) = map fst l.
Proof.
  induction l as [|[k w] r IH]; simpl; [reflexivity|].
  destruct (cell_eqb c k); simpl; [reflexivity | now rewrite IH].
Qed.

Lemma assoc_app_other (c c' : cell) (v : Series) (l : list (cell * Series)) :
  cell_eqb c' c = false -> assoc c' (l ++ [(c, v)]) = assoc c' l.
Proof.
  intros Hne. induction l as [|[k w] r IH]; simpl.
  - now rewrite Hne.
  - now rewrite IH.
Qed.

Lemma assoc_app_new (c : cell) (v : Series) (l : list (cell * Series)) :
  notna c = true -> existsb (cell_eqb c) (map fst l) = false ->
  assoc c (l ++ [(c, v)]) = Some v.
Proof.
  intros Hc. induction l as [|[k w] r IH]; simpl.
  - now rewrite cell_eqb_refl.
  - destruct (cell_eqb c k); simpl; [discriminate | exact IH].
Qed.

Lemma index_setitem (c : cell) (v : Series) (df : DataFrame) :
  index (setitem c v df) = index df.
Proof. unfold setitem. now destruct (col_in c df). Qed.

Lemma len_setitem (c : cell) (v : Series) (df : DataFrame) :
  len (setitem c v df) = len df.
Proof. unfold len. now rewrite index_setitem. Qed.

Lemma getitem_setitem_other (c c' : cell) (v : Series) (df : DataFrame) :
  cell_eqb c' c = false -> getitem c' (setitem c v df) = getitem c' df.
Proof.
  intros Hne. unfold setitem, getitem.
  destruct (col_in c df); simpl.
  - now apply assoc_replace_other.
  - now apply assoc_app_other.
Qed.

Lemma getitem_setitem_same (c : cell) (v : Series) (df : DataFrame) :
  notna c = true -> getitem c (setitem c v df) = Some v.
Proof.
  intros Hc. unfold setitem, getitem.
  destruct (col_in c df) eqn:E; simpl.
  - now apply assoc_replace_same.
  - now apply assoc_app_new.
Qed.

Lemma setitem_same_value (c : cell) (v : Series) (df : DataFrame) :
  getitem c df = Some v -> setitem c v df = df.
Proof.
  intros H. unfold setitem.
  assert (E : col_in c df = true) by (apply col_in_getitem; eauto).
  rewrite E. destruct df as [ix d]; simpl in *. f_equal.
  now apply replace_same_value.
Qed.

Lemma columns_setitem (c : cell) (v : Series) (df : DataFrame) :
  columns (setitem c v df) =
  columns df ++ (if col_in c df then [] else [c]).
Proof.
  unfold setitem, columns.
  destruct (col_in c df); simpl.
  - now rewrite map_fst_replace, app_nil_r.
  - now rewrite map_app.
Qed.

Lemma col_in_setitem (c c' : cell) (v : Series) (df : DataFrame) :
  col_in c' (setitem c v df) = col_in c' df || (negb (col_in c df) && cell_eqb c' c).
Proof.
  unfold col_in at 1. rewrite columns_setitem, existsb_app.
  fold (col_in c' df). destruct (col_in c df); simpl.
  - reflexivity.
  - now rewrite orb_false_r.
Qed.

Lemma well_formed_setitem (c : cell) (v : Series) (df : DataFrame) :
  well_formed df -> length v = len df -> well_formed (setitem c v df).
Proof.
  unfold well_formed. intros Hwf Hv. rewrite len_setitem.
  unfold setitem. destruct (col_in c df); simpl.
  - induction (data df) as [|[k w] r IH]; simpl; [constructor|].
    inversion Hwf; subst. destruct (cell_eqb c k); constructor; auto.
  - apply Forall_app. split; [assumption | now repeat constructor].
Qed.

Lemma well_formed_getitem (c : cell) (col : Series) (df : DataFrame) :
  well_formed df -> getitem c df = Some col -> length col = len df.
Proof.
  unfold well_formed, getitem. intros Hwf.
  induction (data df) as [|[k w] r IH]; simpl; [discriminate|].
  inversion Hwf; subst. destruct (cell_eqb c k); intros H.
  - now inversion H; subst.
  - auto.
Qed.

(** ** The random generator *)

Lemma draws_S (n : nat) (rs : RandomState) :
  draws (S n) rs = rs O :: draws n (advance rs).
Proof.
  unfold draws. simpl. f_equal. now rewrite <- seq_shift, map_map.
Qed.

Lemma randint_of_range (low high u : Z) :
  low < high -> low <= randint_of low high u < high.
Proof.
  intros H. unfold randint_of.
  pose proof (Z.mod_pos_bound u (high - low)). lia.
Qed.

Lemma randint_of_offset (low high v : Z) :
  low <= v < high -> randint_of low high (v - low) = v.
Proof.
  intros H. unfold randint_of. rewrite Z.mod_small; lia.
Qed.

Lemma randint_size_spec (low high : Z) (n : nat) (rs : RandomState) :
  randint_size low high n rs =
  Ok (map (randint_of low high) (draws n rs), skip n rs).
Proof.
  revert rs. induction n as [|n IH]; intros rs; [reflexivity|].
  rewrite draws_S. simpl. unfold bind, randint. now rewrite IH.
Qed.

Lemma choice_spec (a : list cell) (n : nat) (rs : RandomState) :
  exists l, choice a n rs = Ok (l, skip n rs) /\ length l = n.
Proof.
  revert rs. induction n as [|n IH]; intros rs.
  - exists []. now split.
  - destruct (IH (advance rs)) as [l [Hl Hn]].
    eexists. simpl. unfold bind, randint. rewrite Hl. simpl.
    split; [reflexivity|]. simpl. now rewrite Hn.
Qed.

Lemma draws_length (n : nat) (rs : RandomState) : length (draws n rs) = n.
Proof. unfold draws. now rewrite length_map, length_seq. Qed.

Lemma draws_replay (us : list Z) : draws (length us) (replay us) = us.
Proof.
  unfold draws, replay.
  apply nth_ext with (d := 0) (d' := 0).
  - now rewrite length_map, length_seq.
  - intros i Hi. rewrite length_map, length_seq in Hi.
    rewrite nth_indep with (d' := nth (length us) us 0)
      by now rewrite length_map, length_seq.
    rewrite (map_nth (fun i => nth i us 0) (seq 0 (length us)) (length us) i).
    now rewrite seq_nth.
Qed.

Lemma simulated_dates_spec (start_date : Z) (n : nat) (rs : RandomState) :
  exists l, simulated_dates start_date n rs = Ok (l, skip (2 * n) rs) /\
            length l = n /\ Forall (simulated start_date) l.
Proof.
  revert rs. induction n as [|n IH]; intros rs.
  - exists []. repeat split. constructor.
  - destruct (IH (advance (advance rs))) as [l [Hl [Hn Hall]]].
    eexists. simpl. unfold bind, randint. rewrite Hl. simpl.
    replace (n + S (n + 0))%nat with (S (2 * n)) by lia. simpl.
    split; [reflexivity|]. split; [simpl; now rewrite Hn|].
    constructor; [|assumption].
    exists (randint_of 0 30 (rs O)), (randint_of 0 23 (advance rs O)).
    pose proof (randint_of_range 0 30 (rs O)).
    pose proof (randint_of_range 0 23 (advance rs O)).
    repeat split; try lia.
    unfold timedelta, day_ns, hour_ns. f_equal. lia.
Qed.

(** ** Columns that are filled in *)

Lemma filled_index (L : cell) (df df' : DataFrame) :
  filled L df df' -> index df' = index df.
Proof.
  intros [[_ ->] | [_ [v ->]]]; [reflexivity | apply index_setitem].
Qed.

Lemma filled_len (L : cell) (df df' : DataFrame) :
  filled L df df' -> len df' = len df.
Proof. intros H. unfold len. now rewrite (filled_index L df df'). Qed.

Lemma filled_columns (L : cell) (df df' : DataFrame) :
  filled L df df' ->
  columns df' = columns df ++ (if col_in L df then [] else [L]).
Proof.
  intros [[E ->] | [E [v ->]]].
  - now rewrite E, app_nil_r.
  - now rewrite columns_setitem.
Qed.

Lemma filled_col_in (L c : cell) (df df' : DataFrame) :
  filled L df df' ->
  col_in c df' = col_in c df || (negb (col_in L df) && cell_eqb c L).
Proof.
  intros [[E ->] | [E [v ->]]].
  - rewrite E. simpl. now rewrite orb_false_r.
  - apply col_in_setitem.
Qed.

Lemma filled_getitem (L c : cell) (v : Series) (df df' : DataFrame) :
  filled L df df' -> getitem c df = Some v -> getitem c df' = Some v.
Proof.
  intros [[E ->] | [E [w ->]]] H; [assumption|].
  rewrite getitem_setitem_other; [assumption|].
  destruct (cell_eqb c L) eqn:Ec; [|reflexivity].
  apply cell_eqb_eq in Ec. subst c.
  apply col_in_false_getitem in E. congruence.
Qed.

(** ** The steps of [process_data] *)

Section NormaliserProperties.

Variable UploadedFile : Type.
Variable read_excel : UploadedFile -> result DataFrame.
Variable now : Z.

Local Abbreviation body := (process_body UploadedFile read_excel now).
Local Abbreviation run := (process_data UploadedFile read_excel now).
Local Abbreviation start_date := (now - 30 * day_ns).

Lemma fill_tweet_id_spec (df : DataFrame) (rs : RandomState) :
  fill_tweet_id df rs =
  if col_in "Tweet_ID" df then Ok (df, rs)
  else Ok (setitem "Tweet_ID"
             (map VInt (map (randint_of 1000000 9999999) (draws (len df) rs)))
             df,
           skip (len df) rs).
Proof.
  unfold fill_tweet_id.
  destruct (col_in "Tweet_ID" df); simpl; [reflexivity|].
  unfold bind. now rewrite randint_size_spec.
Qed.

Lemma fill_tweet_id_filled (df : DataFrame) (rs : RandomState) :
  exists df' rs', fill_tweet_id df rs = Ok (df', rs') /\
                  filled "Tweet_ID" df df' /\
                  (well_formed df -> well_formed df').
Proof.
  rewrite fill_tweet_id_spec. unfold filled.
  destruct (col_in "Tweet_ID" df) eqn:E.
  - exists df, rs. split; [reflexivity|]. split; [now left | auto].
  - eexists _, _. split; [reflexivity|]. split.
    + right. split; [reflexivity|]. eexists. reflexivity.
    + intros Hwf. apply well_formed_setitem; [assumption|].
      now rewrite !length_map, draws_length.
Qed.

Lemma fill_author_id_filled (df : DataFrame) (rs : RandomState) :
  exists df' rs', fill_author_id df rs = Ok (df', rs') /\
                  filled "Author_ID" df df' /\
                  (well_formed df -> well_formed df').
Proof.
  unfold fill_author_id, filled.
  destruct (col_in "Author_ID" df) eqn:E; simpl.
  - exists df, rs. split; [reflexivity|]. split; [now left | auto].
  - unfold bind. destruct (choice_spec authors (len df) rs) as [l [Hl Hn]].
    rewrite Hl. simpl.
    eexists _, _. split; [reflexivity|]. split.
    + right. split; [reflexivity|]. now exists l.
    + intros Hwf. now apply well_formed_setitem.
Qed.

Lemma fill_date_absent (df : DataFrame) (rs : RandomState) :
  getitem "Date" df = None ->
  exists dates rs',
    fill_date now df rs = Ok (setitem "Date" dates df, rs') /\
    length dates = len df /\ Forall (simulated start_date) dates.
Proof.
  intros E. unfold fill_date. rewrite E. unfold bind.
  destruct (simulated_dates_spec (now - timedelta 30 0) (len df) rs)
    as [l [Hl [Hn Hall]]].
  rewrite Hl. simpl. exists l. eexists. split; [reflexivity|].
  split; [assumption|].
  replace (now - 30 * day_ns) with (now - timedelta 30 0)
    by (unfold timedelta, day_ns; lia).
  assumption.
Qed.

Lemma fill_date_present (df : DataFrame) (rs : RandomState) (d : Series) :
  getitem "Date" df = Some d ->
  fill_date now df rs =
  match to_datetime d with
  | Ok d' => Ok (setitem "Date" d' df, rs)
  | Raise e => Raise e
  end.
Proof.
  intros E. unfold fill_date. rewrite E. unfold bind, lift.
  now destruct (to_datetime d).
Qed.

Lemma fill_tweet_text_filled (df : DataFrame) :
  filled "Tweet_Text" df (fill_tweet_text df).
Proof.
  unfold fill_tweet_text, filled, setitem_scalar.
  destruct (col_in "Tweet_Text" df) eqn:E;
    destruct (getitem "Tweet" df) as [tweet|] eqn:Et; simpl;
    try (left; now split); right; (split; [reflexivity|]);
    eexists; reflexivity.
Qed.

Lemma fill_tweet_text_well_formed (df : DataFrame) :
  well_formed df -> well_formed (fill_tweet_text df).
Proof.
  intros Hwf. unfold fill_tweet_text, setitem_scalar.
  destruct (col_in "Tweet_Text" df) eqn:E;
    destruct (getitem "Tweet" df) as [tweet|] eqn:Et; simpl;
    try assumption; apply well_formed_setitem; try assumption.
  - now apply well_formed_getitem with (c := VStr "Tweet").
  - apply repeat_length.
Qed.

Lemma fill_emoji_filled (df : DataFrame) : filled "Emoji" df (fill_emoji df).
Proof.
  unfold fill_emoji, filled, setitem_scalar.
  destruct (col_in "Emoji" df) eqn:E; simpl.
  - now left.
  - right. split; [reflexivity|]. eexists. reflexivity.
Qed.

Lemma fill_emoji_well_formed (df : DataFrame) :
  well_formed df -> well_formed (fill_emoji df).
Proof.
  intros Hwf. unfold fill_emoji, setitem_scalar.
  destruct (col_in "Emoji" df); simpl; [assumption|].
  apply well_formed_setitem; [assumption | apply repeat_length].
Qed.

(** The body after a successful read: the identifiers and the authors never
    fail, the date step decides. *)
Lemma process_body_steps (f : UploadedFile) (rs : RandomState) (raw : DataFrame) :
  read_excel f = Ok raw ->
  exists df1 rs1 df2 rs2,
    fill_tweet_id raw rs = Ok (df1, rs1) /\
    filled "Tweet_ID" raw df1 /\
    fill_author_id df1 rs1 = Ok (df2, rs2) /\
    filled "Author_ID" df1 df2 /\
    (well_formed raw -> well_formed df2) /\
    body f rs =
    match fill_date now df2 rs2 with
    | Ok (df3, rs3) => Ok (fill_emoji (fill_tweet_text df3), rs3)
    | Raise e => Raise e
    end.
Proof.
  intros Hread.
  destruct (fill_tweet_id_filled raw rs) as [df1 [rs1 [H1 [F1 W1]]]].
  destruct (fill_author_id_filled df1 rs1) as [df2 [rs2 [H2 [F2 W2]]]].
  exists df1, rs1, df2, rs2.
  split; [assumption|]. split; [assumption|]. split; [assumption|].
  split; [assumption|]. split; [auto|].
  unfold process_body, bind, lift. rewrite Hread, H1, H2.
  destruct (fill_date now df2 rs2) as [[df3 rs3]|]; reflexivity.
Qed.

Lemma filled_getitem_other (L c : cell) (df df' : DataFrame) :
  filled L df df' -> cell_eqb c L = false -> getitem c df' = getitem c df.
Proof.
  intros [[E ->] | [E [w ->]]] H; [reflexivity|].
  now apply getitem_setitem_other.
Qed.

(** The last two steps keep what is there. *)
Lemma finish_getitem (c : cell) (v : Series) (df : DataFrame) :
  getitem c df = Some v -> getitem c (fill_emoji (fill_tweet_text df)) = Some v.
Proof.
  intros H.
  apply (filled_getitem "Emoji" c v _ _ (fill_emoji_filled _)).
  apply (filled_getitem "Tweet_Text" c v _ _ (fill_tweet_text_filled _)).
  assumption.
Qed.

Lemma finish_index (df : DataFrame) :
  index (fill_emoji (fill_tweet_text df)) = index df.
Proof.
  rewrite (filled_index "Emoji" _ _ (fill_emoji_filled _)).
  apply (filled_index "Tweet_Text" _ _ (fill_tweet_text_filled _)).
Qed.

(** A failed date step fails the body. *)
Lemma process_body_date_error (f : UploadedFile) (rs : RandomState)
    (raw : DataFrame) (d : Series) (e : string) :
  read_excel f = Ok raw -> getitem "Date" raw = Some d ->
  to_datetime d = Raise e -> body f rs = Raise e.
Proof.
  intros Hread Hd He.
  destruct (process_body_steps f rs raw Hread)
    as [df1 [rs1 [df2 [rs2 [H1 [F1 [H2 [F2 [W Hb]]]]]]]]].
  rewrite Hb.
  assert (Hd2 : getitem "Date" df2 = Some d).
  { rewrite (filled_getitem_other _ _ _ _ F2) by reflexivity.
    now rewrite (filled_getitem_other _ _ _ _ F1) by reflexivity. }
  now rewrite (fill_date_present df2 rs2 d Hd2), He.
Qed.

(** The body when nothing raises: the table before the last two steps. *)
Lemma process_body_success (f : UploadedFile) (rs : RandomState)
    (raw : DataFrame) :
  read_excel f = Ok raw ->
  (forall d, getitem "Date" raw = Some d -> exists d', to_datetime d = Ok d') ->
  exists df1 rs1 df2 df3 rs3,
    fill_tweet_id raw rs = Ok (df1, rs1) /\
    filled "Tweet_ID" raw df1 /\
    filled "Author_ID" df1 df2 /\
    match getitem "Date" raw with
    | None =>
        col_in "Date" df2 = false /\
        exists dates, df3 = setitem "Date" dates df2 /\
                      length dates = len raw /\
                      Forall (simulated start_date) dates
    | Some d =>
        getitem "Date" df2 = Some d /\
        exists d', to_datetime d = Ok d' /\ df3 = setitem "Date" d' df2
    end /\
    ((well_formed raw -> well_formed df2) /\ len df2 = len raw) /\
    body f rs = Ok (fill_emoji (fill_tweet_text df3), rs3).
Proof.
  intros Hread Hparse.
  destruct (process_body_steps f rs raw Hread)
    as [df1 [rs1 [df2 [rs2 [H1 [F1 [H2 [F2 [W Hb]]]]]]]]].
  assert (Hd2 : getitem "Date" df2 = getitem "Date" raw).
  { rewrite (filled_getitem_other _ _ _ _ F2) by reflexivity.
    now rewrite (filled_getitem_other _ _ _ _ F1) by reflexivity. }
  assert (Hlen : len df2 = len raw).
  { rewrite (filled_len _ _ _ F2). apply (filled_len _ _ _ F1). }
  destruct (getitem "Date" raw) as [d|] eqn:Ed.
  - destruct (Hparse d eq_refl) as [d' Hd'].
    exists df1, rs1, df2, (setitem "Date" d' df2), rs2.
    repeat (split; [assumption|]). split; [|split].
    + split; [assumption|]. now exists d'.
    + split; assumption.
    + rewrite Hb, (fill_date_present df2 rs2 d Hd2), Hd'. reflexivity.
  - destruct (fill_date_absent df2 rs2 Hd2) as [dates [rs3 [Hf [Hn Hall]]]].
    exists df1, rs1, df2, (setitem "Date" dates df2), rs3.
    repeat (split; [assumption|]). split; [|split].
    + split; [now apply getitem_None_col_in|].
      exists dates. repeat split; [congruence | assumption].
    + split; assumption.
    + now rewrite Hb, Hf.
Qed.

(** The table after the date step has one value per row in every column. *)
Lemma date_step_well_formed (raw df2 df3 : DataFrame) :
  well_formed df2 -> len df2 = len raw ->
  match getitem "Date" raw with
  | None =>
      col_in "Date" df2 = false /\
      exists dates, df3 = setitem "Date" dates df2 /\
                    length dates = len raw /\
                    Forall (simulated start_date) dates
  | Some d =>
      getitem "Date" df2 = Some d /\
      exists d', to_datetime d = Ok d' /\ df3 = setitem "Date" d' df2
  end ->
  well_formed df3.
Proof.
  intros Hwf Hlen Hdate. destruct (getitem "Date" raw) as [d|].
  - destruct Hdate as [Hd [d' [Hd' ->]]].
    apply well_formed_setitem; [assumption|].
    rewrite (proj1 (to_datetime_yields d d' Hd')).
    now apply well_formed_getitem with (c := VStr "Date").
  - destruct Hdate as [_ [dates [-> [Hn _]]]].
    apply well_formed_setitem; [assumption | congruence].
Qed.

Lemma run_of_body (f : UploadedFile) (rs rs' : RandomState) (df : DataFrame) :
  body f rs = Ok (df, rs') -> run f rs = (df, []).
Proof. intros H. unfold process_data. now rewrite H. Qed.

Lemma run_of_error (f : UploadedFile) (rs : RandomState) (e : string) :
  body f rs = Raise e -> run f rs = (empty_frame, [error_message e]).
Proof. intros H. unfold process_data. now rewrite H. Qed.

(** The frame of a successful run, step by step. *)
Lemma process_body_frame (raw df1 df2 df3 : DataFrame) (v : Series) :
  filled "Tweet_ID" raw df1 -> filled "Author_ID" df1 df2 ->
  df3 = setitem "Date" v df2 ->
  let df := fill_emoji (fill_tweet_text df3) in
  index df = index raw /\
  (forall c w, c <> VStr "Date" -> getitem c raw = Some w ->
               getitem c df = Some w) /\
  columns df = columns raw ++ filter (fun c => negb (col_in c raw)) canonical /\
  getitem "Date" df = Some v.
Proof.
  intros F1 F2 -> df. subst df.
  pose proof (fill_tweet_text_filled (setitem "Date" v df2)) as F4.
  pose proof (fill_emoji_filled (fill_tweet_text (setitem "Date" v df2))) as F5.
  split; [|split; [|split]].
  - rewrite finish_index, index_setitem.
    rewrite (filled_index _ _ _ F2). apply (filled_index _ _ _ F1).
  - intros c w Hc Hw. apply finish_getitem.
    rewrite getitem_setitem_other by now apply cell_eqb_neq.
    apply (filled_getitem _ _ _ _ _ F2).
    now apply (filled_getitem _ _ _ _ _ F1).
  - rewrite (filled_columns _ _ _ F5), (filled_columns _ _ _ F4).
    rewrite columns_setitem.
    rewrite (filled_columns _ _ _ F2), (filled_columns _ _ _ F1).
    rewrite (filled_col_in _ "Emoji" _ _ F4).
    rewrite !col_in_setitem.
    rewrite !(filled_col_in _ _ _ _ F2), !(filled_col_in _ _ _ _ F1).
    unfold canonical. simpl filter.
    destruct (col_in "Tweet_ID" raw), (col_in "Author_ID" raw),
      (col_in "Date" raw), (col_in "Tweet_Text" raw), (col_in "Emoji" raw);
      simpl; rewrite <- ?app_assoc; reflexivity.
  - apply finish_getitem. now apply getitem_setitem_same.
Qed.

(** C9 (amended): when the file is read and its [Date] column, if there is
    one, parses, [process_data] returns without an error message a table
    with the row labels of the raw one (no row added or removed), in which
    every raw column other than [Date] has its values in the same order, whose
    columns are the raw ones followed by the canonical columns the raw table
    lacks, and whose [Date] column, when the raw table has one, is that
    column parsed to date-times. *)
Theorem normalise_frame (f : UploadedFile) (rs : RandomState) (raw : DataFrame) :
  read_excel f = Ok raw ->
  (forall d, getitem "Date" raw = Some d -> exists d', to_datetime d = Ok d') ->
  exists df,
    run f rs = (df, []) /\
    index df = index raw /\
    len df = len raw /\
    (forall c w, c <> VStr "Date" -> getitem c raw = Some w ->
                 getitem c df = Some w) /\
    columns df = columns raw ++ filter (fun c => negb (col_in c raw)) canonical /\
    (forall d, getitem "Date" raw = Some d ->
               exists d', to_datetime d = Ok d' /\ getitem "Date" df = Some d').
Proof.
  intros Hread Hparse.
  destruct (process_body_success f rs raw Hread Hparse)
    as [df1 [rs1 [df2 [df3 [rs3 [H1 [F1 [F2 [Hdate [W Hb]]]]]]]]]].
  exists (fill_emoji (fill_tweet_text df3)).
  split; [now apply run_of_body with (rs' := rs3)|].
  assert (Hv : exists v, df3 = setitem "Date" v df2 /\
                         forall d, getitem "Date" raw = Some d ->
                                   to_datetime d = Ok v).
  { destruct (getitem "Date" raw) as [d|].
    - destruct Hdate as [_ [d' [Hd' ->]]]. exists d'. split; [reflexivity|].
      intros d0 E. now inversion E; subst.
    - destruct Hdate as [_ [dates [-> _]]]. exists dates.
      split; [reflexivity | discriminate]. }
  destruct Hv as [v [E3 Hv]].
  destruct (process_body_frame raw df1 df2 df3 v F1 F2 E3)
    as [Hix [Hcols [Hnames Hd]]].
  split; [assumption|]. split; [unfold len; now rewrite Hix|].
  split; [assumption|]. split; [assumption|].
  intros d E. exists v. split; [now apply Hv | assumption].
Qed.

Lemma normalise_canonical_fixed (f : UploadedFile) (rs : RandomState)
    (df : DataFrame) :
  read_excel f = Ok df ->
  forallb (fun c => col_in c df) canonical = true ->
  (forall d, getitem "Date" df = Some d -> forallb is_datetime d = true) ->
  body f rs = Ok (df, rs).
Proof.
  intros Hread Hall Hdate.
  unfold canonical in Hall. simpl in Hall.
  repeat (apply andb_true_iff in Hall; destruct Hall as [? Hall]).
  unfold process_body, bind, lift. rewrite Hread.
  rewrite fill_tweet_id_spec.
  replace (col_in "Tweet_ID" df) with true by auto.
  unfold fill_author_id. replace (col_in "Author_ID" df) with true by auto.
  simpl. unfold ret at 1.
  assert (Hd : exists d, getitem "Date" df = Some d)
    by now apply col_in_getitem.
  destruct Hd as [d Hd].
  rewrite (fill_date_present df rs d Hd).
  rewrite (to_datetime_keeps d (Hdate d Hd)).
  rewrite (setitem_same_value "Date" d df Hd).
  unfold ret, fill_tweet_text, fill_emoji.
  replace (col_in "Tweet_Text" df) with true by auto.
  destruct (getitem "Tweet" df); simpl;
    replace (col_in "Emoji" df) with true by auto; reflexivity.
Qed.

(** C5 (amended): a table that has the five canonical columns, its [Date]
    column holding date-times already, is returned by [process_data] as it
    is, with the same rows, columns and values, and without an error
    message. *)
Theorem normalise_canonical_unchanged (f : UploadedFile) (rs : RandomState)
    (df : DataFrame) :
  read_excel f = Ok df ->
  forallb (fun c => col_in c df) canonical = true ->
  (forall d, getitem "Date" df = Some d -> forallb is_datetime d = true) ->
  run f rs = (df, []).
Proof.
  intros Hread Hall Hdate.
  apply run_of_body with (rs' := rs).
  now apply normalise_canonical_fixed.
Qed.

Lemma columns_canonical (raw df : DataFrame) :
  columns df = columns raw ++ filter (fun c => negb (col_in c raw)) canonical ->
  forallb (fun c => col_in c df) canonical = true.
Proof.
  intros H.
  assert (E : forall c, col_in c df =
                col_in c raw ||
                existsb (cell_eqb c)
                        (filter (fun c => negb (col_in c raw)) canonical)).
  { intros c. unfold col_in at 1. now rewrite H, existsb_app. }
  unfold canonical at 1. simpl forallb. rewrite !E.
  unfold canonical. simpl filter.
  destruct (col_in "Tweet_ID" raw), (col_in "Author_ID" raw),
    (col_in "Date" raw), (col_in "Tweet_Text" raw), (col_in "Emoji" raw);
    reflexivity.
Qed.

(** C6: [process_data] always returns.  When reading the file raises, or
    [pd.to_datetime] raises on its [Date] column, the exception is caught
    and shown as an error message, the empty frame is returned and the
    script renders no derivation; in every other case the body runs to its
    end and returns, without a message, a table that has the five canonical
    columns. *)
Theorem process_data_total (f : UploadedFile) (rs : RandomState) :
  let reported e :=
    body f rs = Raise e /\
    run f rs = (empty_frame, [error_message e]) /\
    forall sel_festival sel_sentiment top_n,
      app UploadedFile read_excel now (Some f) rs
          sel_festival sel_sentiment top_n
      = Loaded [error_message e] None in
  let loaded :=
    exists df rs',
      body f rs = Ok (df, rs') /\
      run f rs = (df, []) /\
      forallb (fun c => col_in c df) canonical = true in
  match read_excel f with
  | Raise e => reported e
  | Ok raw =>
      match getitem "Date" raw with
      | None => loaded
      | Some d =>
          match to_datetime d with
          | Raise e => reported e
          | Ok _ => loaded
          end
      end
  end.
Proof.
  cbv zeta.
  assert (Hfail : forall e, body f rs = Raise e ->
            body f rs = Raise e /\
            run f rs = (empty_frame, [error_message e]) /\
            forall sel_festival sel_sentiment top_n,
              app UploadedFile read_excel now (Some f) rs
                  sel_festival sel_sentiment top_n
              = Loaded [error_message e] None).
  { intros e He. split; [assumption|].
    pose proof (run_of_error f rs e He) as Hr. split; [assumption|].
    intros. unfold app. now rewrite Hr. }
  destruct (read_excel f) as [raw|e] eqn:Hread.
  - assert (Hok : (forall d, getitem "Date" raw = Some d ->
                     exists d', to_datetime d = Ok d') ->
                  exists df rs',
                    body f rs = Ok (df, rs') /\ run f rs = (df, []) /\
                    forallb (fun c => col_in c df) canonical = true).
    { intros Hparse.
      destruct (process_body_success f rs raw Hread Hparse)
        as [df1 [rs1 [df2 [df3 [rs3 [H1 [F1 [F2 [Hdate [W Hb]]]]]]]]]].
      exists (fill_emoji (fill_tweet_text df3)), rs3.
      split; [assumption|]. split; [now apply run_of_body with (rs' := rs3)|].
      assert (Hv : exists v, df3 = setitem "Date" v df2).
      { destruct (getitem "Date" raw).
        - destruct Hdate as [_ [d' [_ ->]]]. now exists d'.
        - destruct Hdate as [_ [dates [-> _]]]. now exists dates. }
      destruct Hv as [v E3].
      destruct (process_body_frame raw df1 df2 df3 v F1 F2 E3)
        as [_ [_ [Hnames _]]].
      now apply columns_canonical with (raw := raw). }
    destruct (getitem "Date" raw) as [d|] eqn:Ed.
    + destruct (to_datetime d) as [d'|e] eqn:Ep.
      * apply Hok. intros d0 E. inversion E; subst. now exists d'.
      * apply Hfail. now apply process_body_date_error with (raw := raw) (d := d).
    + apply Hok. discriminate.
  - apply Hfail. unfold process_body, bind, lift. now rewrite Hread.
Qed.

(** C4: when the raw table has no [Date] column, [process_data] succeeds and
    every date it simulates is [now] minus 30 days plus a whole number of
    days in 0..29 plus a whole number of hours in 0..22, hence at or after
    [now - 30 days] and before [now]. *)
Theorem simulated_dates_window (f : UploadedFile) (rs : RandomState)
    (raw : DataFrame) :
  read_excel f = Ok raw -> getitem "Date" raw = None ->
  exists df dates,
    run f rs = (df, []) /\
    getitem "Date" df = Some dates /\
    length dates = len raw /\
    Forall (fun c => exists d h,
                0 <= d <= 29 /\ 0 <= h <= 22 /\
                c = VTime (now - 30 * day_ns + d * day_ns + h * hour_ns) /\
                now - 30 * day_ns <= now - 30 * day_ns + d * day_ns + h * hour_ns
                  < now) dates.
Proof.
  intros Hread Hnone.
  assert (Hparse : forall d, getitem "Date" raw = Some d ->
                             exists d', to_datetime d = Ok d')
    by (intros d E; congruence).
  destruct (process_body_success f rs raw Hread Hparse)
    as [df1 [rs1 [df2 [df3 [rs3 [H1 [F1 [F2 [Hdate [W Hb]]]]]]]]]].
  rewrite Hnone in Hdate. destruct Hdate as [_ [dates [E3 [Hn Hall]]]].
  exists (fill_emoji (fill_tweet_text df3)), dates.
  split; [now apply run_of_body with (rs' := rs3)|].
  destruct (process_body_frame raw df1 df2 df3 dates F1 F2 E3)
    as [_ [_ [_ Hd]]].
  split; [assumption|]. split; [assumption|].
  eapply Forall_impl; [|exact Hall].
  intros c [d [h [Hd' [Hh ->]]]]. exists d, h.
  repeat (split; [assumption|]). split; [reflexivity|].
  unfold day_ns, hour_ns. lia.
Qed.

(** The identifiers of a successful run on a table without [Tweet_ID]: what
    [randint(1000000, 9999999)] makes of the first raw outputs, one per row. *)
Lemma tweet_id_column (f : UploadedFile) (rs : RandomState) (raw : DataFrame) :
  read_excel f = Ok raw -> col_in "Tweet_ID" raw = false ->
  (forall d, getitem "Date" raw = Some d -> exists d', to_datetime d = Ok d') ->
  exists df,
    run f rs = (df, []) /\
    getitem "Tweet_ID" df =
    Some (map VInt (map (randint_of 1000000 9999999) (draws (len raw) rs))).
Proof.
  intros Hread Hno Hparse.
  destruct (process_body_success f rs raw Hread Hparse)
    as [df1 [rs1 [df2 [df3 [rs3 [H1 [F1 [F2 [Hdate [W Hb]]]]]]]]]].
  exists (fill_emoji (fill_tweet_text df3)).
  split; [now apply run_of_body with (rs' := rs3)|].
  rewrite fill_tweet_id_spec, Hno in H1. inversion H1 as [[E1 Ers]].
  apply finish_getitem.
  assert (Hv : exists v, df3 = setitem "Date" v df2).
  { destruct (getitem "Date" raw).
    - destruct Hdate as [_ [d' [_ ->]]]. now exists d'.
    - destruct Hdate as [_ [dates [-> _]]]. now exists dates. }
  destruct Hv as [v ->].
  rewrite getitem_setitem_other by reflexivity.
  apply (filled_getitem _ _ _ _ _ F2).
  rewrite <- E1. now apply getitem_setitem_same.
Qed.

(** C3 (amended): when the raw table has no [Tweet_ID] column and
    normalisation succeeds, the identifier of each row is
    [randint(1000000, 9999999)] of one raw output of the generator, an integer
    of the range 1,000,000 to 9,999,998 inclusive (the upper bound of
    [randint] is exclusive); every assignment of integers of that range to
    the rows, repeated values included, is the outcome for some generator;
    and each value of the range comes from exactly one of the 8,999,999
    residues of the raw output, so that the draw is uniform. *)
Theorem tweet_id_synthesis (f : UploadedFile) (raw : DataFrame) :
  read_excel f = Ok raw -> col_in "Tweet_ID" raw = false ->
  (forall d, getitem "Date" raw = Some d -> exists d', to_datetime d = Ok d') ->
  (forall rs, exists df ids,
      run f rs = (df, []) /\
      getitem "Tweet_ID" df = Some (map VInt ids) /\
      ids = map (randint_of 1000000 9999999) (draws (len raw) rs) /\
      length ids = len raw /\
      Forall (fun v => 1000000 <= v <= 9999998) ids) /\
  (forall targets,
      length targets = len raw ->
      Forall (fun v => 1000000 <= v <= 9999998) targets ->
      exists rs df,
        run f rs = (df, []) /\
        getitem "Tweet_ID" df = Some (map VInt targets)) /\
  (forall v, 1000000 <= v <= 9999998 ->
      exists u, (0 <= u < 8999999 /\ randint_of 1000000 9999999 u = v) /\
                forall u', 0 <= u' < 8999999 ->
                           randint_of 1000000 9999999 u' = v -> u' = u).
Proof.
  intros Hread Hno Hparse. split; [|split].
  - intros rs.
    destruct (tweet_id_column f rs raw Hread Hno Hparse) as [df [Hr Hg]].
    exists df. eexists. split; [exact Hr|]. split; [exact Hg|].
    split; [reflexivity|]. split.
    + now rewrite length_map, draws_length.
    + apply Forall_map, Forall_forall. intros u _.
      pose proof (randint_of_range 1000000 9999999 u). lia.
  - intros targets Hn Hall.
    exists (replay (map (fun v => v - 1000000) targets)).
    destruct (tweet_id_column f (replay (map (fun v => v - 1000000) targets))
                raw Hread Hno Hparse) as [df [Hr Hg]].
    exists df. split; [exact Hr|]. rewrite Hg. do 2 f_equal.
    rewrite <- Hn.
    rewrite <- (length_map (fun v => v - 1000000) targets) at 1.
    rewrite draws_replay, map_map.
    rewrite <- (map_id targets) at 2. apply map_ext_in.
    intros v Hv. rewrite Forall_forall in Hall.
    apply randint_of_offset. specialize (Hall v Hv). lia.
  - intros v Hv. exists (v - 1000000). split.
    + split; [lia|]. apply randint_of_offset. lia.
    + intros u' Hu' E. unfold randint_of in E.
      rewrite Z.mod_small in E; lia.
Qed.

Lemma simulated_is_datetime (start : Z) (dates : Series) :
  Forall (simulated start) dates -> forallb is_datetime dates = true.
Proof.
  induction 1 as [|c r [d [h [_ [_ ->]]]] _ IH]; simpl; auto.
Qed.

(** What a successful body returns: a canonical table with parsed dates. *)
Lemma process_body_output (f : UploadedFile) (rs rs1 : RandomState)
    (df : DataFrame) :
  body f rs = Ok (df, rs1) ->
  forallb (fun c => col_in c df) canonical = true /\
  (forall d, getitem "Date" df = Some d -> forallb is_datetime d = true).
Proof.
  intros Hb.
  destruct (read_excel f) as [raw|e] eqn:Hread.
  2:{ unfold process_body, bind, lift in Hb. now rewrite Hread in Hb. }
  assert (Hparse : forall d, getitem "Date" raw = Some d ->
                             exists d', to_datetime d = Ok d').
  { intros d Ed. destruct (to_datetime d) as [d'|e] eqn:Ep; [now exists d'|].
    rewrite (process_body_date_error f rs raw d e Hread Ed Ep) in Hb.
    discriminate. }
  destruct (process_body_success f rs raw Hread Hparse)
    as [df1 [rs1' [df2 [df3 [rs3 [H1 [F1 [F2 [Hdate [W Hb']]]]]]]]]].
  rewrite Hb' in Hb. inversion Hb; subst df rs1. clear Hb.
  assert (Hv : exists v, df3 = setitem "Date" v df2 /\
                         forallb is_datetime v = true).
  { destruct (getitem "Date" raw).
    - destruct Hdate as [_ [d' [Hd' ->]]]. exists d'. split; [reflexivity|].
      exact (proj2 (to_datetime_yields _ _ Hd')).
    - destruct Hdate as [_ [dates [-> [_ Hall]]]]. exists dates.
      split; [reflexivity|]. now apply simulated_is_datetime with (start := start_date). }
  destruct Hv as [v [E3 Hv]].
  destruct (process_body_frame raw df1 df2 df3 v F1 F2 E3)
    as [_ [_ [Hnames Hd]]].
  split; [now apply columns_canonical with (raw := raw)|].
  intros d Ed. rewrite Hd in Ed. now inversion Ed; subst.
Qed.

(** Running [process_data] on its own output changes nothing. *)
Corollary normalise_idempotent (f f' : UploadedFile) (rs rs1 rs' : RandomState)
    (df : DataFrame) :
  body f rs = Ok (df, rs1) -> read_excel f' = Ok df ->
  run f' rs' = (df, []).
Proof.
  intros Hb Hread'.
  destruct (process_body_output f rs rs1 df Hb) as [Hcanon Hdt].
  apply run_of_body with (rs' := rs').
  now apply normalise_canonical_fixed.
Qed.

End NormaliserProperties.

(** ** Masks and filters *)

Lemma select_all {A : Type} (l : list A) (n : nat) :
  n = length l -> select (repeat true n) l = l.
Proof.
  intros ->. induction l as [|x r IH]; simpl; [reflexivity | now rewrite IH].
Qed.

Lemma select_nil {A : Type} (m : list bool) : select m (@nil A) = [].
Proof. now destruct m. Qed.

Lemma select_select {A : Type} (m1 m2 : list bool) (l : list A) :
  length m2 = length m1 ->
  select (select m1 m2) (select m1 l) = select (both m1 m2) l.
Proof.
  revert m2 l. induction m1 as [|b m1 IH]; intros m2 l Hn.
  - destruct m2; [reflexivity | discriminate].
  - destruct m2 as [|b2 m2]; [discriminate|]. injection Hn as Hn.
    destruct l as [|x l].
    + now rewrite !select_nil.
    + simpl. unfold both in *. simpl. destruct b; simpl.
      * destruct b2; now rewrite IH.
      * now rewrite IH.
Qed.

Lemma both_true_r (m : list bool) (n : nat) :
  n = length m -> both m (repeat true n) = m.
Proof.
  intros ->. unfold both.
  induction m as [|b m IH]; simpl; [reflexivity|].
  now rewrite IH, andb_true_r.
Qed.

Lemma select_series_eq (m : list bool) (col : Series) (x : cell) :
  series_eq (select m col) x = select m (series_eq col x).
Proof.
  unfold series_eq. revert col.
  induction m as [|b m IH]; intros [|c col]; simpl; try reflexivity.
  destruct b; simpl; now rewrite IH.
Qed.

Lemma length_select_series_eq {A : Type} (col : Series) (x : cell) (l : list A) :
  length l = length col ->
  length (select (series_eq col x) l) = count_eq x col.
Proof.
  unfold series_eq, count_eq. revert l.
  induction col as [|c col IH]; intros [|y l] Hn; simpl; try discriminate;
    [reflexivity|].
  injection Hn as Hn. destruct (cell_eqb c x); simpl; now rewrite IH.
Qed.

Lemma getitem_mask_rows (m : list bool) (c : cell) (df : DataFrame) :
  getitem c (mask_rows m df) = option_map (select m) (getitem c df).
Proof.
  unfold getitem, mask_rows. simpl.
  induction (data df) as [|[k w] r IH]; simpl; [reflexivity|].
  now destruct (cell_eqb c k).
Qed.

Lemma columns_mask_rows (m : list bool) (df : DataFrame) :
  columns (mask_rows m df) = columns df.
Proof. unfold columns, mask_rows. simpl. now rewrite map_map. Qed.

Lemma mask_rows_all (df : DataFrame) :
  well_formed df -> mask_rows (repeat true (len df)) df = df.
Proof.
  intros Hwf. destruct df as [ix d]. unfold mask_rows, well_formed, len in *.
  simpl in *. f_equal.
  - now apply select_all.
  - induction d as [|[k w] r IH]; simpl; [reflexivity|].
    inversion Hwf; subst. simpl in *. rewrite IH by assumption.
    now rewrite select_all.
Qed.

Lemma mask_rows_mask_rows (m1 m2 : list bool) (df : DataFrame) :
  length m2 = length m1 ->
  mask_rows (select m1 m2) (mask_rows m1 df) = mask_rows (both m1 m2) df.
Proof.
  intros Hn. unfold mask_rows. simpl. f_equal.
  - now apply select_select.
  - rewrite map_map. apply map_ext. intros [k w]. simpl.
    now rewrite select_select.
Qed.

Lemma well_formed_mask_rows (m : list bool) (df : DataFrame) :
  well_formed df -> length m = len df -> well_formed (mask_rows m df).
Proof.
  unfold well_formed, mask_rows, len. simpl. intros Hwf Hm.
  apply Forall_map. eapply Forall_impl; [|exact Hwf].
  intros [k w] Hw. simpl in *.
  clear Hwf. revert Hw Hm. generalize (index df). revert w.
  induction m as [|b m IH]; intros [|c w] [|i ix] Hw Hm; simpl in *;
    try discriminate; try reflexivity.
  injection Hw as Hw. injection Hm as Hm.
  destruct b; simpl; auto.
Qed.

Lemma filter_by_spec (c sel : cell) (df : DataFrame) :
  well_formed df -> filter_by c sel df = mask_rows (selects c sel df) df.
Proof.
  intros Hwf. unfold filter_by, selects.
  destruct (getitem c df) as [col|] eqn:E.
  - assert (Hc : col_in c df = true) by (apply col_in_getitem; eauto).
    rewrite Hc, andb_true_r.
    destruct (cell_eqb sel "All"); simpl; [|reflexivity].
    now rewrite mask_rows_all.
  - rewrite (getitem_None_col_in c df E), andb_false_r.
    now rewrite mask_rows_all.
Qed.

Lemma length_selects (c sel : cell) (df : DataFrame) :
  well_formed df -> length (selects c sel df) = len df.
Proof.
  intros Hwf. unfold selects.
  destruct (getitem c df) as [col|] eqn:E; [|apply repeat_length].
  destruct (cell_eqb sel "All"); [apply repeat_length|].
  unfold series_eq. rewrite length_map.
  now apply well_formed_getitem with (c := c).
Qed.

Lemma selects_mask_rows (m : list bool) (c sel : cell) (df : DataFrame) :
  well_formed df -> length m = len df ->
  mask_rows (selects c sel (mask_rows m df)) (mask_rows m df) =
  mask_rows (select m (selects c sel df)) (mask_rows m df).
Proof.
  intros Hwf Hm. unfold selects. rewrite getitem_mask_rows.
  assert (Hall : mask_rows (repeat true (len (mask_rows m df))) (mask_rows m df)
                 = mask_rows (select m (repeat true (len df))) (mask_rows m df)).
  { rewrite mask_rows_all by now apply well_formed_mask_rows.
    rewrite mask_rows_mask_rows by (now rewrite repeat_length).
    now rewrite both_true_r. }
  destruct (getitem c df) as [col|]; simpl; [|exact Hall].
  destruct (cell_eqb sel "All"); [exact Hall|].
  now rewrite select_series_eq.
Qed.

Lemma apply_filters_mask (df : DataFrame) (sel_festival sel_sentiment : cell) :
  well_formed df ->
  apply_filters df sel_festival sel_sentiment =
  mask_rows (both (selects "Festival" sel_festival df)
                  (selects "Sentiment" sel_sentiment df)) df.
Proof.
  intros Hwf. unfold apply_filters.
  rewrite (filter_by_spec "Festival" sel_festival df Hwf).
  pose proof (length_selects "Festival" sel_festival df Hwf) as Hn.
  rewrite filter_by_spec by now apply well_formed_mask_rows.
  rewrite selects_mask_rows by assumption.
  apply mask_rows_mask_rows.
  now rewrite Hn, length_selects.
Qed.

Lemma festival_count_rows (df : DataFrame) (festival : cell) (col : Series) :
  length col = len df -> getitem "Festival" df = Some col ->
  cell_eqb festival "All" = false ->
  total_tweets (apply_filters df festival "All") = count_eq festival col.
Proof.
  intros Hlen Hcol Hne. unfold apply_filters, filter_by at 1. simpl.
  unfold filter_by. rewrite Hne. simpl.
  assert (Hc : col_in "Festival" df = true) by (apply col_in_getitem; eauto).
  rewrite Hc, Hcol. unfold total_tweets, len, mask_rows. simpl.
  apply length_select_series_eq.
  symmetry. exact Hlen.
Qed.

Lemma festival_count (df : DataFrame) (festival : cell) (col : Series) :
  well_formed df -> getitem "Festival" df = Some col ->
  cell_eqb festival "All" = false ->
  total_tweets (apply_filters df festival "All") = count_eq festival col.
Proof.
  intros Hwf Hcol. apply festival_count_rows; [|assumption].
  now apply well_formed_getitem with (c := VStr "Festival") (df := df).
Qed.

(** ** Doubles *)

Section Doubles.

Import Float64.
Local Open Scope Q_scope.

Lemma round_int_cases (x : Q) :
  (round_int x = Qfloor x /\ x - inject_Z (Qfloor x) <= 1 # 2) \/
  (round_int x = (Qfloor x + 1)%Z /\ 1 # 2 <= x - inject_Z (Qfloor x)).
Proof.
  unfold round_int.
  destruct (x - inject_Z (Qfloor x) ?= 1 # 2) eqn:E.
  - apply Qeq_alt in E. destruct (Z.even (Qfloor x)); [left | right];
      (split; [reflexivity | rewrite E; apply Qle_refl]).
  - apply Qlt_alt in E. left. split; [reflexivity | now apply Qlt_le_weak].
  - apply Qgt_alt in E. right. split; [reflexivity | now apply Qlt_le_weak].
Qed.

Lemma round_int_tie (x : Q) :
  x - inject_Z (Qfloor x) == 1 # 2 ->
  round_int x = if Z.even (Qfloor x) then Qfloor x else (Qfloor x + 1)%Z.
Proof.
  intros E. unfold round_int.
  destruct (x - inject_Z (Qfloor x) ?= 1 # 2) eqn:C; [reflexivity| |].
  - apply Qlt_alt in C. lra.
  - apply Qgt_alt in C. lra.
Qed.

Lemma round_int_Z (z : Z) (x : Q) : x == inject_Z z -> round_int x = z.
Proof.
  intros E. unfold round_int.
  rewrite (Qfloor_comp x (inject_Z z) E), Qfloor_Z.
  destruct (x - inject_Z z ?= 1 # 2) eqn:C; [|reflexivity|].
  - apply Qeq_alt in C. lra.
  - apply Qgt_alt in C. lra.
Qed.

Lemma round_int_mono (x y : Q) : x <= y -> (round_int x <= round_int y)%Z.
Proof.
  intros Hxy.
  pose proof (Qfloor_resp_le x y Hxy) as Hf.
  pose proof (Qfloor_le x) as Hx1. pose proof (Qlt_floor x) as Hx2.
  pose proof (Qfloor_le y) as Hy1. pose proof (Qlt_floor y) as Hy2.
  destruct (Z.eq_dec (Qfloor x) (Qfloor y)) as [E | NE].
  - destruct (round_int_cases x) as [[Ex Hx] | [Ex Hx]];
      destruct (round_int_cases y) as [[Ey Hy] | [Ey Hy]];
      rewrite ?Ex, ?Ey; try lia.
    (* x rounded up, y rounded down, same floor: both are ties *)
    rewrite E in Hx.
    assert (Ty : y - inject_Z (Qfloor y) == 1 # 2) by lra.
    assert (Tx : x - inject_Z (Qfloor x) == 1 # 2) by (rewrite E; lra).
    rewrite <- Ex, <- Ey, (round_int_tie x Tx), (round_int_tie y Ty), E.
    lia.
  - destruct (round_int_cases x) as [[Ex _] | [Ex _]];
      destruct (round_int_cases y) as [[Ey _] | [Ey _]];
      rewrite Ex, Ey; lia.
Qed.

Lemma round_int_between (a b : Z) (x : Q) :
  inject_Z a <= x <= inject_Z b -> (a <= round_int x <= b)%Z.
Proof.
  intros [Ha Hb].
  pose proof (round_int_mono _ _ Ha) as H1.
  pose proof (round_int_mono _ _ Hb) as H2.
  rewrite (round_int_Z a (inject_Z a)) in H1 by reflexivity.
  rewrite (round_int_Z b (inject_Z b)) in H2 by reflexivity.
  now split.
Qed.

Lemma round_int_near (x : Q) :
  - (1 # 2) <= inject_Z (round_int x) - x <= 1 # 2.
Proof.
  pose proof (Qfloor_le x) as H1. pose proof (Qlt_floor x) as H2.
  rewrite inject_Z_plus in H2.
  destruct (round_int_cases x) as [[E H] | [E H]]; rewrite E;
    rewrite ?inject_Z_plus; change (inject_Z 1) with 1 in *; lra.
Qed.

Lemma pow2_pos (k : Z) : 0 < pow2 k.
Proof. apply Qpower_0_lt. reflexivity. Qed.

Lemma pow2_plus (a b : Z) : pow2 (a + b) == pow2 a * pow2 b.
Proof. apply Qpower_plus. discriminate. Qed.

Lemma pow2_succ (a : Z) : pow2 (a + 1) == 2 * pow2 a.
Proof. rewrite pow2_plus. change (pow2 1) with 2. ring. Qed.

Lemma pow2_le (a b : Z) : (a <= b)%Z -> pow2 a <= pow2 b.
Proof. intros H. apply Qpower_le_compat_l; [assumption | discriminate]. Qed.

Lemma pow2_lt_inv (a b : Z) : pow2 a < pow2 b -> (a < b)%Z.
Proof. intros H. apply Qpower_lt_compat_l_inv with (q := 2); [assumption | reflexivity]. Qed.

Lemma pow2_Z (a : Z) : (0 <= a)%Z -> pow2 a == inject_Z (2 ^ a).
Proof. intros H. unfold pow2. now rewrite Zpower_Qpower. Qed.

Lemma pow2_log2 (n : Z) :
  (0 < n)%Z -> pow2 (Z.log2 n) <= inject_Z n /\ inject_Z n < pow2 (Z.log2 n + 1).
Proof.
  intros Hn. destruct (Z.log2_spec n Hn) as [H1 H2].
  pose proof (Z.log2_nonneg n) as H0.
  rewrite !pow2_Z by lia. rewrite <- Zle_Qle, <- Zlt_Qlt.
  replace (Z.log2 n + 1)%Z with (Z.succ (Z.log2 n)) by lia. auto.
Qed.

Lemma exponent_spec (x : Q) :
  0 < x -> pow2 (exponent x) <= x /\ x < pow2 (exponent x + 1).
Proof.
  intros Hx. unfold exponent.
  set (a := Z.log2 (Qnum x)). set (b := Z.log2 (Zpos (Qden x))).
  assert (Hn : (0 < Qnum x)%Z).
  { unfold Qlt in Hx. simpl in Hx. lia. }
  destruct (pow2_log2 (Qnum x) Hn) as [Na Nb]. fold a in Na, Nb.
  destruct (pow2_log2 (Zpos (Qden x)) eq_refl) as [Da Db]. fold b in Da, Db.
  rewrite pow2_succ in Nb, Db.
  pose proof (pow2_pos a) as Pa. pose proof (pow2_pos b) as Pb.
  pose proof (pow2_pos (a - b)) as Pk.
  assert (Ek : pow2 (a - b) * pow2 b == pow2 a).
  { rewrite <- pow2_plus. now replace (a - b + b)%Z with a by lia. }
  assert (Ex : x * inject_Z (Zpos (Qden x)) == inject_Z (Qnum x)).
  { destruct x as [n d]. unfold Qeq. simpl. rewrite Pos.mul_1_r. ring. }
  set (N := inject_Z (Qnum x)) in *. set (D := inject_Z (Zpos (Qden x))) in *.
  destruct (Qle_bool (pow2 (a - b)) x) eqn:E.
  - apply Qle_bool_iff in E. split; [assumption|].
    rewrite pow2_succ. nra.
  - assert (E' : x < pow2 (a - b)).
    { apply Qnot_le_lt. intros H. apply Qle_bool_iff in H. congruence. }
    replace (a - b - 1 + 1)%Z with (a - b)%Z by lia. split; [|assumption].
    assert (Ek' : 2 * pow2 (a - b - 1) == pow2 (a - b)).
    { rewrite <- pow2_succ. now replace (a - b - 1 + 1)%Z with (a - b)%Z by lia. }
    pose proof (pow2_pos (a - b - 1)). nra.
Qed.

Lemma exponent_unique (x : Q) (e : Z) :
  pow2 e <= x -> x < pow2 (e + 1) -> 0 < x /\ exponent x = e.
Proof.
  intros H1 H2.
  assert (Hx : 0 < x) by (pose proof (pow2_pos e); lra).
  split; [assumption|].
  destruct (exponent_spec x Hx) as [E1 E2].
  assert (A : (exponent x < e + 1)%Z) by (apply pow2_lt_inv; lra).
  assert (B : (e < exponent x + 1)%Z) by (apply pow2_lt_inv; lra).
  lia.
Qed.

(** The significand of a positive value lies in [2^52, 2^53). *)
Lemma scaled_bounds (x : Q) :
  0 < x ->
  inject_Z (2 ^ 52) <= x * pow2 (52 - exponent x) /\
  x * pow2 (52 - exponent x) < inject_Z (2 ^ 53).
Proof.
  intros Hx. destruct (exponent_spec x Hx) as [E1 E2].
  set (e := exponent x) in *.
  rewrite <- !pow2_Z by lia.
  assert (A : pow2 52 == pow2 e * pow2 (52 - e)).
  { rewrite <- pow2_plus. now replace (e + (52 - e))%Z with 52%Z by lia. }
  assert (B : pow2 53 == pow2 (e + 1) * pow2 (52 - e)).
  { rewrite <- pow2_plus. now replace (e + 1 + (52 - e))%Z with 53%Z by lia. }
  pose proof (pow2_pos (52 - e)) as P.
  rewrite A, B. split.
  - apply Qmult_le_compat_r; [assumption | now apply Qlt_le_weak].
  - now apply Qmult_lt_compat_r.
Qed.

Lemma round_pos_bounds (x : Q) :
  0 < x ->
  pow2 (exponent x) <= round_pos x /\ round_pos x <= pow2 (exponent x + 1).
Proof.
  intros Hx. unfold round_pos. destruct (scaled_bounds x Hx) as [S1 S2].
  set (e := exponent x) in *. set (s := x * pow2 (52 - e)) in *.
  destruct (round_int_between (2 ^ 52) (2 ^ 53) s) as [M1 M2].
  { split; [assumption | now apply Qlt_le_weak]. }
  rewrite Zle_Qle in M1, M2. rewrite <- !pow2_Z in M1, M2 by lia.
  pose proof (pow2_pos (e - 52)) as P.
  assert (A : pow2 e == pow2 52 * pow2 (e - 52)).
  { rewrite <- pow2_plus. now replace (52 + (e - 52))%Z with e by lia. }
  assert (B : pow2 (e + 1) == pow2 53 * pow2 (e - 52)).
  { rewrite <- pow2_plus. now replace (53 + (e - 52))%Z with (e + 1)%Z by lia. }
  rewrite A, B. split; apply Qmult_le_compat_r; try assumption;
    now apply Qlt_le_weak.
Qed.

Lemma round_pos_mono (x y : Q) : 0 < x -> x <= y -> round_pos x <= round_pos y.
Proof.
  intros Hx Hxy. assert (Hy : 0 < y) by lra.
  destruct (exponent_spec x Hx) as [X1 X2].
  destruct (exponent_spec y Hy) as [Y1 Y2].
  assert (Hle : (exponent x <= exponent y)%Z).
  { assert (H : (exponent x < exponent y + 1)%Z) by (apply pow2_lt_inv; lra).
    lia. }
  destruct (Z.eq_dec (exponent x) (exponent y)) as [E | NE].
  - unfold round_pos. rewrite E.
    apply Qmult_le_compat_r; [|apply Qlt_le_weak, pow2_pos].
    rewrite <- Zle_Qle. apply round_int_mono.
    apply Qmult_le_compat_r; [assumption | apply Qlt_le_weak, pow2_pos].
  - destruct (round_pos_bounds x Hx) as [_ Bx].
    destruct (round_pos_bounds y Hy) as [By _].
    pose proof (pow2_le (exponent x + 1) (exponent y) ltac:(lia)). lra.
Qed.

Lemma round_pos_positive (x : Q) : 0 < x -> 0 < round_pos x.
Proof.
  intros Hx. destruct (round_pos_bounds x Hx) as [H _].
  pose proof (pow2_pos (exponent x)). lra.
Qed.

Lemma round_of_pos (x : Q) : 0 < x -> round x = round_pos x.
Proof. intros H. unfold round. apply Qgt_alt in H. now rewrite H. Qed.

Lemma round_of_zero (x : Q) : x == 0 -> round x = 0.
Proof. intros H. unfold round. apply Qeq_alt in H. now rewrite H. Qed.

Lemma round_nonneg (x : Q) : 0 <= x -> 0 <= round x.
Proof.
  intros H. destruct (Qlt_le_dec 0 x) as [Hx | Hx].
  - rewrite (round_of_pos x Hx). now apply Qlt_le_weak, round_pos_positive.
  - rewrite (round_of_zero x) by lra. apply Qle_refl.
Qed.

(** Rounding is monotone. *)
Lemma round_mono (x y : Q) : 0 <= x -> x <= y -> round x <= round y.
Proof.
  intros Hx Hxy. destruct (Qlt_le_dec 0 x) as [Px | Zx].
  - rewrite (round_of_pos x Px), (round_of_pos y) by lra.
    now apply round_pos_mono.
  - rewrite (round_of_zero x) by lra. apply round_nonneg. lra.
Qed.

Lemma round_comp (x y : Q) : 0 <= x -> x == y -> round x == round y.
Proof.
  intros Hx E. apply Qle_antisym; apply round_mono; lra.
Qed.

(** A value with a significand of at most 53 bits is a double. *)
Lemma round_exact (x : Q) (m : Z) :
  0 < x -> x * pow2 (52 - exponent x) == inject_Z m -> round x == x.
Proof.
  intros Hx Hm. rewrite (round_of_pos x Hx). unfold round_pos.
  rewrite (round_int_Z m _ Hm), <- Hm, <- Qmult_assoc, <- pow2_plus.
  replace (52 - exponent x + (exponent x - 52))%Z with 0%Z by lia.
  change (pow2 0) with 1. ring.
Qed.

Lemma round_near (x : Q) :
  0 < x ->
  - pow2 (exponent x - 53) <= round x - x <= pow2 (exponent x - 53).
Proof.
  intros Hx. rewrite (round_of_pos x Hx). unfold round_pos.
  set (e := exponent x). set (s := x * pow2 (52 - e)).
  pose proof (round_int_near s) as [N1 N2].
  pose proof (pow2_pos (e - 52)) as P.
  assert (Es : x == s * pow2 (e - 52)).
  { unfold s. rewrite <- Qmult_assoc, <- pow2_plus.
    replace (52 - e + (e - 52))%Z with 0%Z by lia. change (pow2 0) with 1. ring. }
  assert (Eh : pow2 (e - 53) == (1 # 2) * pow2 (e - 52)).
  { replace (e - 52)%Z with (e - 53 + 1)%Z by lia. rewrite pow2_succ.
    replace (e - 53 + 1 - 1)%Z with (e - 53)%Z by lia. field. }
  rewrite Eh.
  assert (G : - ((1 # 2) * pow2 (e - 52))
              <= inject_Z (round_int s) * pow2 (e - 52) - s * pow2 (e - 52)
              <= (1 # 2) * pow2 (e - 52)) by (split; nra).
  destruct G as [G1 G2]. split; lra.
Qed.

Lemma round_0 : round 0 == 0.
Proof. reflexivity. Qed.

Lemma round_1 : round 1 == 1.
Proof. vm_compute. reflexivity. Qed.

Lemma round_100 : round 100 == 100.
Proof. vm_compute. reflexivity. Qed.

Lemma exponent_le (x : Q) (k : Z) : 0 < x -> x < pow2 (k + 1) -> (exponent x <= k)%Z.
Proof.
  intros Hx H. destruct (exponent_spec x Hx) as [E1 _].
  assert (A : (exponent x < k + 1)%Z) by (apply pow2_lt_inv; lra). lia.
Qed.

(** Integers below 2^53 are doubles. *)
Lemma of_int_exact (z : Z) : (0 <= z < 2 ^ 53)%Z -> of_int z == inject_Z z.
Proof.
  intros [H0 H53]. unfold of_int.
  destruct (Z.eq_dec z 0) as [-> | NZ]; [reflexivity|].
  assert (Hx : 0 < inject_Z z).
  { change 0 with (inject_Z 0). rewrite <- Zlt_Qlt. lia. }
  assert (He : (exponent (inject_Z z) <= 52)%Z).
  { apply exponent_le; [assumption|]. change (52 + 1)%Z with 53%Z.
    rewrite pow2_Z by lia. now rewrite <- Zlt_Qlt. }
  apply round_exact with (m := (z * 2 ^ (52 - exponent (inject_Z z)))%Z);
    [assumption|].
  rewrite inject_Z_mult, pow2_Z by lia. reflexivity.
Qed.

Local Abbreviation rate p t :=
  (mul (div (of_int (Z.of_nat p)) (of_int (Z.of_nat t))) (of_int 100)).

Lemma rate_range (p t : nat) :
  (0 < t)%nat -> (p <= t)%nat ->
  0 <= rate p t /\ rate p t <= 100 /\
  (p = 0%nat -> rate p t == 0) /\
  (p = t -> rate p t == 100).
Proof.
  intros Ht Hp. unfold mul, div.
  set (a := of_int (Z.of_nat p)). set (b := of_int (Z.of_nat t)).
  assert (Ha : 0 <= a).
  { apply round_nonneg. change 0 with (inject_Z 0). rewrite <- Zle_Qle. lia. }
  assert (Hab : a <= b).
  { apply round_mono.
    - change 0 with (inject_Z 0). rewrite <- Zle_Qle. lia.
    - rewrite <- Zle_Qle. lia. }
  assert (Hb : 1 <= b).
  { rewrite <- round_1. apply round_mono; [discriminate|].
    change 1 with (inject_Z 1). rewrite <- Zle_Qle. lia. }
  assert (H100 : of_int 100 == 100) by exact round_100.
  assert (Hq0 : 0 <= a / b).
  { apply Qle_shift_div_l; lra. }
  assert (Hq1 : a / b <= 1).
  { apply Qle_shift_div_r; lra. }
  set (c := round (a / b)).
  assert (Hc0 : 0 <= c) by now apply round_nonneg.
  assert (Hc1 : c <= 1).
  { rewrite <- round_1. now apply round_mono. }
  assert (Hy0 : 0 <= c * of_int 100) by (rewrite H100; lra).
  assert (Hy1 : c * of_int 100 <= 100) by (rewrite H100; lra).
  split; [now apply round_nonneg|]. split; [|split].
  - apply Qle_trans with (round 100); [now apply round_mono|].
    rewrite round_100. apply Qle_refl.
  - intros ->.
    assert (Ea : a == 0) by reflexivity.
    assert (Ec : c == 0).
    { unfold c. rewrite (round_of_zero (a / b)); [reflexivity|].
      rewrite Ea. unfold Qdiv. ring. }
    rewrite (round_of_zero (c * of_int 100)); [reflexivity|].
    rewrite Ec. ring.
  - intros ->. subst a. fold b.
    assert (Eq : b / b == 1) by (field; lra).
    assert (Ec : c == 1).
    { unfold c. rewrite <- round_1. apply round_comp; [lra | exact Eq]. }
    apply Qeq_trans with (round 100); [|exact round_100].
    apply round_comp; [assumption|]. rewrite Ec, H100. ring.
Qed.

Lemma rate_near (p t : nat) :
  (0 < t)%nat -> (p <= t)%nat -> (Z.of_nat t < 2 ^ 53)%Z ->
  Qabs (rate p t - 100 * inject_Z (Z.of_nat p) / inject_Z (Z.of_nat t))
    <= 1 # 2 ^ 45.
Proof.
  intros Ht Hp H53.
  destruct (Nat.eq_dec p 0) as [-> | NZ].
  { destruct (rate_range 0 t Ht Hp) as [_ [_ [E _]]]. specialize (E eq_refl).
    assert (Z : 100 * inject_Z (Z.of_nat 0) / inject_Z (Z.of_nat t) == 0)
      by (simpl; unfold Qdiv; ring).
    apply Qabs_Qle_condition. rewrite E, Z. split; discriminate. }
  unfold mul, div.
  pose proof (of_int_exact (Z.of_nat p) ltac:(lia)) as Ea.
  pose proof (of_int_exact (Z.of_nat t) ltac:(lia)) as Eb.
  assert (H100 : of_int 100 == 100) by exact round_100.
  set (a := of_int (Z.of_nat p)) in *. set (b := of_int (Z.of_nat t)) in *.
  set (P := inject_Z (Z.of_nat p)) in *. set (T := inject_Z (Z.of_nat t)) in *.
  assert (HP : 0 < P).
  { unfold P. change 0 with (inject_Z 0). rewrite <- Zlt_Qlt. lia. }
  assert (HPT : P <= T) by (unfold P, T; rewrite <- Zle_Qle; lia).
  set (x := a / b).
  assert (Hx0 : 0 < x) by (apply Qlt_shift_div_l; lra).
  assert (Hx1 : x <= 1) by (apply Qle_shift_div_r; lra).
  pose proof (round_near x Hx0) as [C1 C2].
  assert (Ex : (exponent x <= 0)%Z).
  { apply exponent_le; [assumption|]. change (pow2 (0 + 1)) with 2. lra. }
  pose proof (pow2_le (exponent x - 53) (-53) ltac:(lia)) as Px.
  change (pow2 (-53)) with (1 # 2 ^ 53) in Px.
  set (c := round x) in *.
  assert (Hc0 : 0 < c).
  { unfold c. rewrite (round_of_pos x Hx0). now apply round_pos_positive. }
  assert (Hc1 : c <= 1).
  { apply Qle_trans with (round 1); [apply round_mono; lra|].
    rewrite round_1. apply Qle_refl. }
  set (y := c * of_int 100).
  assert (Hy : y == c * 100) by (unfold y; rewrite H100; reflexivity).
  assert (Hy0 : 0 < y) by lra.
  pose proof (round_near y Hy0) as [Y1 Y2].
  assert (Ey : (exponent y <= 6)%Z).
  { apply exponent_le; [assumption|]. change (pow2 (6 + 1)) with 128. lra. }
  pose proof (pow2_le (exponent y - 53) (-47) ltac:(lia)) as Py.
  change (pow2 (-47)) with (1 # 2 ^ 47) in Py.
  assert (E : 100 * P / T == 100 * x).
  { unfold x. rewrite Ea, Eb. field. lra. }
  rewrite E. apply Qabs_Qle_condition.
  assert (K1 : (1 # 2 ^ 53) == 1 # 9007199254740992) by reflexivity.
  assert (K2 : (1 # 2 ^ 47) == 1 # 140737488355328) by reflexivity.
  assert (K3 : (1 # 2 ^ 45) == 1 # 35184372088832) by reflexivity.
  rewrite K3. rewrite K1 in Px. rewrite K2 in Py.
  split; lra.
Qed.

End Doubles.

(** ** The sentiment gauge *)

Lemma count_eq_le_length (x : cell) (s : Series) :
  (count_eq x s <= length s)%nat.
Proof. unfold count_eq. apply filter_length_le. Qed.

(** C2 (amended): on a filtered table with a [Sentiment] column and at least
    one row, the gauge shows the double that [(positive_count / total) * 100]
    yields, the quotient of the two counts rounded to a double, multiplied by
    100 and rounded again: a value between 0 and 100, which is 0 when no row
    is positive and 100 when all are and which, for a table of fewer than
    2^53 rows, differs from 100 times the number of positive rows divided by
    the number of rows by at most 2^-45; when the table has no row or no
    [Sentiment] column no rate is computed and the gauge is replaced by a
    message, so that nothing is divided by zero. *)
Theorem positive_rate_guarded (df_filt : DataFrame) :
  well_formed df_filt ->
  match getitem "Sentiment" df_filt with
  | Some col =>
      if (0 <? total_tweets df_filt)%nat then
        exists q,
          positive_rate df_filt = Some q /\
          q = Float64.mul
                (Float64.div
                   (Float64.of_int (Z.of_nat (count_eq "Positive" col)))
                   (Float64.of_int (Z.of_nat (total_tweets df_filt))))
                (Float64.of_int 100) /\
          (0 <= q)%Q /\ (q <= 100)%Q /\
          (count_eq "Positive" col = 0%nat -> (q == 0)%Q) /\
          (count_eq "Positive" col = total_tweets df_filt -> (q == 100)%Q) /\
          (Z.of_nat (total_tweets df_filt) < 2 ^ 53 ->
           (Qabs (q - 100 * inject_Z (Z.of_nat (count_eq "Positive" col))
                      / inject_Z (Z.of_nat (total_tweets df_filt)))
            <= 1 # 2 ^ 45)%Q)
      else positive_rate df_filt = None
  | None => positive_rate df_filt = None
  end.
Proof.
  intros Hwf. unfold positive_rate, total_tweets.
  destruct (getitem "Sentiment" df_filt) as [col|] eqn:E; [|reflexivity].
  destruct (0 <? len df_filt)%nat eqn:Hlen; [|reflexivity].
  apply Nat.ltb_lt in Hlen.
  assert (Hp : (count_eq "Positive" col <= len df_filt)%nat).
  { rewrite <- (well_formed_getitem "Sentiment" col df_filt Hwf E).
    apply count_eq_le_length. }
  eexists. split; [reflexivity|]. split; [reflexivity|].
  destruct (rate_range _ _ Hlen Hp) as [H0 [H100 [Hnone Hall]]].
  repeat (split; [assumption|]).
  intros H53. now apply rate_near.
Qed.

(** ** Distinct values and their counts *)

Lemma StronglySorted_weaken {A : Type} (R R' : A -> A -> Prop) (l : list A) :
  (forall a b, In a l -> In b l -> R a b -> R' a b) ->
  StronglySorted R l -> StronglySorted R' l.
Proof.
  intros Himp H. induction H as [|a l Hs IH Hall]; constructor.
  - apply IH. intros x y Hx Hy. apply Himp; now right.
  - rewrite Forall_forall in *. intros y Hy.
    apply Himp; [now left | now right | now apply Hall].
Qed.

Lemma StronglySorted_filter {A : Type} (R : A -> A -> Prop) (p : A -> bool)
    (l : list A) :
  StronglySorted R l -> StronglySorted R (filter p l).
Proof.
  induction 1 as [|a l Hs IH Hall]; simpl; [constructor|].
  destruct (p a); [|assumption]. constructor; [assumption|].
  rewrite Forall_forall in *. intros y Hy. apply filter_In in Hy.
  now apply Hall.
Qed.

Lemma StronglySorted_map {A B : Type} (R : B -> B -> Prop) (g : A -> B)
    (l : list A) :
  StronglySorted (fun a b => R (g a) (g b)) l -> StronglySorted R (map g l).
Proof.
  induction 1 as [|a l Hs IH Hall]; simpl; constructor; [assumption|].
  now apply Forall_map.
Qed.


Lemma dropna_notna (s : Series) : Forall (fun c => notna c = true) (dropna s).
Proof. apply Forall_forall. intros c Hc. now apply filter_In in Hc. Qed.

Lemma In_dropna (x : cell) (s : Series) :
  In x (dropna s) <-> In x s /\ notna x = true.
Proof. apply filter_In. Qed.

Lemma In_unique (x : cell) (s : Series) : In x (unique s) <-> In x s.
Proof.
  induction s as [|c r IH]; simpl; [tauto|].
  rewrite filter_In, IH. split.
  - intros [H | [H _]]; auto.
  - intros [H | H]; [now left|].
    destruct (cell_eqb x c) eqn:E.
    + left. symmetry. now apply cell_eqb_eq.
    + right. now split.
Qed.

Lemma NoDup_unique (s : Series) :
  Forall (fun c => notna c = true) s -> NoDup (unique s).
Proof.
  induction 1 as [|c r Hc Hr IH]; simpl; constructor.
  - rewrite filter_In. intros [_ H]. now rewrite (cell_eqb_refl c Hc) in H.
  - now apply NoDup_filter.
Qed.

Lemma first_pos_cons_other (c x : cell) (r : Series) :
  cell_eqb c x = false -> first_pos x (c :: r) = S (first_pos x r).
Proof. intros H. simpl. now rewrite H. Qed.

Lemma unique_met_in_order (col : Series) :
  StronglySorted (met_before col) (unique (dropna col)).
Proof.
  induction col as [|c r IH]; simpl; [constructor|].
  unfold dropna in *. simpl. destruct (notna c) eqn:Hc; simpl.
  - constructor.
    + apply StronglySorted_filter with (p := fun d => negb (cell_eqb d c)) in IH.
      revert IH. apply StronglySorted_weaken.
      intros a b Ha Hb. apply filter_In in Ha, Hb.
      destruct Ha as [_ Ha], Hb as [_ Hb].
      apply negb_true_iff in Ha, Hb. rewrite cell_eqb_sym in Ha, Hb.
      unfold met_before. rewrite !first_pos_cons_other by assumption. lia.
    + apply Forall_forall. intros d Hd. apply filter_In in Hd.
      destruct Hd as [_ Hd]. apply negb_true_iff in Hd.
      rewrite cell_eqb_sym in Hd. unfold met_before.
      rewrite (first_pos_cons_other c d r Hd).
      simpl. rewrite (cell_eqb_refl c Hc). lia.
  - revert IH. apply StronglySorted_weaken. intros a b _ _.
    assert (E : forall x, cell_eqb c x = false) by (now destruct c).
    unfold met_before. rewrite !first_pos_cons_other by apply E. lia.
Qed.

Lemma counts_keys (s : Series) : map fst (counts s) = unique (dropna s).
Proof.
  unfold counts. rewrite map_map. simpl. apply map_id.
Qed.

Lemma In_counts (kc : cell * nat) (s : Series) :
  In kc (counts s) <->
  In (fst kc) s /\ notna (fst kc) = true /\ snd kc = count_eq (fst kc) s.
Proof.
  unfold counts. rewrite in_map_iff. split.
  - intros [k [<- Hk]]. simpl. apply In_unique, In_dropna in Hk. tauto.
  - intros [Hin [Hna Hc]]. exists (fst kc). split.
    + destruct kc; simpl in *. now subst.
    + apply In_unique, In_dropna. now split.
Qed.

Lemma counts_met_in_order (s : Series) :
  StronglySorted (fun a b => met_before s (fst a) (fst b)) (counts s).
Proof.
  unfold counts.
  apply StronglySorted_map
    with (R := fun a b : cell * nat => met_before s (fst a) (fst b))
         (g := fun k => (k, count_eq k s)).
  simpl. apply unique_met_in_order.
Qed.

(** ** Sorting by descending count *)

Lemma In_insert_desc (x y : cell * nat) (l : list (cell * nat)) :
  In y (insert_desc x l) <-> y = x \/ In y l.
Proof.
  induction l as [|z r IH]; simpl.
  - intuition.
  - destruct (snd z <=? snd x)%nat; simpl; rewrite ?IH; intuition.
Qed.

Lemma In_sort_desc (y : cell * nat) (l : list (cell * nat)) :
  In y (sort_desc l) <-> In y l.
Proof.
  induction l as [|x r IH]; simpl; [tauto|].
  rewrite In_insert_desc, IH. intuition.
Qed.

Lemma insert_desc_perm (x : cell * nat) (l : list (cell * nat)) :
  Permutation (x :: l) (insert_desc x l).
Proof.
  induction l as [|z r IH]; simpl; [reflexivity|].
  destruct (snd z <=? snd x)%nat; [reflexivity|].
  rewrite perm_swap. now constructor.
Qed.

Lemma sort_desc_perm (l : list (cell * nat)) : Permutation l (sort_desc l).
Proof.
  induction l as [|x r IH]; simpl; [constructor|].
  rewrite <- insert_desc_perm. now constructor.
Qed.

Lemma insert_desc_ranked (col : Series) (x : cell * nat)
    (l : list (cell * nat)) :
  StronglySorted (ranked col) l ->
  Forall (fun y => met_before col (fst x) (fst y)) l ->
  StronglySorted (ranked col) (insert_desc x l).
Proof.
  intros Hs. induction Hs as [|z r Hr IH Hall]; intros Hx; simpl.
  - repeat constructor.
  - inversion Hx as [|? ? Hxz Hxr]; subst.
    destruct (snd z <=? snd x)%nat eqn:E.
    + apply Nat.leb_le in E. constructor; [now constructor|].
      constructor.
      * unfold ranked. destruct (Nat.eq_dec (snd x) (snd z)); [right | left];
          [now split | lia].
      * rewrite Forall_forall in *. intros y Hy.
        specialize (Hall y Hy). specialize (Hxr y Hy).
        unfold ranked in *.
        destruct (Nat.eq_dec (snd x) (snd y)); [right; now split | left].
        destruct Hall as [H | [H _]]; lia.
    + apply Nat.leb_gt in E. constructor; [now apply IH|].
      apply Forall_forall. intros y Hy. apply In_insert_desc in Hy.
      destruct Hy as [-> | Hy].
      * left. exact E.
      * rewrite Forall_forall in Hall. now apply Hall.
Qed.

Lemma sort_desc_ranked (col : Series) (l : list (cell * nat)) :
  StronglySorted (fun a b => met_before col (fst a) (fst b)) l ->
  StronglySorted (ranked col) (sort_desc l).
Proof.
  induction 1 as [|x r Hr IH Hall]; simpl; [constructor|].
  apply insert_desc_ranked; [assumption|].
  rewrite Forall_forall in *. intros y Hy. apply Hall.
  now apply In_sort_desc.
Qed.

Lemma sort_desc_fixed (col : Series) (l : list (cell * nat)) :
  StronglySorted (ranked col) l -> sort_desc l = l.
Proof.
  induction 1 as [|x r Hr IH Hall]; simpl; [reflexivity|].
  rewrite IH. destruct r as [|z r']; [reflexivity|]. simpl.
  inversion Hall as [|? ? Hxz _]; subst.
  assert (E : (snd z <=? snd x)%nat = true).
  { apply Nat.leb_le. destruct Hxz as [H | [H _]]; lia. }
  now rewrite E.
Qed.

Lemma insert_desc_descending (x : cell * nat) (l : list (cell * nat)) :
  descending l -> descending (insert_desc x l).
Proof.
  unfold descending. intros Hs. induction Hs as [|z r Hr IH Hall]; simpl.
  - repeat constructor.
  - destruct (snd z <=? snd x)%nat eqn:E.
    + apply Nat.leb_le in E. constructor; [now constructor|].
      constructor; [exact E|].
      rewrite Forall_forall in *. intros y Hy. specialize (Hall y Hy). lia.
    + apply Nat.leb_gt in E. constructor; [exact IH|].
      apply Forall_forall. intros y Hy. apply In_insert_desc in Hy.
      destruct Hy as [-> | Hy]; [lia|].
      rewrite Forall_forall in Hall. now apply Hall.
Qed.

Lemma sort_desc_sorts (l : list (cell * nat)) : descending (sort_desc l).
Proof.
  induction l as [|x r IH]; simpl; [constructor|].
  now apply insert_desc_descending.
Qed.

(** The stable sort leaves a table in descending order as it is. *)
Lemma sort_desc_descending (l : list (cell * nat)) :
  descending l -> sort_desc l = l.
Proof.
  induction 1 as [|x r Hr IH Hall]; simpl; [reflexivity|].
  rewrite IH. destruct r as [|z r']; [reflexivity|]. simpl.
  inversion Hall as [|? ? Hxz _]; subst.
  apply Nat.leb_le in Hxz. now rewrite Hxz.
Qed.

Lemma value_counts_perm (s : Series) : Permutation (value_counts s) (counts s).
Proof. apply sort_values_sorts. Qed.

Lemma value_counts_descending (s : Series) : descending (value_counts s).
Proof. apply sort_values_sorts. Qed.

(** On a frequency table [nlargest] takes the first entries. *)
Lemma nlargest_value_counts (n : nat) (col : Series) :
  nlargest n (value_counts col) = firstn n (value_counts col).
Proof.
  unfold nlargest.
  now rewrite (sort_desc_descending _ (value_counts_descending col)).
Qed.

Lemma In_value_counts (kc : cell * nat) (s : Series) :
  In kc (value_counts s) <-> In kc (counts s).
Proof.
  split; apply Permutation_in;
    [apply value_counts_perm | apply Permutation_sym, value_counts_perm].
Qed.


Lemma value_counts_keys_NoDup (s : Series) :
  NoDup (map fst (value_counts s)).
Proof.
  apply Permutation_NoDup with (l := map fst (counts s)).
  - apply Permutation_map, Permutation_sym, value_counts_perm.
  - rewrite counts_keys. apply NoDup_unique, dropna_notna.
Qed.

Lemma hits_NoDup (c : cell) (K : list cell) :
  NoDup K ->
  length (filter (cell_eqb c) K) = if existsb (cell_eqb c) K then 1%nat else 0%nat.
Proof.
  induction 1 as [|k K Hk Hnd IH]; simpl; [reflexivity|].
  destruct (cell_eqb c k) eqn:E; simpl; [|exact IH].
  apply cell_eqb_eq in E. subst k. rewrite IH.
  destruct (existsb (cell_eqb c) K) eqn:Ex; [|reflexivity].
  apply existsb_exists in Ex. destruct Ex as [k [Hin Ek]].
  apply cell_eqb_eq in Ek. subst k. contradiction.
Qed.






Lemma firstn_map_fst (n : nat) (l : list (cell * nat)) :
  map fst (firstn n l) = firstn n (map fst l).
Proof. symmetry. apply firstn_map. Qed.

Lemma NoDup_firstn {A : Type} (n : nat) (l : list A) :
  NoDup l -> NoDup (firstn n l).
Proof.
  intros H. rewrite <- (firstn_skipn n l) in H.
  now apply NoDup_app_remove_r in H.
Qed.

(** ** The emoji ranking *)


(** ** The order of values *)

Lemma ascii_compare_refl (a : ascii) : Ascii.compare a a = Eq.
Proof. unfold Ascii.compare. apply N.compare_refl. Qed.

Lemma ascii_compare_lt_trans (a b c : ascii) :
  Ascii.compare a b = Lt -> Ascii.compare b c = Lt -> Ascii.compare a c = Lt.
Proof.
  unfold Ascii.compare. rewrite !N.compare_lt_iff. apply N.lt_trans.
Qed.

Lemma string_compare_refl (s : string) : String.compare s s = Eq.
Proof.
  induction s as [|a s IH]; simpl; [reflexivity|].
  now rewrite ascii_compare_refl.
Qed.

Lemma string_compare_lt_trans (s1 s2 s3 : string) :
  String.compare s1 s2 = Lt -> String.compare s2 s3 = Lt ->
  String.compare s1 s3 = Lt.
Proof.
  revert s2 s3. induction s1 as [|a s1 IH]; intros [|b s2] [|c s3]; simpl;
    try discriminate; try reflexivity.
  destruct (Ascii.compare a b) eqn:Eab; try discriminate;
    destruct (Ascii.compare b c) eqn:Ebc; try discriminate; intros H1 H2.
  - apply Ascii.compare_eq_iff in Eab, Ebc. subst.
    rewrite ascii_compare_refl. now apply IH with (s2 := s2).
  - apply Ascii.compare_eq_iff in Eab. subst. now rewrite Ebc.
  - apply Ascii.compare_eq_iff in Ebc. subst. now rewrite Eab.
  - now rewrite (ascii_compare_lt_trans a b c Eab Ebc).
Qed.

Lemma string_leb_iff (s t : string) :
  String.leb s t = true <-> String.compare s t = Lt \/ s = t.
Proof.
  unfold String.leb. split.
  - destruct (String.compare s t) eqn:E; try discriminate; intros _.
    + right. now apply String.compare_eq_iff.
    + now left.
  - intros [-> | ->]; [reflexivity|]. now rewrite string_compare_refl.
Qed.

Lemma string_leb_trans (s1 s2 s3 : string) :
  String.leb s1 s2 = true -> String.leb s2 s3 = true ->
  String.leb s1 s3 = true.
Proof.
  rewrite !string_leb_iff. intros [H1 | ->] [H2 | ->]; auto.
  left. now apply string_compare_lt_trans with (s2 := s2).
Qed.

Lemma cell_leb_string (s t : string) :
  cell_leb (VStr s) (VStr t) = String.leb s t.
Proof. unfold cell_leb, String.leb. simpl. now destruct (String.compare s t). Qed.

Lemma cell_leb_int (m n : Z) : cell_leb (VInt m) (VInt n) = Z.leb m n.
Proof. unfold cell_leb, Z.leb. simpl. now destruct (m ?= n). Qed.

Lemma cell_leb_time (m n : Z) : cell_leb (VTime m) (VTime n) = Z.leb m n.
Proof. unfold cell_leb, Z.leb. simpl. now destruct (m ?= n). Qed.

Lemma cell_leb_refl (a : cell) : notna a = true -> cell_leb a a = true.
Proof.
  destruct a; intros H; try discriminate.
  - rewrite cell_leb_string. apply string_leb_iff. now right.
  - rewrite cell_leb_int. apply Z.leb_refl.
  - rewrite cell_leb_time. apply Z.leb_refl.
Qed.

Lemma cell_leb_trans (a b c : cell) :
  cell_leb a b = true -> cell_leb b c = true -> cell_leb a c = true.
Proof.
  destruct a, b; try discriminate; destruct c; try discriminate;
    rewrite ?cell_leb_string, ?cell_leb_int, ?cell_leb_time.
  - apply string_leb_trans.
  - rewrite !Z.leb_le. lia.
  - rewrite !Z.leb_le. lia.
Qed.

Lemma cell_leb_total (a b : cell) :
  same_kind a b = true -> cell_leb a b = true \/ cell_leb b a = true.
Proof.
  destruct a, b; try discriminate; intros _;
    rewrite ?cell_leb_string, ?cell_leb_int, ?cell_leb_time.
  - apply String.leb_total.
  - rewrite !Z.leb_le. lia.
  - rewrite !Z.leb_le. lia.
Qed.

Lemma same_kind_notna (a b : cell) : same_kind a b = true -> notna a = true.
Proof. now destruct a, b. Qed.

(** ** The ascending sort and the mode *)

Lemma In_insert_asc (x y : cell) (l : Series) :
  In y (insert_asc x l) <-> y = x \/ In y l.
Proof.
  induction l as [|z r IH]; simpl.
  - intuition.
  - destruct (cell_leb x z); simpl; rewrite ?IH; intuition.
Qed.

Lemma In_sort_asc (y : cell) (l : Series) : In y (sort_asc l) <-> In y l.
Proof.
  induction l as [|x r IH]; simpl; [tauto|].
  rewrite In_insert_asc, IH. intuition.
Qed.

Lemma sort_asc_head (l : Series) (h : cell) (t : Series) :
  (forall a b, In a l -> In b l -> same_kind a b = true) ->
  sort_asc l = h :: t -> forall w, In w l -> cell_leb h w = true.
Proof.
  revert h t. induction l as [|x r IH]; intros h t Hk; simpl; [discriminate|].
  assert (Hkr : forall a b, In a r -> In b r -> same_kind a b = true)
    by (intros a b Ha Hb; apply Hk; now right).
  assert (Hx : cell_leb x x = true).
  { apply cell_leb_refl, same_kind_notna with (b := x). apply Hk; now left. }
  destruct (sort_asc r) as [|h' t'] eqn:Es; simpl.
  - intros E w Hw. inversion E; subst.
    destruct r as [|y r']; [|simpl in Es; destruct (sort_asc r'); simpl in Es;
                             [discriminate | destruct (cell_leb y c); discriminate]].
    destruct Hw as [<- | []]. exact Hx.
  - assert (Hh' : forall w, In w r -> cell_leb h' w = true)
      by (apply (IH h' t' Hkr eq_refl)).
    assert (Hin : In h' r) by (apply In_sort_asc; rewrite Es; now left).
    destruct (cell_leb x h') eqn:E; intros E' w Hw; inversion E'; subst.
    + destruct Hw as [<- | Hw]; [exact Hx|].
      apply cell_leb_trans with (b := h'); auto.
    + destruct Hw as [<- | Hw]; [|auto].
      destruct (cell_leb_total x h) as [H | H]; [|congruence | exact H].
      apply Hk; [now left | now right].
Qed.

Lemma list_max_In (l : list nat) : l <> [] -> In (list_max l) l.
Proof.
  induction l as [|x r IH]; [congruence|]. intros _. simpl.
  destruct r as [|y r'].
  - left. simpl. lia.
  - destruct (Nat.max_spec x (list_max (y :: r'))) as [[_ E] | [_ E]].
    + right. simpl in *. rewrite E. apply IH. discriminate.
    + left. simpl in *. now rewrite E.
Qed.

Lemma count_eq_pos (w : cell) (s : Series) :
  (0 < count_eq w s)%nat -> In w s /\ notna w = true.
Proof.
  unfold count_eq. intros H.
  destruct (filter (fun c => cell_eqb c w) s) as [|c r] eqn:E;
    [simpl in H; lia|].
  assert (Hin : In c (filter (fun c => cell_eqb c w) s))
    by (rewrite E; now left).
  apply filter_In in Hin. destruct Hin as [Hin Hc].
  pose proof (cell_eqb_notna_l c w Hc). apply cell_eqb_eq in Hc. now subst.
Qed.

Lemma count_le_max (w : cell) (s : Series) :
  (count_eq w s <= list_max (map snd (counts s)))%nat.
Proof.
  destruct (Nat.eq_dec (count_eq w s) 0) as [E | E]; [lia|].
  destruct (count_eq_pos w s) as [Hin Hna]; [lia|].
  assert (H : In (w, count_eq w s) (counts s))
    by (apply In_counts; simpl; auto).
  pose proof (proj1 (list_max_le (map snd (counts s)) _) (Nat.le_refl _)) as Hall.
  rewrite Forall_forall in Hall.
  apply (Hall (count_eq w s)). apply in_map_iff. now exists (w, count_eq w s).
Qed.

(** The candidates of the mode are the most frequent values. *)
Lemma modes_most_frequent (s : Series) (v : cell) :
  let m := list_max (map snd (counts s)) in
  In v (map fst (filter (fun kc => (snd kc =? m)%nat) (counts s))) <->
  most_frequent s v.
Proof.
  intros m. unfold most_frequent. rewrite in_map_iff. split.
  - intros [[k n] [<- Hin]]. simpl. apply filter_In in Hin.
    destruct Hin as [Hin Hn]. simpl in Hn. apply Nat.eqb_eq in Hn.
    apply In_counts in Hin. simpl in Hin. destruct Hin as [Hk [Hna Hc]].
    repeat split; try assumption.
    intros w. rewrite <- Hc, Hn. apply count_le_max.
  - intros [Hin [Hna Hmax]]. exists (v, count_eq v s). split; [reflexivity|].
    apply filter_In. split; [apply In_counts; simpl; auto|].
    simpl. apply Nat.eqb_eq. apply Nat.le_antisymm; [apply count_le_max|].
    assert (Hne : map snd (counts s) <> []).
    { assert (H : In (v, count_eq v s) (counts s))
        by (apply In_counts; simpl; auto).
      destruct (counts s); [contradiction | discriminate]. }
    apply list_max_In in Hne. fold m in Hne. apply in_map_iff in Hne.
    destruct Hne as [[k n] [E Hk]]. simpl in E. subst n.
    apply In_counts in Hk. simpl in Hk. destruct Hk as [_ [_ ->]].
    apply Hmax.
Qed.

Lemma In_mode (s : Series) (v : cell) : In v (mode s) <-> most_frequent s v.
Proof.
  unfold mode. rewrite <- modes_most_frequent.
  set (modes := map fst (filter _ (counts s))).
  unfold np_sort. destruct modes as [|x r] eqn:E; [tauto|].
  destruct (forallb (same_kind x) r); [apply In_sort_asc|].
  split; apply Permutation_in;
    [apply sort_mixed_keeps | apply Permutation_sym, sort_mixed_keeps].
Qed.

Lemma mode_least (s : Series) (v : cell) (rest : Series) :
  tied_one_kind s -> mode s = v :: rest ->
  forall w, most_frequent s w -> cell_leb v w = true.
Proof.
  intros Hkind Hmode w Hw. unfold mode in Hmode.
  apply modes_most_frequent in Hw.
  set (modes := map fst (filter _ (counts s))) in *.
  assert (Hk : forall a b, In a modes -> In b modes -> same_kind a b = true).
  { intros a b Ha Hb. apply modes_most_frequent in Ha, Hb.
    now apply Hkind. }
  unfold np_sort in Hmode. destruct modes as [|x r] eqn:E; [contradiction|].
  assert (Hall : forallb (same_kind x) r = true).
  { apply forallb_forall. intros y Hy. apply Hk; [now left | now right]. }
  rewrite Hall in Hmode.
  now apply (sort_asc_head (x :: r) v rest Hk Hmode).
Qed.

Lemma mode_nil (s : Series) : dropna s = [] -> mode s = [].
Proof. intros E. unfold mode, counts. now rewrite E. Qed.

Lemma mode_not_nil (s : Series) : dropna s <> [] -> mode s <> [].
Proof.
  intros Hne Hmode.
  assert (Hcs : map snd (counts s) <> []).
  { unfold counts. destruct (dropna s); [congruence | discriminate]. }
  apply list_max_In, in_map_iff in Hcs. destruct Hcs as [[k n] [E Hk]].
  simpl in E.
  assert (Hin : In k (mode s)).
  { apply In_mode, modes_most_frequent. apply in_map_iff.
    exists (k, n). split; [reflexivity|]. apply filter_In.
    split; [assumption|]. simpl. now apply Nat.eqb_eq. }
  now rewrite Hmode in Hin.
Qed.

Lemma top_value_spec (c : cell) (df : DataFrame) : top_spec c df (top_value c df).
Proof.
  unfold top_spec, top_value.
  destruct (getitem c df) as [col|]; [|reflexivity].
  destruct (dropna col) as [|x r] eqn:E.
  - now rewrite (mode_nil col E).
  - assert (Hne : mode col <> []) by (apply mode_not_nil; congruence).
    destruct (mode col) as [|v rest] eqn:Em; [congruence|]. split.
    + apply In_mode. rewrite Em. now left.
    + intros Hkind. now apply mode_least with (rest := rest).
Qed.

(** C1 (amended): "Top Emotion" is a most frequent non-missing value of the
    [Emotion] column and, when several values share the maximal count and
    are of one kind (all text, all numbers or all date-times), the least of
    them in the order of the values (code-point order for text); likewise
    "Top Emoji" over the [Emoji] column; "N/A" is shown when the column is
    absent or holds no non-missing value. *)
Theorem top_metrics_spec (df_filt : DataFrame) :
  top_spec "Emotion" df_filt (top_emotion df_filt) /\
  top_spec "Emoji" df_filt (top_emoji df_filt).
Proof. split; apply top_value_spec. Qed.

(** ** The emoji indicator table *)

Lemma replace_keyed (e : cell) (v : Series) (f : cell -> Series)
    (tops : list cell) :
  NoDup tops ->
  replace e v (map (fun k => (k, f k)) tops) =
  map (fun k => (k, if cell_eqb e k then v else f k)) tops.
Proof.
  induction 1 as [|k r Hk Hnd IH]; simpl; [reflexivity|].
  destruct (cell_eqb e k) eqn:E; [|now rewrite IH].
  f_equal. apply map_ext_in. intros k' Hk'.
  destruct (cell_eqb e k') eqn:E'; [|reflexivity].
  apply cell_eqb_eq in E, E'. subst. contradiction.
Qed.

Lemma existsb_self (k : cell) (tops : list cell) :
  In k tops -> notna k = true -> existsb (fun e => cell_eqb e k) tops = true.
Proof.
  intros Hin Hna. apply existsb_exists. exists k.
  split; [assumption | now apply cell_eqb_refl].
Qed.

Lemma setitem_keyed (ix : list Z) (e : cell) (v : Series) (f : cell -> Series)
    (tops : list cell) :
  NoDup tops -> In e tops -> notna e = true ->
  setitem e v (mkDataFrame ix (map (fun k => (k, f k)) tops)) =
  mkDataFrame ix (map (fun k => (k, if cell_eqb e k then v else f k)) tops).
Proof.
  intros Hnd Hin Hna. unfold setitem, col_in, columns. simpl.
  rewrite map_map. simpl. rewrite map_id.
  assert (E : existsb (cell_eqb e) tops = true).
  { apply existsb_exists. exists e. split; [assumption | now apply cell_eqb_refl]. }
  rewrite E. now rewrite replace_keyed.
Qed.

Lemma fold_setitem_keyed (ix : list Z) (g : cell -> Series) (tops : list cell)
    (todo : list cell) (f : cell -> Series) :
  NoDup tops ->
  (forall e, In e todo -> In e tops /\ notna e = true) ->
  exists h,
    fold_left (fun m e => setitem e (g e) m) todo
              (mkDataFrame ix (map (fun k => (k, f k)) tops))
    = mkDataFrame ix (map (fun k => (k, h k)) tops) /\
    forall k, h k = if existsb (fun e => cell_eqb e k) todo then g k else f k.
Proof.
  intros Hnd. revert f. induction todo as [|e todo IH]; intros f Hin; simpl.
  - exists f. split; reflexivity.
  - destruct (Hin e (or_introl eq_refl)) as [He Hna].
    rewrite (setitem_keyed ix e (g e) f tops Hnd He Hna).
    destruct (IH (fun k => if cell_eqb e k then g e else f k)) as [h [Hh Hk]].
    { intros e' He'. apply Hin. now right. }
    exists h. split; [exact Hh|]. intros k. rewrite Hk.
    destruct (cell_eqb e k) eqn:E; simpl; [|reflexivity].
    apply cell_eqb_eq in E. subst k.
    now destruct (existsb (fun e0 => cell_eqb e0 e) todo).
Qed.

Lemma top_emojis_NoDup (col : Series) (top_n : nat) :
  NoDup (top_emojis col top_n).
Proof.
  unfold top_emojis. rewrite nlargest_value_counts, firstn_map_fst.
  apply NoDup_firstn, value_counts_keys_NoDup.
Qed.

Lemma top_emojis_In (col : Series) (top_n : nat) (e : cell) :
  In e (top_emojis col top_n) -> In e col /\ notna e = true.
Proof.
  unfold top_emojis. rewrite nlargest_value_counts. intros H.
  apply in_map_iff in H. destruct H as [[k n] [<- H]]. simpl.
  assert (Hin : In (k, n) (value_counts col)).
  { rewrite <- (firstn_skipn top_n (value_counts col)).
    apply in_or_app. now left. }
  apply In_value_counts, In_counts in Hin. simpl in Hin. tauto.
Qed.

(** [mat_df] in closed form: one indicator column per top emoji. *)
Lemma mat_df_closed (df_filt : DataFrame) (top_n : nat) (col : Series) :
  getitem "Emoji" df_filt = Some col ->
  mat_df df_filt top_n =
  Some (mkDataFrame (index df_filt)
                    (map (fun e => (e, indicator col e))
                         (top_emojis col top_n))).
Proof.
  intros Hcol. unfold mat_df. rewrite Hcol. cbv zeta. f_equal.
  destruct (fold_setitem_keyed (index df_filt) (indicator col)
              (top_emojis col top_n) (top_emojis col top_n)
              (fun _ => repeat (VInt 0) (len df_filt))
              (top_emojis_NoDup col top_n))
    as [h [Hh Hk]].
  { intros e He. split; [assumption|]. now apply top_emojis_In in He. }
  eapply eq_trans; [exact Hh|].
  f_equal. apply map_ext_in. intros k Hin. rewrite Hk.
  destruct (top_emojis_In col top_n k Hin) as [_ Hna].
  now rewrite existsb_self.
Qed.

Lemma nth_indicator (col : Series) (e : cell) (i : nat) :
  (i < length col)%nat ->
  nth i (indicator col e) VNaN = VInt (Z.b2z (cell_eqb (nth i col VNaN) e)).
Proof.
  unfold indicator, series_eq. rewrite map_map. revert i.
  induction col as [|c r IH]; intros [|i] Hi; simpl in *; try lia;
    [reflexivity|].
  apply IH. lia.
Qed.

Lemma assoc_keyed (e : cell) (g : cell -> Series) (tops : list cell)
    (c : Series) :
  assoc e (map (fun k => (k, g k)) tops) = Some c -> In e tops /\ c = g e.
Proof.
  induction tops as [|k r IH]; simpl; [discriminate|].
  destruct (cell_eqb e k) eqn:E.
  - intros H. inversion H; subst. apply cell_eqb_eq in E. subst. auto.
  - intros H. destruct (IH H). auto.
Qed.

Lemma count_ones (x : cell) (tops : list cell) :
  count_eq (VInt 1) (map (fun e => VInt (Z.b2z (cell_eqb x e))) tops) =
  length (filter (cell_eqb x) tops).
Proof.
  unfold count_eq. induction tops as [|k r IH]; simpl; [reflexivity|].
  destruct (cell_eqb x k); simpl; now rewrite IH.
Qed.

(** C10: the indicator table has the rows of the filtered table and one
    column per top emoji, each emoji once; every entry is 0 or 1; in each
    row the number of 1s is one when the emoji of that row is among the top
    emoji and zero otherwise; and no two different columns hold a 1 on the
    same row. *)
Theorem mat_df_one_hot (df_filt : DataFrame) (top_n : nat) (col : Series) :
  getitem "Emoji" df_filt = Some col ->
  exists m,
    mat_df df_filt top_n = Some m /\
    index m = index df_filt /\
    columns m = top_emojis col top_n /\
    NoDup (columns m) /\
    forall i, (i < length col)%nat ->
      Forall (fun x => x = VInt 0 \/ x = VInt 1) (iloc i m) /\
      count_eq (VInt 1) (iloc i m) =
        (if existsb (cell_eqb (nth i col VNaN)) (top_emojis col top_n)
         then 1%nat else 0%nat) /\
      (forall e1 e2 c1 c2,
          getitem e1 m = Some c1 -> getitem e2 m = Some c2 -> e1 <> e2 ->
          ~ (nth i c1 VNaN = VInt 1 /\ nth i c2 VNaN = VInt 1)).
Proof.
  intros Hcol. rewrite (mat_df_closed df_filt top_n col Hcol).
  eexists. split; [reflexivity|]. split; [reflexivity|].
  assert (Hcols : columns (mkDataFrame (index df_filt)
                    (map (fun e => (e, indicator col e)) (top_emojis col top_n)))
                  = top_emojis col top_n).
  { unfold columns. simpl. rewrite map_map. simpl. apply map_id. }
  split; [exact Hcols|]. split; [rewrite Hcols; apply top_emojis_NoDup|].
  intros i Hi.
  assert (Hrow : iloc i (mkDataFrame (index df_filt)
                   (map (fun e => (e, indicator col e)) (top_emojis col top_n)))
                 = map (fun e => VInt (Z.b2z (cell_eqb (nth i col VNaN) e)))
                       (top_emojis col top_n)).
  { unfold iloc. simpl. rewrite map_map. simpl. apply map_ext.
    intros e. now apply nth_indicator. }
  rewrite Hrow. split; [|split].
  - apply Forall_map, Forall_forall. intros e _.
    destruct (cell_eqb (nth i col VNaN) e); simpl; auto.
  - rewrite count_ones. apply hits_NoDup, top_emojis_NoDup.
  - intros e1 e2 c1 c2 H1 H2 Hne [N1 N2]. unfold getitem in H1, H2. simpl in *.
    apply assoc_keyed in H1, H2. destruct H1 as [_ ->], H2 as [_ ->].
    rewrite nth_indicator in N1, N2 by assumption.
    destruct (cell_eqb (nth i col VNaN) e1) eqn:E1; [|discriminate].
    destruct (cell_eqb (nth i col VNaN) e2) eqn:E2; [|discriminate].
    apply cell_eqb_eq in E1, E2. congruence.
Qed.

(** ** From the upload to the filtered table *)

Section PipelineProperties.

Variable UploadedFile : Type.
Variable read_excel : UploadedFile -> result DataFrame.
Variable now : Z.

Local Abbreviation run := (process_data UploadedFile read_excel now).

(** A successful run keeps the rows and every column but [Date] as it
    was. *)
Lemma process_data_passes (f : UploadedFile) (rs : RandomState)
    (raw : DataFrame) :
  read_excel f = Ok raw ->
  (forall d, getitem "Date" raw = Some d -> exists d', to_datetime d = Ok d') ->
  exists df,
    run f rs = (df, []) /\ len df = len raw /\
    forall c w, c <> VStr "Date" -> getitem c raw = Some w ->
                getitem c df = Some w.
Proof.
  intros Hread Hparse.
  destruct (process_body_success UploadedFile read_excel now
              f rs raw Hread Hparse)
    as [df1 [rs1 [df2 [df3 [rs3 [H1 [F1 [F2 [Hdate [W Hb]]]]]]]]]].
  exists (fill_emoji (fill_tweet_text df3)).
  split; [unfold process_data; now rewrite Hb|].
  assert (Hv : exists v, df3 = setitem "Date" v df2).
  { destruct (getitem "Date" raw).
    - destruct Hdate as [_ [d' [_ ->]]]. now exists d'.
    - destruct Hdate as [_ [dates [-> _]]]. now exists dates. }
  destruct Hv as [v E3].
  destruct (process_body_frame raw df1 df2 df3 v F1 F2 E3)
    as [Hix [Hcols _]].
  split; [unfold len; now rewrite Hix | exact Hcols].
Qed.

(** C8: the filtered table is the table masked by the conjunction of the
    festival selection and the sentiment selection, where a selection of
    "All" or an absent column lets every row through; hence with a festival
    other than "All" and the sentiment "All" the total is the number of rows
    whose [Festival] equals the selection, in the loaded table and, through
    [process_data], in the raw table. *)
Theorem filters_keep_matching_rows :
  (forall df sel_festival sel_sentiment,
      well_formed df ->
      apply_filters df sel_festival sel_sentiment =
      mask_rows (both (selects "Festival" sel_festival df)
                      (selects "Sentiment" sel_sentiment df)) df) /\
  (forall df festival col,
      well_formed df -> getitem "Festival" df = Some col ->
      cell_eqb festival "All" = false ->
      total_tweets (apply_filters df festival "All") = count_eq festival col) /\
  (forall f rs raw festival col,
      read_excel f = Ok raw -> well_formed raw ->
      (forall d, getitem "Date" raw = Some d ->
                 exists d', to_datetime d = Ok d') ->
      getitem "Festival" raw = Some col ->
      cell_eqb festival "All" = false ->
      exists df,
        run f rs = (df, []) /\
        total_tweets (apply_filters df festival "All") = count_eq festival col).
Proof.
  split; [|split].
  - intros df sf ss Hwf. now apply apply_filters_mask.
  - intros df festival col Hwf Hcol Hne. now apply festival_count.
  - intros f rs raw festival col Hread Hwf Hparse Hcol Hne.
    destruct (process_data_passes f rs raw Hread Hparse)
      as [df [Hr [Hlen Hpass]]].
    exists df. split; [exact Hr|].
    apply festival_count_rows; [| | assumption].
    + rewrite Hlen.
      now apply well_formed_getitem with (c := VStr "Festival") (df := raw).
    + apply Hpass; [discriminate | assumption].
Qed.

End PipelineProperties.

(** ** Further properties of the script *)

(** ** The columns [process_data] fills in *)

Lemma choice_in (a : list cell) (n : nat) (rs : RandomState) :
  a <> [] ->
  exists l, choice a n rs = Ok (l, skip n rs) /\ length l = n /\
            Forall (fun c => In c a) l.
Proof.
  intros Ha. revert rs. induction n as [|n IH]; intros rs.
  - exists []. repeat split. constructor.
  - destruct (IH (advance rs)) as [l [Hl [Hn Hall]]].
    eexists. simpl. unfold bind, randint. rewrite Hl. simpl.
    split; [reflexivity|]. split; [simpl; now rewrite Hn|].
    constructor; [|assumption].
    apply nth_In.
    assert (Hlen : 0 < Z.of_nat (length a)).
    { destruct a; [congruence | simpl; lia]. }
    pose proof (randint_of_range 0 (Z.of_nat (length a)) (rs O) Hlen). lia.
Qed.

Lemma fill_author_id_absent (df : DataFrame) (rs : RandomState) :
  col_in "Author_ID" df = false ->
  exists names,
    fill_author_id df rs = Ok (setitem "Author_ID" names df, skip (len df) rs) /\
    length names = len df /\ Forall (fun c => In c authors) names.
Proof.
  intros E. unfold fill_author_id. rewrite E. simpl. unfold bind.
  destruct (choice_in authors (len df) rs) as [l [Hl [Hn Hall]]];
    [discriminate|].
  rewrite Hl. simpl. now exists l.
Qed.

Section NormaliserFills.

Variable UploadedFile : Type.
Variable read_excel : UploadedFile -> result DataFrame.
Variable now : Z.

Local Abbreviation body := (process_body UploadedFile read_excel now).
Local Abbreviation run := (process_data UploadedFile read_excel now).

(** The steps of a run that does not raise, one by one. *)
Lemma process_body_trace (f : UploadedFile) (rs : RandomState) (raw : DataFrame) :
  read_excel f = Ok raw ->
  (forall d, getitem "Date" raw = Some d -> exists d', to_datetime d = Ok d') ->
  exists df1 rs1 df2 rs2 v rs3,
    fill_tweet_id raw rs = Ok (df1, rs1) /\
    filled "Tweet_ID" raw df1 /\
    fill_author_id df1 rs1 = Ok (df2, rs2) /\
    filled "Author_ID" df1 df2 /\
    body f rs = Ok (fill_emoji (fill_tweet_text (setitem "Date" v df2)), rs3) /\
    run f rs = (fill_emoji (fill_tweet_text (setitem "Date" v df2)), []).
Proof.
  intros Hread Hparse.
  destruct (process_body_steps UploadedFile read_excel now
              f rs raw Hread)
    as [df1 [rs1 [df2 [rs2 [H1 [F1 [H2 [F2 [W Hb]]]]]]]]].
  assert (Hd2 : getitem "Date" df2 = getitem "Date" raw).
  { rewrite (filled_getitem_other _ _ _ _ F2) by reflexivity.
    now rewrite (filled_getitem_other _ _ _ _ F1) by reflexivity. }
  assert (Hv : exists v rs3,
             fill_date now df2 rs2
             = Ok (setitem "Date" v df2, rs3)).
  { destruct (getitem "Date" raw) as [d|] eqn:Ed.
    - destruct (Hparse d eq_refl) as [d' Hd'].
      exists d', rs2.
      now rewrite (fill_date_present now df2 rs2 d Hd2), Hd'.
    - destruct (fill_date_absent now df2 rs2 Hd2)
        as [dates [rs3 [Hf _]]].
      now exists dates, rs3. }
  destruct Hv as [v [rs3 Hf]].
  exists df1, rs1, df2, rs2, v, rs3.
  repeat (split; [assumption|]).
  assert (Hbody : body f rs
                  = Ok (fill_emoji (fill_tweet_text (setitem "Date" v df2)), rs3))
    by now rewrite Hb, Hf.
  split; [exact Hbody|]. unfold process_data. now rewrite Hbody.
Qed.

(** X1: when the raw table has no [Author_ID] column and the run succeeds,
    every row gets an author, and each author is one of the seven fixed
    labels. *)
Theorem authors_from_fixed_set (f : UploadedFile) (rs : RandomState)
    (raw : DataFrame) :
  read_excel f = Ok raw -> col_in "Author_ID" raw = false ->
  (forall d, getitem "Date" raw = Some d -> exists d', to_datetime d = Ok d') ->
  exists df names,
    run f rs = (df, []) /\
    getitem "Author_ID" df = Some names /\
    length names = len raw /\
    Forall (fun c => In c authors) names.
Proof.
  intros Hread Hno Hparse.
  destruct (process_body_trace f rs raw Hread Hparse)
    as [df1 [rs1 [df2 [rs2 [v [rs3 [H1 [F1 [H2 [F2 [_ Hrun]]]]]]]]]]].
  assert (Hno1 : col_in "Author_ID" df1 = false).
  { rewrite (filled_col_in _ "Author_ID" _ _ F1), Hno.
    simpl. now rewrite andb_false_r. }
  destruct (fill_author_id_absent df1 rs1 Hno1) as [names [Hf [Hn Hall]]].
  rewrite Hf in H2. injection H2 as E2 Ers. subst df2.
  eexists. exists names. split; [exact Hrun|].
  split; [|split; [|assumption]].
  - apply finish_getitem. rewrite getitem_setitem_other by reflexivity.
    now apply getitem_setitem_same.
  - rewrite Hn. apply (filled_len _ _ _ F1).
Qed.

(** X2: when the raw table has no [Emoji] column and the run succeeds, the
    emoji of every row is the placeholder. *)
Theorem emoji_placeholder (f : UploadedFile) (rs : RandomState)
    (raw : DataFrame) :
  read_excel f = Ok raw -> col_in "Emoji" raw = false ->
  (forall d, getitem "Date" raw = Some d -> exists d', to_datetime d = Ok d') ->
  exists df,
    run f rs = (df, []) /\
    getitem "Emoji" df = Some (repeat (VStr "🙂") (len raw)).
Proof.
  intros Hread Hno Hparse.
  destruct (process_body_trace f rs raw Hread Hparse)
    as [df1 [rs1 [df2 [rs2 [v [rs3 [H1 [F1 [H2 [F2 [_ Hrun]]]]]]]]]]].
  eexists. split; [exact Hrun|].
  set (df3 := setitem "Date" v df2).
  pose proof (fill_tweet_text_filled df3) as F4.
  assert (Hno4 : col_in "Emoji" (fill_tweet_text df3) = false).
  { rewrite (filled_col_in _ "Emoji" _ _ F4). unfold df3.
    rewrite !col_in_setitem.
    rewrite (filled_col_in _ "Emoji" _ _ F2), (filled_col_in _ "Emoji" _ _ F1).
    rewrite Hno. simpl. now rewrite !andb_false_r. }
  unfold fill_emoji. rewrite Hno4. simpl. unfold setitem_scalar.
  rewrite getitem_setitem_same by reflexivity. do 2 f_equal.
  rewrite (filled_len _ _ _ F4). unfold df3. rewrite len_setitem.
  rewrite (filled_len _ _ _ F2). apply (filled_len _ _ _ F1).
Qed.

(** X3: when the raw table has no [Tweet_Text] column and the run succeeds,
    the text of the tweets is the [Tweet] column when there is one, and the
    placeholder text on every row otherwise. *)
Theorem tweet_text_alias_or_placeholder (f : UploadedFile) (rs : RandomState)
    (raw : DataFrame) :
  read_excel f = Ok raw -> col_in "Tweet_Text" raw = false ->
  (forall d, getitem "Date" raw = Some d -> exists d', to_datetime d = Ok d') ->
  exists df,
    run f rs = (df, []) /\
    getitem "Tweet_Text" df =
    Some (match getitem "Tweet" raw with
          | Some tweet => tweet
          | None => repeat (VStr "No text available") (len raw)
          end).
Proof.
  intros Hread Hno Hparse.
  destruct (process_body_trace f rs raw Hread Hparse)
    as [df1 [rs1 [df2 [rs2 [v [rs3 [H1 [F1 [H2 [F2 [_ Hrun]]]]]]]]]]].
  eexists. split; [exact Hrun|].
  set (df3 := setitem "Date" v df2).
  assert (Hno3 : col_in "Tweet_Text" df3 = false).
  { unfold df3. rewrite col_in_setitem.
    rewrite (filled_col_in _ "Tweet_Text" _ _ F2),
            (filled_col_in _ "Tweet_Text" _ _ F1).
    rewrite Hno. simpl. now rewrite !andb_false_r. }
  assert (Ht3 : getitem "Tweet" df3 = getitem "Tweet" raw).
  { unfold df3. rewrite getitem_setitem_other by reflexivity.
    rewrite (filled_getitem_other _ _ _ _ F2) by reflexivity.
    now rewrite (filled_getitem_other _ _ _ _ F1) by reflexivity. }
  assert (Hlen3 : len df3 = len raw).
  { unfold df3. rewrite len_setitem, (filled_len _ _ _ F2).
    apply (filled_len _ _ _ F1). }
  apply (filled_getitem "Emoji" _ _ _ _ (fill_emoji_filled _)).
  unfold fill_tweet_text. rewrite Ht3, Hno3. simpl.
  destruct (getitem "Tweet" raw) as [tweet|].
  - now apply getitem_setitem_same.
  - unfold setitem_scalar. rewrite Hlen3. now apply getitem_setitem_same.
Qed.

(** X4: [process_data] returns a table in which every column has one value
    per row, whenever the table read is such a table; the empty frame of the
    error case is one too. *)
Theorem process_data_well_formed (f : UploadedFile) (rs : RandomState) :
  (forall raw, read_excel f = Ok raw -> well_formed raw) ->
  well_formed (fst (run f rs)).
Proof.
  intros Hwf. unfold process_data.
  destruct (body f rs) as [[df rs']|e] eqn:Hb; simpl; [|constructor].
  destruct (read_excel f) as [raw|e] eqn:Hread.
  2:{ unfold process_body, bind, lift in Hb. now rewrite Hread in Hb. }
  assert (Hparse : forall d, getitem "Date" raw = Some d ->
                             exists d', to_datetime d = Ok d').
  { intros d Ed. destruct (to_datetime d) as [d'|e] eqn:Ep; [now exists d'|].
    rewrite (process_body_date_error UploadedFile read_excel now
               f rs raw d e Hread Ed Ep) in Hb.
    discriminate. }
  destruct (process_body_success UploadedFile read_excel now
              f rs raw Hread Hparse)
    as [df1 [rs1 [df2 [df3 [rs3 [H1 [F1 [F2 [Hdate [W Hb']]]]]]]]]].
  rewrite Hb' in Hb. inversion Hb; subst.
  destruct W as [W Hlen].
  apply fill_emoji_well_formed, fill_tweet_text_well_formed.
  apply (date_step_well_formed now raw df2 df3);
    [apply W, Hwf; reflexivity | exact Hlen | exact Hdate].
Qed.

Lemma run_ok_body (f : UploadedFile) (rs : RandomState) (df : DataFrame) :
  run f rs = (df, []) -> exists rs', body f rs = Ok (df, rs').
Proof.
  unfold process_data.
  destruct (body f rs) as [[df' rs']|e]; intros H; inversion H; subst.
  now exists rs'.
Qed.

(** X5: a table returned by [process_data] without an error message is
    returned unchanged, again without a message, when it is uploaded in its
    turn, whatever the generator. *)
Theorem process_data_idempotent (f f' : UploadedFile) (rs rs' : RandomState)
    (df : DataFrame) :
  run f rs = (df, []) -> read_excel f' = Ok df -> run f' rs' = (df, []).
Proof.
  intros Hrun Hread'. destruct (run_ok_body f rs df Hrun) as [rs1 Hb].
  destruct (process_body_output UploadedFile read_excel now
              f rs rs1 df Hb) as [Hcanon Hdt].
  unfold process_data.
  now rewrite (normalise_canonical_fixed UploadedFile read_excel
                 now f' rs' df Hread' Hcanon Hdt).
Qed.

End NormaliserFills.

(** ** The script and the load *)

Section ScriptProperties.

Variable UploadedFile : Type.
Variable read_excel : UploadedFile -> result DataFrame.
Variable now : Z.

Local Abbreviation run := (process_data UploadedFile read_excel now).

Lemma col_in_data_nonempty (c : cell) (df : DataFrame) :
  col_in c df = true -> (length (data df) =? 0)%nat = false.
Proof.
  unfold col_in, columns. destruct (data df); [discriminate | reflexivity].
Qed.

(** The choices of a select box are those of the raw table when the load
    keeps the column. *)
Lemma options_kept (c : cell) (raw df : DataFrame) :
  col_in c df = col_in c raw ->
  (forall w, getitem c raw = Some w -> getitem c df = Some w) ->
  Sidebar.options c df = Sidebar.options c raw.
Proof.
  intros Hin Hkeep. unfold Sidebar.options. rewrite Hin.
  destruct (col_in c raw) eqn:E; [|reflexivity].
  apply col_in_getitem in E. destruct E as [w Hw].
  now rewrite Hw, (Hkeep w Hw).
Qed.

(** X6: after a load without raise, a table without rows shows neither a
    dashboard nor an error message.  A table with rows has the choices of
    the two select boxes built, which are those of the [Festival] and
    [Sentiment] columns of the raw table: when both can be sorted the
    dashboard of the filtered table is rendered, and when one of them holds
    values of different kinds the script ends in a [TypeError] that nothing
    catches. *)
Theorem dashboard_shown_iff_rows (f : UploadedFile) (rs : RandomState)
    (raw : DataFrame) (sel_festival sel_sentiment : cell) (top_n : nat) :
  read_excel f = Ok raw ->
  (forall d, getitem "Date" raw = Some d -> exists d', to_datetime d = Ok d') ->
  exists df,
    run f rs = (df, []) /\
    Sidebar.festival_options df = Sidebar.festival_options raw /\
    Sidebar.sentiment_options df = Sidebar.sentiment_options raw /\
    app UploadedFile read_excel now (Some f) rs
        sel_festival sel_sentiment top_n
    = if (len raw =? 0)%nat then Loaded [] None
      else
        match Sidebar.festival_options raw, Sidebar.sentiment_options raw with
        | Some _, Some _ =>
            Loaded []
              (Some (dashboard (apply_filters df sel_festival sel_sentiment)
                               top_n))
        | _, _ => Uncaught [] type_error
        end.
Proof.
  intros Hread Hparse.
  destruct (process_body_success UploadedFile read_excel now
              f rs raw Hread Hparse)
    as [df1 [rs1 [df2 [df3 [rs3 [H1 [F1 [F2 [Hdate [W Hb]]]]]]]]]].
  set (df := fill_emoji (fill_tweet_text df3)) in *.
  assert (Hrun : run f rs = (df, [])) by (unfold process_data; now rewrite Hb).
  exists df. split; [exact Hrun|].
  assert (Hv : exists v, df3 = setitem "Date" v df2).
  { destruct (getitem "Date" raw).
    - destruct Hdate as [_ [d' [_ ->]]]. now exists d'.
    - destruct Hdate as [_ [dates [-> _]]]. now exists dates. }
  destruct Hv as [v E3].
  destruct (process_body_frame raw df1 df2 df3 v F1 F2 E3)
    as [Hix [Hkeep [Hnames _]]].
  fold df in Hix, Hkeep, Hnames.
  assert (Hcanon : forallb (fun c => col_in c df) canonical = true)
    by now apply columns_canonical with (raw := raw).
  assert (Hcol : col_in "Emoji" df = true).
  { unfold canonical in Hcanon. simpl in Hcanon.
    repeat (apply andb_true_iff in Hcanon; destruct Hcanon as [? Hcanon]).
    assumption. }
  assert (Hin : forall c, existsb (cell_eqb c) canonical = false ->
                          col_in c df = col_in c raw).
  { intros c Hc. unfold col_in at 1. rewrite Hnames, existsb_app.
    fold (col_in c raw).
    destruct (existsb (cell_eqb c)
                (filter (fun c0 => negb (col_in c0 raw)) canonical)) eqn:Ex;
      [|apply orb_false_r].
    apply existsb_exists in Ex. destruct Ex as [k [Hk Ek]].
    apply filter_In in Hk. destruct Hk as [Hk _].
    assert (existsb (cell_eqb c) canonical = true)
      by (apply existsb_exists; now exists k).
    congruence. }
  assert (Hfest : Sidebar.festival_options df = Sidebar.festival_options raw).
  { apply options_kept; [now apply Hin|].
    intros w Hw. apply Hkeep; [discriminate | assumption]. }
  assert (Hsent : Sidebar.sentiment_options df = Sidebar.sentiment_options raw).
  { apply options_kept; [now apply Hin|].
    intros w Hw. apply Hkeep; [discriminate | assumption]. }
  split; [exact Hfest|]. split; [exact Hsent|].
  unfold app. rewrite Hrun. unfold empty.
  rewrite (col_in_data_nonempty _ _ Hcol), orb_false_r.
  unfold len. rewrite Hix. fold (len raw).
  destruct (len raw =? 0)%nat; simpl; [reflexivity|].
  rewrite Hfest, Hsent.
  destruct (Sidebar.festival_options raw); [|reflexivity].
  now destruct (Sidebar.sentiment_options raw).
Qed.

End ScriptProperties.

(** ** The tweets per day *)

Import TimeSeries.

Lemma tally_keys (d : Z) (l : list (Z * nat)) (x : Z * nat) :
  In x (tally d l) -> fst x = d \/ exists y, In y l /\ fst y = fst x.
Proof.
  induction l as [|[k n] r IH]; simpl.
  - intros [<- | []]. now left.
  - destruct (d <? k) eqn:E1; [|destruct (d =? k) eqn:E2]; simpl.
    + intros [<- | [<- | H]]; [now left | right | right].
      * exists (k, n). auto.
      * exists x. auto.
    + intros [<- | H]; right; [exists (k, n) | exists x]; auto.
    + intros [<- | H]; [right; exists (k, n); auto|].
      destruct (IH H) as [H' | [y [Hy Ey]]]; [now left|].
      right. exists y. auto.
Qed.

Lemma tally_ascending (d : Z) (l : list (Z * nat)) :
  ascending_days l -> ascending_days (tally d l).
Proof.
  unfold ascending_days. induction 1 as [|[k n] r Hr IH Hall]; simpl.
  - repeat constructor.
  - rewrite Forall_forall in Hall.
    destruct (d <? k) eqn:E1; [|destruct (d =? k) eqn:E2].
    + apply Z.ltb_lt in E1. constructor; [now constructor; [|apply Forall_forall]|].
      constructor; [exact E1|]. apply Forall_forall. intros y Hy.
      specialize (Hall y Hy). simpl in *. lia.
    + constructor; [assumption | now apply Forall_forall].
    + apply Z.ltb_ge in E1. apply Z.eqb_neq in E2.
      constructor; [assumption|]. apply Forall_forall. intros y Hy.
      destruct (tally_keys d r y Hy) as [-> | [z [Hz Ez]]]; simpl.
      * lia.
      * rewrite <- Ez. now apply (Hall z).
Qed.

Lemma rows_on_below (d : Z) (l : list (Z * nat)) :
  Forall (fun x => d < fst x) l -> rows_on d l = O.
Proof.
  induction 1 as [|[k n] r Hk _ IH]; simpl; [reflexivity|].
  simpl in Hk. destruct (d =? k) eqn:E; [apply Z.eqb_eq in E; lia | exact IH].
Qed.

Lemma rows_on_tally (d d' : Z) (l : list (Z * nat)) :
  ascending_days l ->
  rows_on d' (tally d l) =
  (rows_on d' l + if (d' =? d)%Z then 1 else 0)%nat.
Proof.
  unfold ascending_days. induction 1 as [|[k n] r Hr IH Hall]; simpl.
  - destruct (d' =? d); reflexivity.
  - rewrite Forall_forall in Hall.
    destruct (d <? k) eqn:E1; [|destruct (d =? k) eqn:E2]; simpl.
    + apply Z.ltb_lt in E1. destruct (d' =? d) eqn:Ed; [|lia].
      apply Z.eqb_eq in Ed. subst d'.
      destruct (d =? k) eqn:Ek; [apply Z.eqb_eq in Ek; lia|].
      rewrite rows_on_below; [reflexivity|].
      apply Forall_forall. intros y Hy. specialize (Hall y Hy). simpl in *. lia.
    + apply Z.eqb_eq in E2. subst k.
      destruct (d' =? d); lia.
    + rewrite IH. apply Z.eqb_neq in E2.
      destruct (d' =? k) eqn:Ek; [|reflexivity].
      apply Z.eqb_eq in Ek. subst d'.
      destruct (k =? d) eqn:Ekd; [apply Z.eqb_eq in Ekd; lia | lia].
Qed.

Lemma tally_positive (d : Z) (l : list (Z * nat)) :
  Forall (fun x => (1 <= snd x)%nat) l ->
  Forall (fun x => (1 <= snd x)%nat) (tally d l).
Proof.
  induction 1 as [|[k n] r Hk Hr IH]; simpl.
  - repeat constructor.
  - destruct (d <? k); [|destruct (d =? k)]; repeat constructor; simpl in *;
      try assumption; lia.
Qed.

Lemma sum_rows_tally (d : Z) (l : list (Z * nat)) :
  sum_rows (tally d l) = S (sum_rows l).
Proof.
  unfold sum_rows. induction l as [|[k n] r IH]; simpl; [reflexivity|].
  destruct (d <? k); [|destruct (d =? k)]; simpl; try lia.
Qed.

Lemma rows_on_In (d : Z) (n : nat) (l : list (Z * nat)) :
  ascending_days l -> In (d, n) l -> rows_on d l = n.
Proof.
  unfold ascending_days. induction 1 as [|[k m] r Hr IH Hall]; simpl;
    [contradiction|].
  rewrite Forall_forall in Hall. intros [E | H].
  - inversion E; subst. now rewrite Z.eqb_refl.
  - destruct (d =? k) eqn:Ek; [|auto].
    apply Z.eqb_eq in Ek. subst k. specialize (Hall _ H). simpl in Hall. lia.
Qed.

Lemma In_rows_on (d : Z) (l : list (Z * nat)) :
  (1 <= rows_on d l)%nat -> In (d, rows_on d l) l.
Proof.
  induction l as [|[k m] r IH]; simpl; [lia|].
  destruct (d =? k) eqn:Ek; intros H.
  - apply Z.eqb_eq in Ek. subst. now left.
  - right. auto.
Qed.

Lemma groupby_days_fold (days : list (option Z)) (acc : list (Z * nat)) :
  let rows := fold_left (fun acc o => match o with
                                      | Some d => tally d acc
                                      | None => acc
                                      end) days acc in
  ascending_days acc -> Forall (fun x => (1 <= snd x)%nat) acc ->
  ascending_days rows /\
  Forall (fun x => (1 <= snd x)%nat) rows /\
  (forall d, rows_on d rows = (rows_on d acc + count_day d days)%nat) /\
  sum_rows rows = (sum_rows acc + dated days)%nat.
Proof.
  revert acc. induction days as [|o days IH]; intros acc rows Hs Hp.
  - subst rows. simpl. unfold count_day, dated. simpl.
    repeat split; auto; intros; lia.
  - subst rows. simpl. destruct o as [d0|].
    + destruct (IH (tally d0 acc) (tally_ascending d0 acc Hs)
                  (tally_positive d0 acc Hp)) as [H1 [H2 [H3 H4]]].
      repeat split; try assumption.
      * intros d. rewrite H3, (rows_on_tally d0 d acc Hs).
        unfold count_day. simpl. destruct (d =? d0); simpl; lia.
      * rewrite H4, sum_rows_tally. unfold dated. simpl. lia.
    + destruct (IH acc Hs Hp) as [H1 [H2 [H3 H4]]].
      repeat split; assumption.
Qed.

Lemma dated_dropna (col : Series) :
  forallb is_datetime col = true ->
  dated (map (fun c => match c with
                       | VTime t => Some (t / day_ns)
                       | _ => None
                       end) col) = length (dropna col).
Proof.
  unfold dated, dropna. induction col as [|c r IH]; simpl; [reflexivity|].
  intros H. apply andb_true_iff in H. destruct H as [Hc Hr].
  destruct c; try discriminate; simpl; now rewrite IH.
Qed.

(** X7: on a [Date] column of date-times the time series lists the days in
    strictly ascending order, each day that has a row exactly once with its
    number of rows and no other day, and the counts add up to the number of
    rows whose date is not missing. *)
Theorem daily_counts_spec (df_filt : DataFrame) (col : Series) :
  getitem "Date" df_filt = Some col -> forallb is_datetime col = true ->
  exists days rows,
    dt_date col = Some days /\
    daily df_filt = Ok (Drawn rows) /\
    ascending_days rows /\
    (forall d n, In (d, n) rows <-> n = count_day d days /\ (1 <= n)%nat) /\
    sum_rows rows = length (dropna col).
Proof.
  intros Hcol Hdt. unfold daily, dt_date. rewrite Hcol, Hdt.
  eexists. eexists. split; [reflexivity|]. split; [reflexivity|].
  set (days := map _ col).
  destruct (groupby_days_fold days []) as [H1 [H2 [H3 H4]]];
    [constructor | constructor |].
  fold (groupby_days days) in H1, H2, H3, H4.
  split; [exact H1|]. split.
  - intros d n. split.
    + intros Hin. rewrite Forall_forall in H2.
      split; [|apply (H2 _ Hin)].
      rewrite <- (rows_on_In d n _ H1 Hin). apply H3.
    + intros [-> Hn]. specialize (H3 d). simpl in H3. rewrite <- H3.
      apply In_rows_on. rewrite H3. exact Hn.
  - rewrite H4. unfold sum_rows at 1. simpl. now apply dated_dropna.
Qed.



Section TimeSeriesAfterLoad.

Variable UploadedFile : Type.
Variable read_excel : UploadedFile -> result DataFrame.
Variable now : Z.


End TimeSeriesAfterLoad.

(** ** The choices of the sidebar *)

Import Sidebar.

Lemma insert_asc_perm (x : cell) (l : Series) :
  Permutation (x :: l) (insert_asc x l).
Proof.
  induction l as [|y r IH]; simpl; [reflexivity|].
  destruct (cell_leb x y); [reflexivity|].
  rewrite perm_swap. now constructor.
Qed.

Lemma sort_asc_perm (l : Series) : Permutation l (sort_asc l).
Proof.
  induction l as [|x r IH]; simpl; [constructor|].
  rewrite <- insert_asc_perm. now constructor.
Qed.

Lemma insert_asc_sorted (x : cell) (l : Series) :
  (forall y, In y l -> same_kind x y = true) ->
  StronglySorted (fun a b => cell_leb a b = true) l ->
  StronglySorted (fun a b => cell_leb a b = true) (insert_asc x l).
Proof.
  intros Hk Hs. induction Hs as [|y r Hr IH Hall]; simpl.
  - repeat constructor.
  - rewrite Forall_forall in Hall.
    destruct (cell_leb x y) eqn:E.
    + constructor; [now constructor; [|apply Forall_forall]|].
      constructor; [exact E|]. apply Forall_forall. intros z Hz.
      apply cell_leb_trans with (b := y); auto.
    + constructor.
      * apply IH. intros z Hz. apply Hk. now right.
      * apply Forall_forall. intros z Hz. apply In_insert_asc in Hz.
        destruct Hz as [-> | Hz]; [|auto].
        destruct (cell_leb_total x y) as [H | H]; [|congruence | exact H].
        apply Hk. now left.
Qed.

Lemma sort_asc_sorted (l : Series) :
  (forall a b, In a l -> In b l -> same_kind a b = true) ->
  StronglySorted (fun a b => cell_leb a b = true) (sort_asc l).
Proof.
  induction l as [|x r IH]; intros Hk; simpl; [constructor|].
  apply insert_asc_sorted.
  - intros y Hy. apply (proj1 (In_sort_asc y r)) in Hy.
    apply Hk; [now left | now right].
  - apply IH. intros a b Ha Hb. apply Hk; now right.
Qed.

Lemma sorted_NoDup_ascending (l : Series) :
  StronglySorted (fun a b => cell_leb a b = true) l -> NoDup l -> ascending l.
Proof.
  unfold ascending. induction 1 as [|x r Hr IH Hall]; intros Hnd;
    [constructor|].
  inversion Hnd; subst. constructor; [auto|].
  rewrite Forall_forall in *. intros y Hy. split; [auto|].
  intros ->. contradiction.
Qed.

Lemma np_sort_one_kind (l : Series) :
  (forall a b, In a l -> In b l -> same_kind a b = true) ->
  np_sort l = Some (sort_asc l).
Proof.
  intros Hk. unfold np_sort. destruct l as [|x r]; [reflexivity|].
  assert (E : forallb (same_kind x) r = true).
  { apply forallb_forall. intros y Hy. apply Hk; [now left | now right]. }
  now rewrite E.
Qed.

Lemma np_sort_In (l sorted : Series) (v : cell) :
  np_sort l = Some sorted -> (In v sorted <-> In v l).
Proof.
  unfold np_sort. destruct l as [|x r].
  - intros H. inversion H. tauto.
  - destruct (forallb (same_kind x) r); [|discriminate].
    intros H. injection H as <-. apply (In_sort_asc v (x :: r)).
Qed.

Lemma In_unique_dropna (v : cell) (col : Series) :
  In v (unique (dropna col)) <-> In v col /\ notna v = true.
Proof. now rewrite In_unique, In_dropna. Qed.

(** X9: over a column of comparable values the choices of a select box are
    "All" followed by the non-missing values of the column, each once, in
    strictly ascending order. *)
Theorem options_spec (c : cell) (df : DataFrame) (col : Series) :
  getitem c df = Some col -> one_kind col ->
  exists values,
    options c df = Some (VStr "All" :: values) /\
    ascending values /\
    forall v, In v values <-> In v col /\ notna v = true.
Proof.
  intros Hcol Hkind. unfold options, sorted.
  assert (Hc : col_in c df = true) by (apply col_in_getitem; eauto).
  rewrite Hc, Hcol.
  assert (Hk : forall a b, In a (unique (dropna col)) ->
                           In b (unique (dropna col)) -> same_kind a b = true).
  { intros a b Ha Hb. apply In_unique_dropna in Ha, Hb.
    destruct Ha, Hb. now apply Hkind. }
  rewrite (np_sort_one_kind _ Hk).
  exists (sort_asc (unique (dropna col))). split; [reflexivity|]. split.
  - apply sorted_NoDup_ascending; [now apply sort_asc_sorted|].
    apply Permutation_NoDup with (l := unique (dropna col));
      [apply sort_asc_perm | apply NoDup_unique, dropna_notna].
  - intros v. now rewrite In_sort_asc, In_unique_dropna.
Qed.

Lemma count_eq_In (x : cell) (s : Series) :
  In x s -> notna x = true -> (1 <= count_eq x s)%nat.
Proof.
  intros Hin Hna. unfold count_eq.
  assert (H : In x (filter (fun c => cell_eqb c x) s)).
  { apply filter_In. split; [assumption | now apply cell_eqb_refl]. }
  destruct (filter (fun c => cell_eqb c x) s); [contradiction | simpl; lia].
Qed.

Lemma offered_choice_in_column (c : cell) (df : DataFrame) (opts : list cell)
    (sel : cell) :
  options c df = Some opts -> In sel opts -> cell_eqb sel "All" = false ->
  exists col, getitem c df = Some col /\ In sel col /\ notna sel = true.
Proof.
  unfold options, sorted. intros Hopts Hin Hne.
  assert (Hall : sel <> VStr "All").
  { intros ->. discriminate Hne. }
  destruct (col_in c df) eqn:Hc.
  2:{ inversion Hopts; subst. destruct Hin as [E | []]. now symmetry in E. }
  destruct (getitem c df) as [col|] eqn:Hcol.
  2:{ inversion Hopts; subst. destruct Hin as [E | []]. now symmetry in E. }
  destruct (np_sort (unique (dropna col))) as [values|] eqn:Es; [|discriminate].
  inversion Hopts; subst. destruct Hin as [E | Hin]; [now symmetry in E|].
  apply (np_sort_In _ _ sel Es), In_unique_dropna in Hin.
  exists col. tauto.
Qed.

Lemma filter_by_count (c sel : cell) (df : DataFrame) (col : Series) :
  well_formed df -> getitem c df = Some col -> cell_eqb sel "All" = false ->
  len (filter_by c sel df) = count_eq sel col.
Proof.
  intros Hwf Hcol Hne. unfold filter_by. rewrite Hne. simpl.
  assert (Hc : col_in c df = true) by (apply col_in_getitem; eauto).
  rewrite Hc, Hcol. unfold len, mask_rows. simpl.
  apply length_select_series_eq. symmetry.
  now apply well_formed_getitem with (c := c) (df := df).
Qed.

Lemma filter_by_all (c : cell) (df : DataFrame) : filter_by c "All" df = df.
Proof. reflexivity. Qed.

(** X10: a festival offered by the sidebar, other than "All", leaves at
    least one row when the sentiment is "All", and so does an offered
    sentiment when the festival is "All". *)
Theorem offered_choice_has_rows (df : DataFrame) (opts : list cell)
    (sel : cell) :
  well_formed df -> In sel opts -> cell_eqb sel "All" = false ->
  (festival_options df = Some opts ->
   (1 <= total_tweets (apply_filters df sel "All"))%nat) /\
  (sentiment_options df = Some opts ->
   (1 <= total_tweets (apply_filters df "All" sel))%nat).
Proof.
  intros Hwf Hin Hne. split; intros Hopts;
    destruct (offered_choice_in_column _ df opts sel Hopts Hin Hne)
      as [col [Hcol [Hsel Hna]]];
    unfold apply_filters, total_tweets; rewrite ?filter_by_all;
    rewrite (filter_by_count _ sel df col Hwf Hcol Hne);
    now apply count_eq_In.
Qed.

Lemma same_kind_trans (x a b : cell) :
  same_kind x a = true -> same_kind x b = true -> same_kind a b = true.
Proof. now destruct x, a, b. Qed.

(** X11: when a column holds two non-missing values of different kinds (a
    text and an integer, say) its choices cannot be sorted and building the
    select box raises. *)
Theorem options_raise_on_mixed_kinds (c : cell) (df : DataFrame) (col : Series)
    (a b : cell) :
  getitem c df = Some col -> In a col -> In b col ->
  notna a = true -> notna b = true -> same_kind a b = false ->
  options c df = None.
Proof.
  intros Hcol Ha Hb Hna Hnb Hab. unfold options, sorted.
  assert (Hc : col_in c df = true) by (apply col_in_getitem; eauto).
  rewrite Hc, Hcol.
  assert (Ha' : In a (unique (dropna col))) by now apply In_unique_dropna.
  assert (Hb' : In b (unique (dropna col))) by now apply In_unique_dropna.
  unfold np_sort. destruct (unique (dropna col)) as [|x r]; [contradiction|].
  destruct (forallb (same_kind x) r) eqn:E; [|reflexivity].
  exfalso. rewrite forallb_forall in E.
  assert (Hx : forall y, In y (x :: r) -> notna y = true -> same_kind x y = true).
  { intros y [<- | Hy] Hy'; [now destruct x | now apply E]. }
  rewrite (same_kind_trans x a b (Hx a Ha' Hna) (Hx b Hb' Hnb)) in Hab.
  discriminate.
Qed.

(** ** The filters *)

Lemma filter_by_twice (c1 s1 c2 s2 : cell) (df : DataFrame) :
  well_formed df ->
  filter_by c2 s2 (filter_by c1 s1 df) =
  mask_rows (both (selects c1 s1 df) (selects c2 s2 df)) df.
Proof.
  intros Hwf.
  rewrite (filter_by_spec c1 s1 df Hwf).
  pose proof (length_selects c1 s1 df Hwf) as Hn.
  rewrite filter_by_spec by now apply well_formed_mask_rows.
  rewrite selects_mask_rows by assumption.
  apply mask_rows_mask_rows.
  now rewrite Hn, length_selects.
Qed.

Lemma both_comm (m1 m2 : list bool) : both m1 m2 = both m2 m1.
Proof.
  unfold both. revert m2.
  induction m1 as [|a m1 IH]; intros [|b m2]; simpl; try reflexivity.
  now rewrite IH, andb_comm.
Qed.

(** X12: the order of the two filters does not matter: the sentiment filter
    applied to the festival rows gives the table that the festival filter
    gives on the sentiment rows. *)
Theorem filters_commute (df : DataFrame) (sel_festival sel_sentiment : cell) :
  well_formed df ->
  apply_filters df sel_festival sel_sentiment =
  filter_by "Festival" sel_festival (filter_by "Sentiment" sel_sentiment df).
Proof.
  intros Hwf. unfold apply_filters.
  rewrite !filter_by_twice by assumption. now rewrite both_comm.
Qed.

Lemma length_select_le {A : Type} (m : list bool) (l : list A) :
  (length (select m l) <= length l)%nat.
Proof.
  revert l. induction m as [|b m IH]; intros [|x l]; simpl; try lia.
  specialize (IH l). destruct b; simpl; lia.
Qed.

Lemma incl_select {A : Type} (m : list bool) (l : list A) :
  incl (select m l) l.
Proof.
  revert l. induction m as [|b m IH]; intros [|x l]; simpl;
    try (intros y []).
  destruct b.
  - intros y [<- | Hy]; [now left | right; now apply IH].
  - intros y Hy. right. now apply IH.
Qed.

Lemma length_both (m1 m2 : list bool) :
  length m2 = length m1 -> length (both m1 m2) = length m1.
Proof.
  intros H. unfold both. rewrite length_map, length_combine. lia.
Qed.

Lemma apply_filters_well_formed (df : DataFrame)
    (sel_festival sel_sentiment : cell) :
  well_formed df -> well_formed (apply_filters df sel_festival sel_sentiment).
Proof.
  intros Hwf.
  rewrite (apply_filters_mask df sel_festival sel_sentiment Hwf).
  apply well_formed_mask_rows; [assumption|].
  rewrite length_both; now rewrite !length_selects.
Qed.

(** X13: filtering a table keeps its columns, adds no row and no row label,
    and leaves every column with one value per row. *)
Theorem filtered_table_shape (df : DataFrame) (sel_festival sel_sentiment : cell) :
  well_formed df ->
  let df_filt := apply_filters df sel_festival sel_sentiment in
  well_formed df_filt /\
  columns df_filt = columns df /\
  (total_tweets df_filt <= total_tweets df)%nat /\
  incl (index df_filt) (index df).
Proof.
  intros Hwf df_filt. subst df_filt.
  split; [now apply apply_filters_well_formed|].
  rewrite (apply_filters_mask df sel_festival sel_sentiment Hwf).
  split; [|split].
  - apply columns_mask_rows.
  - unfold total_tweets, len, mask_rows. simpl. apply length_select_le.
  - unfold mask_rows. simpl. apply incl_select.
Qed.

Lemma select_both_l (col : Series) (x : cell) (m : list bool) :
  Forall (fun c => cell_eqb c x = true)
         (select (both (series_eq col x) m) col).
Proof.
  unfold both, series_eq. revert m.
  induction col as [|c r IH]; intros [|b m]; simpl; try constructor.
  destruct (cell_eqb c x) eqn:E; simpl; [|apply IH].
  destruct b; [|apply IH]. constructor; [exact E | apply IH].
Qed.

Lemma select_both_r (col : Series) (x : cell) (m : list bool) :
  Forall (fun c => cell_eqb c x = true)
         (select (both m (series_eq col x)) col).
Proof. rewrite both_comm. apply select_both_l. Qed.

Lemma selects_active (c sel : cell) (df : DataFrame) (col : Series) :
  getitem c df = Some col -> cell_eqb sel "All" = false ->
  selects c sel df = series_eq col sel.
Proof. intros Hcol Hne. unfold selects. now rewrite Hcol, Hne. Qed.

Lemma apply_filters_matching (df : DataFrame)
    (sel_festival sel_sentiment : cell) :
  well_formed df ->
  (cell_eqb sel_festival "All" = false ->
   forall col,
     getitem "Festival" (apply_filters df sel_festival sel_sentiment) = Some col ->
     Forall (fun c => cell_eqb c sel_festival = true) col) /\
  (cell_eqb sel_sentiment "All" = false ->
   forall col,
     getitem "Sentiment" (apply_filters df sel_festival sel_sentiment) = Some col ->
     Forall (fun c => cell_eqb c sel_sentiment = true) col).
Proof.
  intros Hwf.
  rewrite (apply_filters_mask df sel_festival sel_sentiment Hwf).
  split; intros Hne col'; rewrite getitem_mask_rows.
  - destruct (getitem "Festival" df) as [col|] eqn:Hcol; [|discriminate].
    simpl. intros H. inversion H; subst.
    rewrite (selects_active _ _ df col Hcol Hne). apply select_both_l.
  - destruct (getitem "Sentiment" df) as [col|] eqn:Hcol; [|discriminate].
    simpl. intros H. inversion H; subst.
    rewrite (selects_active _ _ df col Hcol Hne). apply select_both_r.
Qed.

(** X14: every row kept by a festival filter other than "All" holds the
    selected festival, and every row kept by a sentiment filter other than
    "All" holds the selected sentiment. *)
Theorem kept_rows_match (df : DataFrame) (sel_festival sel_sentiment : cell) :
  well_formed df ->
  let df_filt := apply_filters df sel_festival sel_sentiment in
  (cell_eqb sel_festival "All" = false ->
   forall col, getitem "Festival" df_filt = Some col ->
               Forall (fun c => cell_eqb c sel_festival = true) col) /\
  (cell_eqb sel_sentiment "All" = false ->
   forall col, getitem "Sentiment" df_filt = Some col ->
               Forall (fun c => cell_eqb c sel_sentiment = true) col).
Proof. intros Hwf df_filt. now apply apply_filters_matching. Qed.

Lemma series_eq_all (col : Series) (x : cell) :
  Forall (fun c => cell_eqb c x = true) col ->
  series_eq col x = repeat true (length col).
Proof.
  unfold series_eq. induction 1 as [|c r Hc _ IH]; simpl; [reflexivity|].
  now rewrite Hc, IH.
Qed.

Lemma both_repeat_true (n : nat) :
  both (repeat true n) (repeat true n) = repeat true n.
Proof. apply both_true_r. now rewrite repeat_length. Qed.

Lemma selects_all_true (c sel : cell) (df : DataFrame) :
  well_formed df ->
  (forall col, getitem c df = Some col -> cell_eqb sel "All" = false ->
               Forall (fun x => cell_eqb x sel = true) col) ->
  selects c sel df = repeat true (len df).
Proof.
  intros Hwf H. unfold selects.
  destruct (getitem c df) as [col|] eqn:Hcol; [|reflexivity].
  destruct (cell_eqb sel "All") eqn:Hne; [reflexivity|].
  rewrite (series_eq_all col sel (H col eq_refl eq_refl)).
  now rewrite (well_formed_getitem c col df Hwf Hcol).
Qed.

(** X15: applying the same selection to a table that is already filtered by
    it changes nothing. *)
Theorem filters_idempotent (df : DataFrame) (sel_festival sel_sentiment : cell) :
  well_formed df ->
  let df_filt := apply_filters df sel_festival sel_sentiment in
  apply_filters df_filt sel_festival sel_sentiment = df_filt.
Proof.
  intros Hwf df_filt.
  pose proof (apply_filters_well_formed df sel_festival sel_sentiment Hwf)
    as Hwf'.
  destruct (apply_filters_matching df sel_festival sel_sentiment Hwf)
    as [Hf Hs].
  fold df_filt in Hwf', Hf, Hs.
  rewrite (apply_filters_mask df_filt sel_festival sel_sentiment Hwf').
  rewrite (selects_all_true "Festival" sel_festival df_filt Hwf'),
          (selects_all_true "Sentiment" sel_sentiment df_filt Hwf').
  - rewrite both_repeat_true. now apply mask_rows_all.
  - intros col Hcol Hne. now apply Hs.
  - intros col Hcol Hne. now apply Hf.
Qed.

(** ** The KPI row, the ranking and the indicator table together *)

Lemma length_unique_le (s : Series) : (length (unique s) <= length s)%nat.
Proof.
  induction s as [|c r IH]; simpl; [lia|].
  pose proof (filter_length_le (fun d => negb (cell_eqb d c)) (unique r)). lia.
Qed.

Lemma unique_nil (s : Series) : unique s = [] -> s = [].
Proof. destruct s; [reflexivity | discriminate]. Qed.

(** X16: there are no more distinct emoji than rows, and when there is none
    (no [Emoji] column, or only missing values in it) "Top Emoji" shows
    "N/A". *)
Theorem unique_emoji_bounds (df_filt : DataFrame) :
  well_formed df_filt ->
  (unique_emoji_count df_filt <= total_tweets df_filt)%nat /\
  (unique_emoji_count df_filt = 0%nat -> top_emoji df_filt = VStr "N/A").
Proof.
  intros Hwf. unfold unique_emoji_count, total_tweets, top_emoji, top_value.
  destruct (getitem "Emoji" df_filt) as [col|] eqn:Hcol.
  - split.
    + rewrite <- (well_formed_getitem "Emoji" col df_filt Hwf Hcol).
      unfold nunique. etransitivity; [apply length_unique_le|].
      unfold dropna. apply filter_length_le.
    + unfold nunique. intros H. apply length_zero_iff_nil, unique_nil in H.
      now rewrite (mode_nil col H).
  - split; [lia | reflexivity].
Qed.

Lemma value_counts_head_max (col : Series) (e : cell) (n : nat)
    (rest : list (cell * nat)) :
  value_counts col = (e, n) :: rest -> most_frequent col e /\ n = count_eq e col.
Proof.
  intros Hvc.
  assert (Hin : In (e, n) (counts col)).
  { apply In_value_counts. rewrite Hvc. now left. }
  apply In_counts in Hin. simpl in Hin. destruct Hin as [He [Hna Hn]].
  split; [|exact Hn]. split; [assumption|]. split; [assumption|].
  intros w. rewrite <- Hn.
  destruct (Nat.eq_dec (count_eq w col) 0) as [E | E]; [lia|].
  destruct (count_eq_pos w col) as [Hw Hwna]; [lia|].
  assert (Hw' : In (w, count_eq w col) (value_counts col)).
  { apply In_value_counts, In_counts. simpl. auto. }
  pose proof (value_counts_descending col) as Hs. unfold descending in Hs.
  rewrite Hvc in Hw', Hs. destruct Hw' as [E' | Hw'].
  - inversion E'. lia.
  - inversion Hs as [|? ? _ Hall]; subst. rewrite Forall_forall in Hall.
    exact (Hall _ Hw').
Qed.

(** X17: the first bar of the emoji ranking and the "Top Emoji" metric are
    both most frequent emoji and stand for the same number of rows (they may
    be two different emoji when counts are tied). *)
Theorem ranking_head_matches_top_emoji (df_filt : DataFrame) (top_n : nat)
    (col : Series) (e : cell) (n : nat) (rest : list (cell * nat)) :
  getitem "Emoji" df_filt = Some col ->
  emoji_counts df_filt top_n = Some ((e, n) :: rest) ->
  most_frequent col e /\
  most_frequent col (top_emoji df_filt) /\
  count_eq (top_emoji df_filt) col = n.
Proof.
  intros Hcol Hrank. unfold emoji_counts in Hrank. rewrite Hcol in Hrank.
  rewrite nlargest_value_counts in Hrank. inversion Hrank as [Hfirst].
  destruct (value_counts col) as [|[e' n'] rest'] eqn:Hvc;
    [destruct top_n; discriminate|].
  destruct top_n as [|k]; [discriminate|]. simpl in Hfirst.
  inversion Hfirst; subst e' n'.
  destruct (value_counts_head_max col e n rest' Hvc) as [He Hn].
  assert (Htop : most_frequent col (top_emoji df_filt)).
  { unfold top_emoji, top_value. rewrite Hcol.
    destruct (mode col) as [|v vs] eqn:Em.
    - exfalso. apply (mode_not_nil col); [|exact Em].
      destruct He as [Hin [Hna _]]. intros Hnil.
      assert (H : In e (dropna col)) by now apply In_dropna.
      now rewrite Hnil in H.
    - apply In_mode. rewrite Em. now left. }
  split; [exact He|]. split; [exact Htop|].
  destruct He as [_ [_ Hmax]], Htop as [_ [_ Hmax']].
  specialize (Hmax (top_emoji df_filt)). specialize (Hmax' e). lia.
Qed.

Lemma count_ones_indicator (col : Series) (e : cell) :
  count_eq (VInt 1) (indicator col e) = count_eq e col.
Proof.
  unfold count_eq, indicator, series_eq.
  induction col as [|c r IH]; simpl; [reflexivity|].
  destruct (cell_eqb c e); simpl; now rewrite IH.
Qed.

(** X18: every column of the indicator table belongs to a top emoji, has one
    entry per row of the [Emoji] column, and holds as many 1s as that emoji
    has rows. *)
Theorem mat_df_column_sums (df_filt : DataFrame) (top_n : nat) (col : Series)
    (m : DataFrame) :
  getitem "Emoji" df_filt = Some col -> mat_df df_filt top_n = Some m ->
  forall e c, getitem e m = Some c ->
    In e (top_emojis col top_n) /\
    length c = length col /\
    count_eq (VInt 1) c = count_eq e col.
Proof.
  intros Hcol Hm e c Hc.
  rewrite (mat_df_closed df_filt top_n col Hcol) in Hm.
  inversion Hm; subst m. unfold getitem in Hc. simpl in Hc.
  apply assoc_keyed in Hc. destruct Hc as [Hin ->].
  split; [exact Hin|]. split.
  - unfold indicator, series_eq. now rewrite !length_map.
  - apply count_ones_indicator.
Qed.

(** ** The node labels of the Sankey diagram *)

Import Flows.

Lemma dict_get_set (x k : cell) (v : nat) (d : dict) :
  dict_get x (dict_set k v d) = if cell_eqb x k then Some v else dict_get x d.
Proof.
  induction d as [|[k' v'] r IH]; simpl; [reflexivity|].
  destruct (cell_eqb k k') eqn:E; simpl.
  - apply cell_eqb_eq in E. subst k'. now destruct (cell_eqb x k).
  - rewrite IH. destruct (cell_eqb x k') eqn:E'; [|reflexivity].
    destruct (cell_eqb x k) eqn:E''; [|reflexivity].
    pose proof (cell_eqb_notna_l x k E'') as Hna.
    apply cell_eqb_eq in E', E''. subst k k'.
    rewrite (cell_eqb_refl x Hna) in E. discriminate.
Qed.

Lemma label_fold_sound (l : list cell) (i : nat) (d : dict) (x : cell) (j : nat) :
  dict_get x (fold_left (fun d il => dict_set (snd il) (fst il) d)
                        (enumerate_from i l) d) = Some j ->
  dict_get x d = Some j \/
  exists p, (p < length l)%nat /\ j = (i + p)%nat /\ nth p l VNaN = x.
Proof.
  revert i d. induction l as [|lab r IH]; intros i d; simpl; [now left|].
  intros H. destruct (IH _ _ H) as [H' | [p [Hp [Hj Hx]]]].
  - rewrite dict_get_set in H'. destruct (cell_eqb x lab) eqn:E.
    + right. exists 0%nat. apply cell_eqb_eq in E. inversion H'.
      repeat split; [lia | lia | now symmetry].
    + now left.
  - right. exists (S p). repeat split; [lia | lia | exact Hx].
Qed.

Lemma label_fold_complete (l : list cell) (i : nat) (d : dict) (x : cell) :
  notna x = true -> dict_get x d <> None \/ In x l ->
  dict_get x (fold_left (fun d il => dict_set (snd il) (fst il) d)
                        (enumerate_from i l) d) <> None.
Proof.
  intros Hna. revert i d. induction l as [|lab r IH]; intros i d; simpl.
  - intros [H | []]. exact H.
  - intros H. apply IH. rewrite dict_get_set.
    destruct (cell_eqb x lab) eqn:E; [left; discriminate|].
    destruct H as [H | [-> | H]]; [now left | | now right].
    rewrite (cell_eqb_refl x Hna) in E. discriminate.
Qed.

Lemma label_to_idx_sound (labels : list cell) (x : cell) (j : nat) :
  dict_get x (label_to_idx labels) = Some j ->
  (j < length labels)%nat /\ nth j labels VNaN = x.
Proof.
  intros H. destruct (label_fold_sound labels 0 [] x j H)
    as [H' | [p [Hp [-> Hx]]]]; [discriminate | auto].
Qed.

Lemma label_to_idx_complete (labels : list cell) (x : cell) :
  In x labels -> notna x = true ->
  exists j, dict_get x (label_to_idx labels) = Some j.
Proof.
  intros Hin Hna.
  pose proof (label_fold_complete labels 0 [] x Hna (or_intror Hin)) as H.
  unfold label_to_idx.
  destruct (dict_get x _) as [j|]; [now exists j | congruence].
Qed.

(** X19: the dictionary of the node labels sends every label to a position
    at which that label stands; a label that occurs several times is sent to
    one position only, so each link points at nodes that carry its own
    labels. *)
Theorem label_to_idx_round_trip (labels : list cell) (x : cell) :
  In x labels -> notna x = true ->
  exists j,
    dict_get x (label_to_idx labels) = Some j /\
    (j < length labels)%nat /\ nth j labels VNaN = x.
Proof.
  intros Hin Hna. destruct (label_to_idx_complete labels x Hin Hna) as [j Hj].
  exists j. split; [exact Hj | now apply label_to_idx_sound].
Qed.

Lemma links_of_decode (labels : list cell) (groups : list (cell * cell * nat)) :
  (forall g, In g groups ->
             In (fst (fst g)) labels /\ notna (fst (fst g)) = true /\
             In (snd (fst g)) labels /\ notna (snd (fst g)) = true) ->
  map (decode labels) (links_of (label_to_idx labels) groups) = groups /\
  Forall (fun l => (fst (fst l) < length labels)%nat /\
                   (snd (fst l) < length labels)%nat)
         (links_of (label_to_idx labels) groups).
Proof.
  unfold links_of. induction groups as [|[[a b] n] gs IH]; intros Hall; simpl.
  - split; constructor.
  - destruct (Hall (a, b, n) (or_introl eq_refl)) as [Ha [Hna [Hb Hnb]]].
    simpl in *.
    destruct (label_to_idx_complete labels a Ha Hna) as [i Hi].
    destruct (label_to_idx_complete labels b Hb Hnb) as [j Hj].
    rewrite Hi, Hj. simpl.
    destruct (label_to_idx_sound labels a i Hi) as [Hi1 Hi2].
    destruct (label_to_idx_sound labels b j Hj) as [Hj1 Hj2].
    destruct IH as [IH1 IH2]; [intros g Hg; apply Hall; now right|].
    split.
    + unfold decode at 1. simpl. now rewrite Hi2, Hj2, IH1.
    + constructor; [simpl; auto | exact IH2].
Qed.

(** ** Tables of groups *)

Lemma pair_count_pos (a b : cell) (s1 s2 : Series) :
  (1 <= pair_count a b s1 s2)%nat ->
  (In a s1 /\ notna a = true) /\ (In b s2 /\ notna b = true).
Proof.
  unfold pair_count. intros H.
  destruct (filter _ (combine s1 s2)) as [|[x y] r] eqn:E; [simpl in H; lia|].
  assert (Hin : In (x, y) (filter (fun p => cell_eqb (fst p) a && cell_eqb (snd p) b)
                                  (combine s1 s2)))
    by (rewrite E; now left).
  apply filter_In in Hin. destruct Hin as [Hin Hm]. simpl in Hm.
  apply andb_true_iff in Hm. destruct Hm as [Ha Hb].
  pose proof (cell_eqb_notna_l _ _ Ha). pose proof (cell_eqb_notna_l _ _ Hb).
  apply cell_eqb_eq in Ha, Hb. subst x y.
  split; split; try assumption.
  - now apply in_combine_l in Hin.
  - now apply in_combine_r in Hin.
Qed.

Lemma NoDup_flat_map {A B : Type} (f : A -> list B) (K : list A) :
  NoDup K -> (forall x, In x K -> NoDup (f x)) ->
  (forall x y z, In x K -> In y K -> In z (f x) -> In z (f y) -> x = y) ->
  NoDup (flat_map f K).
Proof.
  induction 1 as [|x K Hx Hnd IH]; intros Hf Hdis; simpl; [constructor|].
  apply NoDup_app.
  - apply Hf. now left.
  - apply IH.
    + intros y Hy. apply Hf. now right.
    + intros y y' z Hy Hy'. apply Hdis; now right.
  - intros z Hz Hz'. apply in_flat_map in Hz'. destruct Hz' as [y [Hy Hzy]].
    assert (x = y) by (apply (Hdis x y z); auto; [now left | now right]).
    subst y. contradiction.
Qed.

Lemma sum_rows_flat_map {A K : Type} (f : A -> list (K * nat)) (l : list A) :
  sum_rows (flat_map f l) = list_sum (map (fun x => sum_rows (f x)) l).
Proof.
  unfold sum_rows. induction l as [|x r IH]; simpl; [reflexivity|].
  now rewrite map_app, list_sum_app, IH.
Qed.

Lemma list_sum_map_ext {A : Type} (f g : A -> nat) (l : list A) :
  (forall x, In x l -> f x = g x) ->
  list_sum (map f l) = list_sum (map g l).
Proof.
  intros H. f_equal. now apply map_ext_in.
Qed.

Lemma list_sum_map_add {A : Type} (f g : A -> nat) (l : list A) :
  list_sum (map (fun x => (f x + g x)%nat) l) =
  (list_sum (map f l) + list_sum (map g l))%nat.
Proof. induction l as [|x r IH]; simpl; lia. Qed.

Lemma list_sum_map_scale {A : Type} (c : nat) (g : A -> nat) (l : list A) :
  list_sum (map (fun x => (c * g x)%nat) l) = (c * list_sum (map g l))%nat.
Proof. induction l as [|x r IH]; simpl; lia. Qed.

Lemma list_sum_indicator (x : cell) (K : list cell) :
  list_sum (map (fun k => if cell_eqb x k then 1%nat else 0%nat) K) =
  length (filter (cell_eqb x) K).
Proof.
  induction K as [|k r IH]; simpl; [reflexivity|].
  destruct (cell_eqb x k); simpl; lia.
Qed.

Lemma list_sum_map_zero {A : Type} (l : list A) :
  list_sum (map (fun _ => 0%nat) l) = 0%nat.
Proof. induction l; simpl; auto. Qed.

(** Over keys that are distinct and cover the values present, the counts of
    all pairs of keys add up to the rows with both values present. *)
Lemma sum_pair_counts (K1 K2 : list cell) (P : list (cell * cell)) :
  NoDup K1 -> NoDup K2 ->
  (forall p, In p P -> notna (fst p) = true -> In (fst p) K1) ->
  (forall p, In p P -> notna (snd p) = true -> In (snd p) K2) ->
  list_sum (map (fun a =>
     list_sum (map (fun b =>
        length (filter (fun p => cell_eqb (fst p) a && cell_eqb (snd p) b) P))
        K2)) K1) =
  length (filter (fun p => notna (fst p) && notna (snd p)) P).
Proof.
  intros N1 N2. induction P as [|[x y] P IH]; intros H1 H2.
  - simpl. rewrite (list_sum_map_ext _ (fun _ => 0%nat)).
    + apply list_sum_map_zero.
    + intros a _. apply list_sum_map_zero.
  - assert (E : forall a b,
      length (filter (fun p => cell_eqb (fst p) a && cell_eqb (snd p) b)
                     ((x, y) :: P)) =
      ((if cell_eqb x a then 1 else 0) * (if cell_eqb y b then 1 else 0) +
       length (filter (fun p => cell_eqb (fst p) a && cell_eqb (snd p) b) P))%nat).
    { intros a b. simpl. destruct (cell_eqb x a), (cell_eqb y b); simpl; lia. }
    rewrite (list_sum_map_ext _ (fun a =>
      ((if cell_eqb x a then 1 else 0) *
         list_sum (map (fun b => if cell_eqb y b then 1%nat else 0%nat) K2) +
       list_sum (map (fun b =>
         length (filter (fun p => cell_eqb (fst p) a && cell_eqb (snd p) b) P))
         K2))%nat)).
    2:{ intros a _.
        rewrite (list_sum_map_ext _ _ K2 (fun b _ => E a b)).
        now rewrite list_sum_map_add, list_sum_map_scale. }
    rewrite list_sum_map_add, IH.
    2:{ intros p Hp. apply H1. now right. }
    2:{ intros p Hp. apply H2. now right. }
    rewrite (list_sum_map_ext _ (fun a =>
      (list_sum (map (fun b => if cell_eqb y b then 1%nat else 0%nat) K2) *
       (if cell_eqb x a then 1 else 0))%nat)) by (intros; lia).
    rewrite list_sum_map_scale, !list_sum_indicator.
    rewrite (hits_NoDup x K1 N1), (hits_NoDup y K2 N2). simpl.
    specialize (H1 (x, y) (or_introl eq_refl)).
    specialize (H2 (x, y) (or_introl eq_refl)). simpl in H1, H2.
    destruct (notna x) eqn:Hx; destruct (notna y) eqn:Hy; simpl.
    + assert (Ex : existsb (cell_eqb x) K1 = true).
      { apply existsb_exists. exists x. split; [auto | now apply cell_eqb_refl]. }
      assert (Ey : existsb (cell_eqb y) K2 = true).
      { apply existsb_exists. exists y. split; [auto | now apply cell_eqb_refl]. }
      rewrite Ex, Ey. lia.
    + assert (Ey : existsb (cell_eqb y) K2 = false).
      { destruct (existsb (cell_eqb y) K2) eqn:Ey; [|reflexivity].
        apply existsb_exists in Ey. destruct Ey as [k [_ Ek]].
        apply cell_eqb_notna_l in Ek. congruence. }
      rewrite Ey. lia.
    + assert (Ex : existsb (cell_eqb x) K1 = false).
      { destruct (existsb (cell_eqb x) K1) eqn:Ex; [|reflexivity].
        apply existsb_exists in Ex. destruct Ex as [k [_ Ek]].
        apply cell_eqb_notna_l in Ek. congruence. }
      rewrite Ex. lia.
    + assert (Ex : existsb (cell_eqb x) K1 = false).
      { destruct (existsb (cell_eqb x) K1) eqn:Ex; [|reflexivity].
        apply existsb_exists in Ex. destruct Ex as [k [_ Ek]].
        apply cell_eqb_notna_l in Ek. congruence. }
      rewrite Ex. lia.
Qed.

Lemma In_select_isin (col : Series) (values : list cell) (b : cell) :
  In b (select (isin col values) col) -> In b values.
Proof.
  unfold isin. induction col as [|c r IH]; simpl; [contradiction|].
  destruct (existsb (cell_eqb c) values) eqn:E; [|exact IH].
  intros [<- | H]; [|auto].
  apply existsb_exists in E. destruct E as [v [Hv Ev]].
  apply cell_eqb_eq in Ev. now subst.
Qed.

Lemma length_select_same {A B : Type} (m : list bool) (l1 : list A)
    (l2 : list B) :
  length l1 = length l2 -> length (select m l1) = length (select m l2).
Proof.
  revert l1 l2. induction m as [|b m IH]; intros [|x l1] [|y l2] H; simpl;
    try reflexivity; try discriminate.
  injection H as H. destruct b; simpl; auto.
Qed.

Lemma both_present_le (l1 l2 l3 : Series) :
  length l1 = length l2 -> length l2 = length l3 ->
  Forall (fun c => notna c = true) l3 ->
  (both_present l1 l2 <= both_present l2 l3)%nat.
Proof.
  unfold both_present. revert l2 l3.
  induction l1 as [|x l1 IH]; intros [|y l2] [|z l3] H12 H23 Hall; simpl;
    try discriminate; try lia.
  injection H12 as H12. injection H23 as H23. inversion Hall; subst.
  specialize (IH l2 l3 H12 H23 H2).
  replace (notna z) with true by auto.
  destruct (notna x), (notna y); simpl; lia.
Qed.

Lemma both_present_le_length (l1 l2 : Series) :
  (both_present l1 l2 <= length l1)%nat.
Proof.
  unfold both_present.
  etransitivity; [apply filter_length_le|]. rewrite length_combine. lia.
Qed.

Lemma sum_rows_decode (labels : list cell) (l : list link) :
  sum_rows (map (decode labels) l) = sum_rows l.
Proof. unfold sum_rows. rewrite map_map. reflexivity. Qed.

Lemma sum_rows_zero_nil {K : Type} (g : list (K * nat)) :
  Forall (fun x => (1 <= snd x)%nat) g -> sum_rows g = 0%nat -> g = [].
Proof.
  unfold sum_rows. destruct 1 as [|x r Hx _]; [reflexivity|]. simpl. lia.
Qed.

Section GroupingProperties.

Variable sort_keys : list cell -> list cell.
Hypothesis sort_keys_perm : forall l, Permutation (sort_keys l) l.

Lemma keys_In (s : Series) (v : cell) :
  In v (sort_keys (unique (dropna s))) <-> In v s /\ notna v = true.
Proof.
  rewrite <- In_unique_dropna. split; apply Permutation_in.
  - apply sort_keys_perm.
  - symmetry. apply sort_keys_perm.
Qed.

Lemma keys_NoDup (s : Series) : NoDup (sort_keys (unique (dropna s))).
Proof.
  apply Permutation_NoDup with (l := unique (dropna s)).
  - symmetry. apply sort_keys_perm.
  - apply NoDup_unique, dropna_notna.
Qed.

Lemma In_groupby_size2 (s1 s2 : Series) (a b : cell) (n : nat) :
  In (a, b, n) (groupby_size2 sort_keys s1 s2) <->
  n = pair_count a b s1 s2 /\ (1 <= n)%nat.
Proof.
  unfold groupby_size2. rewrite in_flat_map. split.
  - intros [a' [Ha' H]]. apply in_flat_map in H. destruct H as [b' [Hb' H]].
    destruct (0 <? pair_count a' b' s1 s2)%nat eqn:E; [|contradiction].
    destruct H as [H | []]. inversion H; subst.
    apply Nat.ltb_lt in E. split; [reflexivity | lia].
  - intros [-> Hn].
    destruct (pair_count_pos a b s1 s2 Hn) as [Ha Hb].
    exists a. split; [now apply keys_In|].
    apply in_flat_map. exists b. split; [now apply keys_In|].
    assert (E : (0 <? pair_count a b s1 s2)%nat = true)
      by (apply Nat.ltb_lt; lia).
    rewrite E. now left.
Qed.

Lemma groupby_size2_NoDup (s1 s2 : Series) :
  NoDup (map fst (groupby_size2 sort_keys s1 s2)).
Proof.
  apply NoDup_map_NoDup_ForallPairs.
  - intros [[a b] n] [[a' b'] n'] H H' E. simpl in E. inversion E; subst.
    apply In_groupby_size2 in H, H'. destruct H as [-> _], H' as [-> _].
    reflexivity.
  - unfold groupby_size2. apply NoDup_flat_map.
    + apply keys_NoDup.
    + intros a _. apply NoDup_flat_map.
      * apply keys_NoDup.
      * intros b _. destruct (0 <? pair_count a b s1 s2)%nat;
          repeat constructor. intros [].
      * intros b b' z _ _ Hz Hz'.
        destruct (0 <? pair_count a b s1 s2)%nat; [|contradiction].
        destruct (0 <? pair_count a b' s1 s2)%nat; [|contradiction].
        destruct Hz as [<- | []], Hz' as [E | []]. now inversion E.
    + intros a a' z _ _ Hz Hz'.
      apply in_flat_map in Hz, Hz'.
      destruct Hz as [b [_ Hz]], Hz' as [b' [_ Hz']].
      destruct (0 <? pair_count a b s1 s2)%nat; [|contradiction].
      destruct (0 <? pair_count a' b' s1 s2)%nat; [|contradiction].
      destruct Hz as [<- | []], Hz' as [E | []]. now inversion E.
Qed.

Lemma groupby_size2_positive (s1 s2 : Series) :
  Forall (fun g => (1 <= snd g)%nat) (groupby_size2 sort_keys s1 s2).
Proof.
  apply Forall_forall. intros [[a b] n] H.
  apply In_groupby_size2 in H. simpl. tauto.
Qed.

Lemma sum_rows_groupby_size2 (s1 s2 : Series) :
  sum_rows (groupby_size2 sort_keys s1 s2) = both_present s1 s2.
Proof.
  unfold groupby_size2, both_present. rewrite sum_rows_flat_map.
  rewrite <- (sum_pair_counts (sort_keys (unique (dropna s1)))
                             (sort_keys (unique (dropna s2)))
                             (combine s1 s2)
                             (keys_NoDup s1) (keys_NoDup s2)).
  - apply list_sum_map_ext. intros a _. rewrite sum_rows_flat_map.
    apply list_sum_map_ext. intros b _. unfold pair_count.
    destruct (0 <? _)%nat eqn:E; unfold sum_rows; simpl; [lia|].
    apply Nat.ltb_ge in E. lia.
  - intros [x y] Hp Hx. apply keys_In. split; [|exact Hx].
    now apply in_combine_l in Hp.
  - intros [x y] Hp Hy. apply keys_In. split; [|exact Hy].
    now apply in_combine_r in Hp.
Qed.

(** X20: the table of the treemap lists every pair of an emotion and an
    emoji that share at least one row, each pair once, with the number of
    rows that hold both; its counts add up to the rows in which neither
    value is missing. *)
Theorem tree_df_spec (df_filt : DataFrame) (emotion emoji : Series) :
  getitem "Emotion" df_filt = Some emotion ->
  getitem "Emoji" df_filt = Some emoji ->
  exists groups,
    tree_df sort_keys df_filt = Drawn groups /\
    (forall a b n, In (a, b, n) groups <->
                   n = pair_count a b emotion emoji /\ (1 <= n)%nat) /\
    NoDup (map fst groups) /\
    sum_rows groups = both_present emotion emoji.
Proof.
  intros H1 H2. unfold tree_df. rewrite H1, H2.
  eexists. split; [reflexivity|]. split; [|split].
  - intros a b n. apply In_groupby_size2.
  - apply groupby_size2_NoDup.
  - apply sum_rows_groupby_size2.
Qed.

(** The Sankey diagram in closed form, over the rows of the top emoji. *)
Lemma sankey_closed (df_filt : DataFrame) (top_n : nat)
    (festival sentiment emoji : Series) :
  getitem "Festival" df_filt = Some festival ->
  getitem "Sentiment" df_filt = Some sentiment ->
  getitem "Emoji" df_filt = Some emoji ->
  let kept := isin emoji (top_emojis emoji top_n) in
  let f := select kept festival in
  let s := select kept sentiment in
  let e := select kept emoji in
  let names := unique (dropna f) ++ unique (dropna s) ++ top_emojis emoji top_n in
  let fs := groupby_size2 sort_keys f s in
  let se := groupby_size2 sort_keys s e in
  let arrows := links_of (label_to_idx names) fs
                ++ links_of (label_to_idx names) se in
  sankey sort_keys df_filt top_n =
  (if (0 <? length arrows)%nat then Drawn (mkSankey names arrows)
   else Message "Not enough data to draw Sankey.") /\
  map (decode names) arrows = fs ++ se /\
  Forall (fun l => (fst (fst l) < length names)%nat /\
                   (snd (fst l) < length names)%nat) arrows.
Proof.
  intros Hf Hs He kept f s e names fs se arrows.
  split.
  - unfold sankey. rewrite Hf, Hs, He. cbv zeta.
    rewrite !getitem_mask_rows, Hf, Hs, He. reflexivity.
  - assert (Hfs : forall g, In g fs ->
               In (fst (fst g)) names /\ notna (fst (fst g)) = true /\
               In (snd (fst g)) names /\ notna (snd (fst g)) = true).
    { intros [[a b] n] Hg. apply In_groupby_size2 in Hg.
      destruct Hg as [-> Hn]. apply pair_count_pos in Hn.
      destruct Hn as [[Ha Hna] [Hb Hnb]]. simpl. unfold names.
      repeat split; try assumption.
      - apply in_or_app. left. now apply In_unique_dropna.
      - apply in_or_app. right. apply in_or_app. left.
        now apply In_unique_dropna. }
    assert (Hse : forall g, In g se ->
               In (fst (fst g)) names /\ notna (fst (fst g)) = true /\
               In (snd (fst g)) names /\ notna (snd (fst g)) = true).
    { intros [[a b] n] Hg. apply In_groupby_size2 in Hg.
      destruct Hg as [-> Hn]. apply pair_count_pos in Hn.
      destruct Hn as [[Ha Hna] [Hb Hnb]]. simpl. unfold names.
      repeat split; try assumption.
      - apply in_or_app. right. apply in_or_app. left.
        now apply In_unique_dropna.
      - apply in_or_app. right. apply in_or_app. right.
        now apply In_select_isin with (col := emoji). }
    destruct (links_of_decode names fs Hfs) as [D1 B1].
    destruct (links_of_decode names se Hse) as [D2 B2].
    split.
    + unfold arrows. now rewrite map_app, D1, D2.
    + unfold arrows. apply Forall_app. now split.
Qed.

(** X21: when the Sankey diagram is drawn, reading its links back through
    the node labels gives exactly the festival-sentiment groups followed by
    the sentiment-emoji groups of the rows of the top emoji: no group is
    skipped, every link points at existing nodes that carry its own labels,
    and every link has a positive value. *)
Theorem sankey_links_decode (df_filt : DataFrame) (top_n : nat)
    (festival sentiment emoji : Series) (d : SankeyData) :
  getitem "Festival" df_filt = Some festival ->
  getitem "Sentiment" df_filt = Some sentiment ->
  getitem "Emoji" df_filt = Some emoji ->
  sankey sort_keys df_filt top_n = Drawn d ->
  let kept := isin emoji (top_emojis emoji top_n) in
  labels d = unique (dropna (select kept festival))
             ++ unique (dropna (select kept sentiment))
             ++ top_emojis emoji top_n /\
  map (decode (labels d)) (links d) =
    groupby_size2 sort_keys (select kept festival) (select kept sentiment)
    ++ groupby_size2 sort_keys (select kept sentiment) (select kept emoji) /\
  Forall (fun l => (fst (fst l) < length (labels d))%nat /\
                   (snd (fst l) < length (labels d))%nat /\
                   (1 <= snd l)%nat) (links d).
Proof.
  intros Hf Hs He Hd kept.
  destruct (sankey_closed df_filt top_n festival sentiment emoji Hf Hs He)
    as [Hclosed [Hdec Hbound]].
  fold kept in Hclosed, Hdec, Hbound.
  rewrite Hd in Hclosed.
  destruct (0 <? length _)%nat in Hclosed; [|discriminate].
  inversion Hclosed; subst d. simpl.
  split; [reflexivity|]. split; [exact Hdec|].
  assert (Hpos : Forall (fun g => (1 <= snd g)%nat)
                   (groupby_size2 sort_keys (select kept festival)
                                  (select kept sentiment)
                    ++ groupby_size2 sort_keys (select kept sentiment)
                                     (select kept emoji))).
  { apply Forall_app. split; apply groupby_size2_positive. }
  rewrite <- Hdec in Hpos. rewrite Forall_map in Hpos.
  rewrite Forall_forall in *. intros l Hl.
  destruct (Hbound l Hl). specialize (Hpos l Hl). simpl in Hpos. auto.
Qed.

(** X22: over a table with the three columns, the Sankey diagram is drawn
    when some row of the top emoji has a sentiment, and replaced by "Not
    enough data" when none has. *)
Theorem sankey_drawn_iff (df_filt : DataFrame) (top_n : nat)
    (festival sentiment emoji : Series) :
  getitem "Festival" df_filt = Some festival ->
  getitem "Sentiment" df_filt = Some sentiment ->
  getitem "Emoji" df_filt = Some emoji ->
  well_formed df_filt ->
  let kept := isin emoji (top_emojis emoji top_n) in
  let rows := both_present (select kept sentiment) (select kept emoji) in
  (rows = 0%nat ->
   sankey sort_keys df_filt top_n = Message "Not enough data to draw Sankey.") /\
  ((1 <= rows)%nat -> exists d, sankey sort_keys df_filt top_n = Drawn d).
Proof.
  intros Hf Hs He Hwf kept rows.
  destruct (sankey_closed df_filt top_n festival sentiment emoji Hf Hs He)
    as [Hclosed [Hdec _]].
  fold kept in Hclosed, Hdec.
  set (fs := groupby_size2 sort_keys (select kept festival)
                           (select kept sentiment)) in *.
  set (se := groupby_size2 sort_keys (select kept sentiment)
                           (select kept emoji)) in *.
  assert (Hlen : forall names arrows,
             map (decode names) arrows = fs ++ se ->
             length arrows = (length fs + length se)%nat).
  { intros names arrows H. rewrite <- (length_map (decode names)), H.
    apply length_app. }
  rewrite (Hlen _ _ Hdec) in Hclosed.
  assert (Hle : (both_present (select kept festival) (select kept sentiment)
                 <= rows)%nat).
  { apply both_present_le.
    - apply length_select_same.
      rewrite (well_formed_getitem _ _ _ Hwf Hf).
      now rewrite (well_formed_getitem _ _ _ Hwf Hs).
    - apply length_select_same.
      rewrite (well_formed_getitem _ _ _ Hwf Hs).
      now rewrite (well_formed_getitem _ _ _ Hwf He).
    - apply Forall_forall. intros c Hc.
      apply In_select_isin in Hc. now apply top_emojis_In in Hc. }
  pose proof (sum_rows_groupby_size2 (select kept festival)
                                     (select kept sentiment)) as Sfs.
  pose proof (sum_rows_groupby_size2 (select kept sentiment)
                                     (select kept emoji)) as Sse.
  fold fs in Sfs. fold se rows in Sse.
  split.
  - intros H0.
    assert (Efs : fs = []).
    { apply sum_rows_zero_nil; [apply groupby_size2_positive | lia]. }
    assert (Ese : se = []).
    { apply sum_rows_zero_nil; [apply groupby_size2_positive | lia]. }
    rewrite Hclosed, Efs, Ese. reflexivity.
  - intros H1. rewrite Hclosed.
    destruct se as [|g se']; [unfold sum_rows in Sse; simpl in Sse; lia|].
    eexists. simpl length.
    replace (0 <? length fs + S (length se'))%nat with true
      by (symmetry; apply Nat.ltb_lt; lia).
    reflexivity.
Qed.

(** X23: in a drawn Sankey diagram the links from festivals to sentiments
    carry together no more rows than the links from sentiments to emoji,
    which carry together no more rows than the table has: a row enters a
    sentiment only if it also leaves it. *)
Theorem sankey_flow_bounds (df_filt : DataFrame) (top_n : nat)
    (festival sentiment emoji : Series) (d : SankeyData) :
  getitem "Festival" df_filt = Some festival ->
  getitem "Sentiment" df_filt = Some sentiment ->
  getitem "Emoji" df_filt = Some emoji ->
  well_formed df_filt ->
  sankey sort_keys df_filt top_n = Drawn d ->
  let kept := isin emoji (top_emojis emoji top_n) in
  exists into out_of,
    links d = into ++ out_of /\
    sum_rows into
      = both_present (select kept festival) (select kept sentiment) /\
    sum_rows out_of
      = both_present (select kept sentiment) (select kept emoji) /\
    (sum_rows into <= sum_rows out_of)%nat /\
    (sum_rows out_of <= total_tweets df_filt)%nat.
Proof.
  intros Hf Hs He Hwf Hd kept.
  pose proof Hf as Hf'. pose proof Hs as Hs'. pose proof He as He'.
  unfold sankey in Hd. rewrite Hf, Hs, He in Hd. cbv zeta in Hd.
  rewrite !getitem_mask_rows, Hf, Hs, He in Hd. simpl in Hd.
  fold kept in Hd.
  set (names := unique (dropna (select kept festival))
                ++ unique (dropna (select kept sentiment))
                ++ top_emojis emoji top_n) in *.
  set (fs := groupby_size2 sort_keys (select kept festival)
                           (select kept sentiment)) in *.
  set (se := groupby_size2 sort_keys (select kept sentiment)
                           (select kept emoji)) in *.
  destruct (0 <? length _)%nat in Hd; [|discriminate].
  inversion Hd; subst d. simpl.
  exists (links_of (label_to_idx names) fs), (links_of (label_to_idx names) se).
  split; [reflexivity|].
  destruct (sankey_closed df_filt top_n festival sentiment emoji Hf' Hs' He')
    as [_ [Hdec _]].
  fold kept names fs se in Hdec.
  assert (Hfs : forall g, In g fs ->
             In (fst (fst g)) names /\ notna (fst (fst g)) = true /\
             In (snd (fst g)) names /\ notna (snd (fst g)) = true).
  { intros [[a b] n] Hg. apply In_groupby_size2 in Hg.
    destruct Hg as [-> Hn]. apply pair_count_pos in Hn.
    destruct Hn as [[Ha Hna] [Hb Hnb]]. simpl. unfold names.
    repeat split; try assumption.
    - apply in_or_app. left. now apply In_unique_dropna.
    - apply in_or_app. right. apply in_or_app. left.
      now apply In_unique_dropna. }
  destruct (links_of_decode names fs Hfs) as [D1 _].
  assert (D2 : map (decode names) (links_of (label_to_idx names) se) = se).
  { rewrite map_app, D1 in Hdec. now apply app_inv_head in Hdec. }
  assert (S1 : sum_rows (links_of (label_to_idx names) fs)
               = both_present (select kept festival) (select kept sentiment)).
  { rewrite <- (sum_rows_decode names), D1. apply sum_rows_groupby_size2. }
  assert (S2 : sum_rows (links_of (label_to_idx names) se)
               = both_present (select kept sentiment) (select kept emoji)).
  { rewrite <- (sum_rows_decode names), D2. apply sum_rows_groupby_size2. }
  split; [exact S1|]. split; [exact S2|]. rewrite S1, S2. split.
  - apply both_present_le.
    + apply length_select_same.
      rewrite (well_formed_getitem _ _ _ Hwf Hf').
      now rewrite (well_formed_getitem _ _ _ Hwf Hs').
    + apply length_select_same.
      rewrite (well_formed_getitem _ _ _ Hwf Hs').
      now rewrite (well_formed_getitem _ _ _ Hwf He').
    + apply Forall_forall. intros c Hc.
      apply In_select_isin in Hc. now apply top_emojis_In in Hc.
  - etransitivity; [apply both_present_le_length|].
    etransitivity; [apply length_select_le|].
    unfold total_tweets. now rewrite (well_formed_getitem _ _ _ Hwf Hs').
Qed.

End GroupingProperties.

End WithLibrary.

(** * The properties on the sample uploads *)

Import Samples TimeSeries Sidebar Flows.

(** The sample libraries do what is assumed of pandas. *)

Lemma parse_cells_length (s s' : Series) :
  parse_cells s = Ok s' -> length s' = length s.
Proof.
  revert s'. induction s as [|c r IH]; intros s'; simpl.
  - intros H. now inversion H.
  - destruct (parse_cell c); [|discriminate].
    destruct (parse_cells r); [|discriminate].
    intros H. inversion H; subst. simpl. now rewrite (IH a0).
Qed.

Lemma parse_cells_fixed (s : Series) :
  forallb is_datetime s = true -> parse_cells s = Ok s.
Proof.
  induction s as [|c r IH]; simpl; [reflexivity|].
  intros H. apply andb_true_iff in H. destruct H as [Hc Hr].
  rewrite (IH Hr). now destruct c.
Qed.

Lemma parse_cells_is_datetime (s s' : Series) :
  parse_cells s = Ok s' -> forallb is_datetime s' = true.
Proof.
  revert s'. induction s as [|c r IH]; intros s'; simpl.
  - intros H. now inversion H.
  - destruct (parse_cell c) as [c'|] eqn:Ec; [|discriminate].
    destruct (parse_cells r) as [r'|]; [|discriminate].
    intros H. inversion H; subst. simpl. rewrite (IH r' eq_refl).
    destruct c as [t| n | |]; simpl in Ec; try (inversion Ec; reflexivity).
    + destruct (parse t); inversion Ec; reflexivity.
    + destruct ((-9223372036854775808 <? n) && (n <=? 9223372036854775807));
        inversion Ec; reflexivity.
Qed.

Lemma no_text_among_datetimes (s : Series) :
  forallb is_datetime s = true -> existsb is_text s = false.
Proof.
  induction s as [|c r IH]; simpl; [reflexivity|].
  intros H. apply andb_true_iff in H. destruct H as [Hc Hr].
  rewrite (IH Hr). now destruct c.
Qed.

Lemma pandas_keeps_datetimes : keeps_datetimes pandas.
Proof.
  intros s H. simpl. unfold parse_dates.
  rewrite (no_text_among_datetimes s H). simpl. now apply parse_cells_fixed.
Qed.

Lemma pandas_yields_datetimes : yields_datetimes pandas.
Proof.
  intros s s'. simpl. unfold parse_dates.
  destruct (existsb is_text s && existsb is_int s); [discriminate|].
  intros H. split.
  - now apply parse_cells_length.
  - now apply parse_cells_is_datetime with (s := s).
Qed.

Lemma pandas_sorts_by_count : sorts_by_count pandas.
Proof.
  intros l. simpl. split.
  - symmetry. apply sort_desc_perm.
  - apply sort_desc_sorts.
Qed.

(** With the stable sort, equal counts come in the order in which the values
    are first met. *)
Lemma pandas_value_counts_ranked (col : Series) :
  StronglySorted (ranked col) (value_counts col).
Proof. apply sort_desc_ranked, counts_met_in_order. Qed.

Lemma pandas_keeps_values : keeps_values pandas.
Proof. intros l. reflexivity. Qed.


Lemma festival_tweets_well_formed : well_formed festival_tweets.
Proof. repeat constructor. Defined.

Lemma festival_tweets_parse :
  forall d, getitem "Date" festival_tweets = Some d ->
            exists d', to_datetime d = Ok d'.
Proof. intros d E. discriminate E. Defined.

Lemma dated_tweets_parse :
  forall d, getitem "Date" dated_tweets = Some d ->
            exists d', to_datetime d = Ok d'.
Proof.
  intros d E. vm_compute in E. inversion E; subst.
  eexists. vm_compute. reflexivity.
Defined.

(** C9 on [dated_tweets]: two rows in, two rows out, the emoji untouched and
    the dates parsed. *)
Lemma normalise_frame_witness :
  read (Ok dated_tweets) = Ok dated_tweets /\
  exists df,
    process_data Upload read clock (Ok dated_tweets) gen = (df, []) /\
    index df = [0; 1] /\
    getitem "Emoji" df = Some [VStr "😀"; VStr "😂"] /\
    columns df =
      [VStr "Emoji"; VStr "Date"; VStr "Tweet_ID"; VStr "Author_ID";
       VStr "Tweet_Text"].
Proof.
  split; [reflexivity|].
  destruct (normalise_frame Upload read clock (Ok dated_tweets) gen
              dated_tweets eq_refl dated_tweets_parse)
    as [df [Hrun [Hix [_ [Hcols [Hnames _]]]]]].
  exists df. split; [exact Hrun|]. split; [exact Hix|].
  split; [apply Hcols; [discriminate | reflexivity] | exact Hnames].
Defined.

(** C9 as first stated fails on [undated_tweets]: the file is read, its
    date does not parse, and the one row of the raw table is gone. *)
Lemma normalise_drops_rows_on_bad_date :
  read (Ok undated_tweets) = Ok undated_tweets /\
  len undated_tweets = 1%nat /\
  len (fst (process_data Upload read clock (Ok undated_tweets) gen))
    = 0%nat.
Proof. repeat split. Qed.

(** C5 on [canonical_tweets]. *)
Lemma normalise_canonical_unchanged_witness :
  forallb (fun c => col_in c canonical_tweets) canonical = true /\
  process_data Upload read clock (Ok canonical_tweets) gen
    = (canonical_tweets, []).
Proof.
  split; [reflexivity|].
  apply (normalise_canonical_unchanged pandas_keeps_datetimes Upload read clock
           (Ok canonical_tweets) gen canonical_tweets eq_refl eq_refl).
  intros d E. vm_compute in E. inversion E; subst. reflexivity.
Defined.

(** C5 as first stated fails on [canonical_text_dates]: the table has the
    five canonical columns and its dates parse, yet what is returned, without
    an error message, holds date-times where the table read holds text. *)
Lemma normalise_parses_text_dates :
  read (Ok canonical_text_dates) = Ok canonical_text_dates /\
  forallb (fun c => col_in c canonical_text_dates) canonical = true /\
  getitem "Date" canonical_text_dates
    = Some [VStr "2024-01-01"; VStr "2024-01-02"] /\
  to_datetime [VStr "2024-01-01"; VStr "2024-01-02"]
    = Ok [VTime 1704067200000000000; VTime 1704153600000000000] /\
  exists df,
    process_data Upload read clock (Ok canonical_text_dates) gen = (df, []) /\
    getitem "Date" df
      = Some [VTime 1704067200000000000; VTime 1704153600000000000] /\
    df <> canonical_text_dates.
Proof.
  repeat (split; [reflexivity|]).
  eexists. split; [vm_compute; reflexivity|]. split; [reflexivity|].
  discriminate.
Qed.

(** C6 on [mixed_dates] and on [undated_tweets]: the date parser raises, the
    message is shown and nothing else is. *)
Example load_error_reported :
  process_data Upload read clock (Ok mixed_dates) gen
    = (empty_frame, ["Error processing file: time data doesn't match format"]) /\
  app Upload read clock (Some (Ok mixed_dates)) gen "All" "All" 10
    = Loaded ["Error processing file: time data doesn't match format"] None /\
  app Upload read clock (Some (Ok undated_tweets)) gen "All" "All" 10
    = Loaded ["Error processing file: Unknown datetime string format: yesterday"]
             None /\
  app Upload read clock (Some (Raise "No such file")) gen "All" "All" 10
    = Loaded ["Error processing file: No such file"] None.
Proof. repeat split. Qed.

(** C4 on [festival_tweets], which has no [Date] column. *)
Lemma simulated_dates_window_witness :
  getitem "Date" festival_tweets = None /\
  exists df dates,
    process_data Upload read clock (Ok festival_tweets) gen = (df, []) /\
    getitem "Date" df = Some dates /\
    length dates = 4%nat /\
    Forall (fun c => exists t, c = VTime t /\
                               clock - 30 * day_ns <= t < clock) dates.
Proof.
  split; [reflexivity|].
  destruct (simulated_dates_window Upload read clock
              (Ok festival_tweets) gen festival_tweets eq_refl eq_refl)
    as [df [dates [Hrun [Hd [Hn Hall]]]]].
  exists df, dates. repeat (split; [assumption|]).
  eapply Forall_impl; [|exact Hall].
  intros c [d [h [_ [_ [-> Hb]]]]]. eexists. split; [reflexivity | exact Hb].
Defined.

(** C3 on [festival_tweets]: any four identifiers of the range can come out,
    equal ones included. *)
Lemma tweet_id_synthesis_witness :
  col_in "Tweet_ID" festival_tweets = false /\
  exists rs df,
    process_data Upload read clock (Ok festival_tweets) rs = (df, []) /\
    getitem "Tweet_ID" df =
    Some [VInt 1000000; VInt 9999998; VInt 5000000; VInt 5000000].
Proof.
  split; [reflexivity|].
  destruct (tweet_id_synthesis Upload read clock (Ok festival_tweets)
              festival_tweets eq_refl eq_refl festival_tweets_parse)
    as [_ [Hany _]].
  apply (Hany [1000000; 9999998; 5000000; 5000000]); [reflexivity|].
  repeat constructor; lia.
Defined.

(** C3 as first stated fails: 9,999,999 is the identifier of no row, whatever
    the generator. *)
Lemma tweet_id_never_9999999 :
  ~ (exists rs df col,
        process_data Upload read clock (Ok festival_tweets) rs = (df, []) /\
        getitem "Tweet_ID" df = Some col /\ In (VInt 9999999) col).
Proof.
  intros [rs [df [col [Hrun [Hcol Hin]]]]].
  destruct (tweet_id_column Upload read clock (Ok festival_tweets) rs
              festival_tweets eq_refl eq_refl festival_tweets_parse)
    as [df' [Hrun' Hcol']].
  assert (Edf : df' = df) by congruence. subst df'.
  assert (Ecol : col = map VInt (map (randint_of 1000000 9999999)
                                     (draws (len festival_tweets) rs)))
    by congruence.
  subst col. clear Hcol Hcol'.
  apply in_map_iff in Hin. destruct Hin as [v [Ev Hv]].
  apply in_map_iff in Hv. destruct Hv as [u [Eu _]].
  inversion Ev; subst v.
  pose proof (randint_of_range 1000000 9999999 u). lia.
Qed.

(** C2 on [festival_tweets]: three positive rows out of four. *)
Lemma positive_rate_guarded_witness :
  well_formed festival_tweets /\
  exists q, positive_rate festival_tweets = Some q /\
            (q == 75)%Q /\ (0 <= q)%Q /\ (q <= 100)%Q.
Proof.
  split; [exact festival_tweets_well_formed|].
  destruct (positive_rate_guarded festival_tweets festival_tweets_well_formed)
    as [q [Hq [Hv [H0 [H100 _]]]]].
  exists q. split; [exact Hq|]. split; [|split; assumption].
  rewrite Hv. vm_compute. reflexivity.
Defined.

(** C2 as first stated fails twice.  On [no_tweets] the table has a
    [Sentiment] column and no row, and no rate, zero or other, is computed.
    On [twenty_sentiments], eleven positive rows out of twenty, the rate is
    the double 55.00000000000001, which is 55 + 2^-47, and not 55. *)
Lemma positive_rate_absent_without_rows :
  (col_in "Sentiment" no_tweets = true /\
   total_tweets no_tweets = 0%nat /\
   ~ (exists q, positive_rate no_tweets = Some q /\ (q == 0)%Q)) /\
  (total_tweets twenty_sentiments = 20%nat /\
   exists col q,
     getitem "Sentiment" twenty_sentiments = Some col /\
     count_eq "Positive" col = 11%nat /\
     positive_rate twenty_sentiments = Some q /\
     (q == 55 + (1 # 2 ^ 47))%Q /\
     ~ (q == 100 * inject_Z 11 / inject_Z 20)%Q).
Proof.
  split.
  - split; [reflexivity|]. split; [reflexivity|].
    intros [q [H _]]. discriminate H.
  - split; [reflexivity|]. eexists. eexists.
    split; [reflexivity|]. split; [reflexivity|]. split; [reflexivity|].
    split; [vm_compute; reflexivity | vm_compute; discriminate].
Qed.



Lemma count_two_values (a b : string) (w : cell) :
  a <> b -> (count_eq w [VStr a; VStr b; VStr a; VStr b] <= 2)%nat.
Proof.
  intros Hab. unfold count_eq.
  destruct w as [s | | |]; simpl; try lia.
  destruct (String.eqb a s) eqn:Ea; destruct (String.eqb b s) eqn:Eb;
    simpl; try lia.
  apply String.eqb_eq in Ea, Eb. congruence.
Qed.

(** C1 on [emotions_and_a_number]: "Joy" and "Anger" tie, a number occurs
    once, and "Top Emotion" shows "Anger"; there is no [Emoji] column. *)
Lemma top_metrics_spec_witness :
  keeps_values pandas /\
  top_emotion emotions_and_a_number = VStr "Anger" /\
  top_spec "Emotion" emotions_and_a_number (VStr "Anger") /\
  top_spec "Emoji" emotions_and_a_number (VStr "N/A").
Proof.
  split; [exact pandas_keeps_values|]. split; [reflexivity|].
  exact (top_metrics_spec pandas_keeps_values emotions_and_a_number).
Defined.

(** C1 as first stated fails on [festival_tweets]: "Joy" and "Anger" have two
    rows each and "Joy" is met first, but "Top Emotion" shows "Anger". *)
Lemma top_emotion_not_first_met :
  top_emotion festival_tweets = VStr "Anger" /\
  first_met_most_frequent
    [VStr "Joy"; VStr "Anger"; VStr "Joy"; VStr "Anger"] (VStr "Joy") /\
  ~ first_met_most_frequent
      [VStr "Joy"; VStr "Anger"; VStr "Joy"; VStr "Anger"]
      (top_emotion festival_tweets).
Proof.
  assert (Hjoy : most_frequent
            [VStr "Joy"; VStr "Anger"; VStr "Joy"; VStr "Anger"] (VStr "Joy")).
  { split; [now left|]. split; [reflexivity|].
    intros w. change (count_eq "Joy" _) with 2%nat.
    apply count_two_values. discriminate. }
  split; [reflexivity|]. split.
  - split; [exact Hjoy|]. intros w [Hin _] Hne.
    simpl in Hin. destruct Hin as [<- | [<- | [<- | [<- | []]]]];
      try congruence; unfold met_before; simpl; lia.
  - change (top_emotion festival_tweets) with (VStr "Anger").
    intros [_ H]. specialize (H (VStr "Joy") Hjoy).
    unfold met_before in H. simpl in H.
    assert (E : VStr "Joy" <> VStr "Anger") by discriminate.
    specialize (H E). lia.
Qed.

(** C10 on [festival_tweets]: the first row holds the first top emoji. *)
Lemma mat_df_one_hot_witness :
  getitem "Emoji" festival_tweets
    = Some [VStr "😀"; VStr "😂"; VStr "😀"; VStr "😂"] /\
  exists m,
    mat_df festival_tweets 10 = Some m /\
    columns m = [VStr "😀"; VStr "😂"] /\
    iloc 0 m = [VInt 1; VInt 0] /\
    count_eq (VInt 1) (iloc 0 m) = 1%nat.
Proof.
  split; [reflexivity|].
  destruct (mat_df_one_hot pandas_sorts_by_count festival_tweets 10
              [VStr "😀"; VStr "😂"; VStr "😀"; VStr "😂"] eq_refl)
    as [m [Hm [_ [Hcols [_ Hrows]]]]].
  exists m. split; [exact Hm|]. split; [exact Hcols|].
  destruct (Hrows 0%nat) as [_ [Hone _]]; [simpl; lia|].
  split; [vm_compute in Hm; inversion Hm; reflexivity | exact Hone].
Defined.

(** C8 on [festival_tweets]: the two Diwali rows. *)
Example diwali_rows :
  apply_filters festival_tweets "Diwali" "All"
    = mask_rows [true; false; true; false] festival_tweets /\
  total_tweets (apply_filters festival_tweets "Diwali" "All") = 2%nat.
Proof. split; reflexivity. Qed.

(** The scenarios of the specification. *)
Example scenario_three_emoji :
  unique_emoji_count three_emoji = 2%nat /\
  top_emoji three_emoji = VStr "😀" /\
  emoji_counts three_emoji 10 = Some [(VStr "😀", 2%nat); (VStr "😂", 1%nat)].
Proof. repeat split. Qed.

Example scenario_four_sentiments :
  exists q, positive_rate four_sentiments = Some q /\ (q == 50)%Q.
Proof. eexists. split; reflexivity. Qed.

Example scenario_nothing_left :
  total_tweets no_tweets = 0%nat /\ positive_rate no_tweets = None /\
  emoji_counts no_tweets 10 = Some [] /\ top_emoji no_tweets = VStr "N/A".
Proof. repeat split. Qed.

(** * The further properties on the sample uploads *)

Import MoreSamples.

Lemma plain_tweets_parse :
  forall d, getitem "Date" plain_tweets = Some d ->
            exists d', to_datetime d = Ok d'.
Proof. intros d E. discriminate E. Defined.

Lemma sort_asc_perm_sym (l : list cell) : Permutation (sort_asc l) l.
Proof. symmetry. apply sort_asc_perm. Defined.

(** X1 on [festival_tweets]. *)
Lemma authors_from_fixed_set_witness :
  col_in "Author_ID" festival_tweets = false /\
  exists df names,
    process_data Upload read clock (Ok festival_tweets) gen = (df, []) /\
    getitem "Author_ID" df = Some names /\
    length names = 4%nat /\
    Forall (fun c => In c authors) names.
Proof.
  split; [reflexivity|].
  exact (authors_from_fixed_set Upload read clock (Ok festival_tweets)
           gen festival_tweets eq_refl eq_refl festival_tweets_parse).
Defined.

(** X2 on [plain_tweets]. *)
Lemma emoji_placeholder_witness :
  col_in "Emoji" plain_tweets = false /\
  exists df,
    process_data Upload read clock (Ok plain_tweets) gen = (df, []) /\
    getitem "Emoji" df = Some [VStr "🙂"; VStr "🙂"].
Proof.
  split; [reflexivity|].
  exact (emoji_placeholder Upload read clock (Ok plain_tweets)
           gen plain_tweets eq_refl eq_refl plain_tweets_parse).
Defined.

(** X3 on [plain_tweets], where the text is under [Tweet]. *)
Lemma tweet_text_alias_or_placeholder_witness :
  col_in "Tweet_Text" plain_tweets = false /\
  exists df,
    process_data Upload read clock (Ok plain_tweets) gen = (df, []) /\
    getitem "Tweet_Text" df = Some [VStr "Happy Holi"; VStr "Colours"].
Proof.
  split; [reflexivity|].
  exact (tweet_text_alias_or_placeholder Upload read clock
           (Ok plain_tweets) gen plain_tweets eq_refl eq_refl
           plain_tweets_parse).
Defined.

(** X4 on [festival_tweets]. *)
Lemma process_data_well_formed_witness :
  well_formed festival_tweets /\
  well_formed
    (fst (process_data Upload read clock (Ok festival_tweets) gen)).
Proof.
  split; [exact festival_tweets_well_formed|].
  apply (process_data_well_formed pandas_yields_datetimes Upload read clock
           (Ok festival_tweets) gen).
  intros raw E. injection E as <-. exact festival_tweets_well_formed.
Defined.

(** X5 on the table made of [festival_tweets]. *)
Lemma process_data_idempotent_witness :
  let df := fst (process_data Upload read clock (Ok festival_tweets) gen) in
  process_data Upload read clock (Ok festival_tweets) gen = (df, []) /\
  process_data Upload read clock (Ok df) (advance gen) = (df, []).
Proof.
  intros df. split; [reflexivity|].
  exact (process_data_idempotent pandas_keeps_datetimes
           pandas_yields_datetimes Upload read clock
           (Ok festival_tweets) (Ok df) gen (advance gen) df eq_refl eq_refl).
Defined.

Lemma mixed_festivals_parse :
  forall d, getitem "Date" mixed_festivals = Some d ->
            exists d', to_datetime d = Ok d'.
Proof. intros d E. discriminate E. Defined.

(** X6 on [mixed_festivals]: two rows, festivals that cannot be sorted, and
    the script ends in the exception. *)
Lemma dashboard_shown_iff_rows_witness :
  len mixed_festivals = 2%nat /\
  Sidebar.festival_options mixed_festivals = None /\
  exists df,
    process_data Upload read clock (Ok mixed_festivals) gen = (df, []) /\
    app Upload read clock (Some (Ok mixed_festivals)) gen "All" "All" 10
    = Uncaught [] type_error.
Proof.
  split; [reflexivity|]. split; [reflexivity|].
  destruct (dashboard_shown_iff_rows Upload read clock (Ok mixed_festivals)
              gen mixed_festivals "All" "All" 10 eq_refl mixed_festivals_parse)
    as [df [Hrun [_ [_ Happ]]]].
  exists df. split; [exact Hrun | exact Happ].
Defined.

(** X6 on [headers_only], no row, no dashboard and no message, and on
    [festival_tweets], whose dashboard is shown. *)
Example dashboard_of_samples :
  app Upload read clock (Some (Ok headers_only)) gen "All" "All" 10
    = Loaded [] None /\
  exists d,
    app Upload read clock (Some (Ok festival_tweets)) gen "Holi" "All" 10
      = Loaded [] (Some d) /\
    kpi_total d = 2%nat.
Proof.
  split; [reflexivity|]. eexists. split; [vm_compute; reflexivity|].
  reflexivity.
Qed.

(** X7 on [canonical_tweets]: two days, one row each. *)
Lemma daily_counts_spec_witness :
  exists days rows,
    TimeSeries.dt_date
      [VTime 1704067200000000000; VTime 1704153600000000000] = Some days /\
    TimeSeries.daily canonical_tweets = Ok (Drawn rows) /\
    ascending_days rows /\
    (forall d n, In (d, n) rows <-> n = count_day d days /\ (1 <= n)%nat) /\
    sum_rows rows = 2%nat.
Proof.
  exact (daily_counts_spec canonical_tweets
           [VTime 1704067200000000000; VTime 1704153600000000000]
           eq_refl eq_refl).
Defined.


Lemma festival_column_one_kind :
  one_kind [VStr "Diwali"; VStr "Holi"; VStr "Diwali"; VStr "Holi"].
Proof.
  intros a b Ha Hb _ _. simpl in Ha, Hb.
  destruct Ha as [<- | [<- | [<- | [<- | []]]]];
    destruct Hb as [<- | [<- | [<- | [<- | []]]]]; reflexivity.
Defined.

(** X9 on the festivals of [festival_tweets]. *)
Lemma options_spec_witness :
  exists values,
    Sidebar.options "Festival" festival_tweets = Some (VStr "All" :: values) /\
    ascending values /\
    forall v, In v values <->
              In v [VStr "Diwali"; VStr "Holi"; VStr "Diwali"; VStr "Holi"] /\
              notna v = true.
Proof.
  exact (options_spec "Festival" festival_tweets
           [VStr "Diwali"; VStr "Holi"; VStr "Diwali"; VStr "Holi"]
           eq_refl festival_column_one_kind).
Defined.

(** X10 on [festival_tweets]: "Holi" is offered and has rows. *)
Lemma offered_choice_has_rows_witness :
  Sidebar.festival_options festival_tweets
    = Some [VStr "All"; VStr "Diwali"; VStr "Holi"] /\
  (1 <= total_tweets (apply_filters festival_tweets "Holi" "All"))%nat.
Proof.
  split; [reflexivity|].
  apply (offered_choice_has_rows festival_tweets
           [VStr "All"; VStr "Diwali"; VStr "Holi"] (VStr "Holi")
           festival_tweets_well_formed).
  - simpl. auto.
  - reflexivity.
  - reflexivity.
Defined.

(** X11 on [mixed_festivals]. *)
Lemma options_raise_on_mixed_kinds_witness :
  same_kind (VStr "Diwali") (VInt 2024) = false /\
  Sidebar.options "Festival" mixed_festivals = None.
Proof.
  split; [reflexivity|].
  apply (options_raise_on_mixed_kinds "Festival" mixed_festivals
           [VStr "Diwali"; VInt 2024] (VStr "Diwali") (VInt 2024) eq_refl);
    simpl; auto.
Defined.

(** X12 on [festival_tweets]. *)
Lemma filters_commute_witness :
  apply_filters festival_tweets "Holi" "Positive" =
  filter_by "Festival" "Holi" (filter_by "Sentiment" "Positive" festival_tweets).
Proof.
  exact (filters_commute festival_tweets "Holi" "Positive"
           festival_tweets_well_formed).
Defined.

(** X13 on [festival_tweets]. *)
Lemma filtered_table_shape_witness :
  let df_filt := apply_filters festival_tweets "Holi" "Positive" in
  well_formed df_filt /\
  columns df_filt = columns festival_tweets /\
  (total_tweets df_filt <= total_tweets festival_tweets)%nat /\
  incl (index df_filt) (index festival_tweets).
Proof.
  exact (filtered_table_shape festival_tweets "Holi" "Positive"
           festival_tweets_well_formed).
Defined.

(** X14 on [festival_tweets]. *)
Lemma kept_rows_match_witness :
  getitem "Festival" (apply_filters festival_tweets "Holi" "Positive")
    = Some [VStr "Holi"] /\
  Forall (fun c => cell_eqb c "Holi" = true) [VStr "Holi"].
Proof.
  split; [reflexivity|].
  exact (proj1 (kept_rows_match festival_tweets "Holi" "Positive"
                  festival_tweets_well_formed) eq_refl [VStr "Holi"] eq_refl).
Defined.

(** X15 on [festival_tweets]. *)
Lemma filters_idempotent_witness :
  let df_filt := apply_filters festival_tweets "Holi" "Positive" in
  apply_filters df_filt "Holi" "Positive" = df_filt.
Proof.
  exact (filters_idempotent festival_tweets "Holi" "Positive"
           festival_tweets_well_formed).
Defined.

(** X16 on [festival_tweets]. *)
Lemma unique_emoji_bounds_witness :
  (unique_emoji_count festival_tweets <= total_tweets festival_tweets)%nat /\
  (unique_emoji_count festival_tweets = 0%nat ->
   top_emoji festival_tweets = VStr "N/A").
Proof.
  exact (unique_emoji_bounds festival_tweets festival_tweets_well_formed).
Defined.

(** X17 on [festival_tweets]. *)
Lemma ranking_head_matches_top_emoji_witness :
  emoji_counts festival_tweets 10
    = Some [(VStr "😀", 2%nat); (VStr "😂", 2%nat)] /\
  count_eq (top_emoji festival_tweets)
           [VStr "😀"; VStr "😂"; VStr "😀"; VStr "😂"] = 2%nat.
Proof.
  split; [reflexivity|].
  exact (proj2 (proj2
    (ranking_head_matches_top_emoji pandas_sorts_by_count
       pandas_keeps_values festival_tweets 10
       [VStr "😀"; VStr "😂"; VStr "😀"; VStr "😂"]
       (VStr "😀") 2%nat [(VStr "😂", 2%nat)] eq_refl eq_refl))).
Defined.

(** X18 on [festival_tweets]. *)
Lemma mat_df_column_sums_witness :
  exists m,
    mat_df festival_tweets 10 = Some m /\
    forall e c, getitem e m = Some c ->
      In e (top_emojis [VStr "😀"; VStr "😂"; VStr "😀"; VStr "😂"] 10) /\
      length c = 4%nat /\
      count_eq (VInt 1) c
        = count_eq e [VStr "😀"; VStr "😂"; VStr "😀"; VStr "😂"].
Proof.
  eexists. split; [reflexivity|].
  exact (mat_df_column_sums pandas_sorts_by_count festival_tweets 10
           [VStr "😀"; VStr "😂"; VStr "😀"; VStr "😂"] _ eq_refl eq_refl).
Defined.

(** X19 on labels in which "Positive" stands twice. *)
Lemma label_to_idx_round_trip_witness :
  exists j,
    Flows.dict_get (VStr "Positive")
      (Flows.label_to_idx [VStr "Positive"; VStr "Holi"; VStr "Positive"])
      = Some j /\
    (j < 3)%nat /\
    nth j [VStr "Positive"; VStr "Holi"; VStr "Positive"] VNaN = VStr "Positive".
Proof.
  apply (label_to_idx_round_trip
           [VStr "Positive"; VStr "Holi"; VStr "Positive"] (VStr "Positive")).
  - simpl. auto.
  - reflexivity.
Defined.

(** X20 on [festival_tweets], the keys of a group in ascending order. *)
Lemma tree_df_spec_witness :
  exists groups,
    Flows.tree_df sort_asc festival_tweets = Drawn groups /\
    NoDup (map fst groups) /\
    sum_rows groups = 4%nat.
Proof.
  destruct (tree_df_spec sort_asc sort_asc_perm_sym festival_tweets
              [VStr "Joy"; VStr "Anger"; VStr "Joy"; VStr "Anger"]
              [VStr "😀"; VStr "😂"; VStr "😀"; VStr "😂"] eq_refl eq_refl)
    as [groups [Hg [_ [Hnd Hsum]]]].
  exists groups. split; [exact Hg|]. split; [exact Hnd | exact Hsum].
Defined.

(** X21 on [festival_tweets]. *)
Lemma sankey_links_decode_witness :
  exists d,
    Flows.sankey sort_asc festival_tweets 10 = Drawn d /\
    labels d = [VStr "Diwali"; VStr "Holi"; VStr "Positive"; VStr "Negative";
                VStr "😀"; VStr "😂"] /\
    Forall (fun l => (fst (fst l) < length (labels d))%nat /\
                     (snd (fst l) < length (labels d))%nat /\
                     (1 <= snd l)%nat) (links d).
Proof.
  assert (Hd : exists d, sankey sort_asc festival_tweets 10 = Drawn d)
    by (eexists; vm_compute; reflexivity).
  destruct Hd as [d Hd]. exists d. split; [exact Hd|].
  destruct (sankey_links_decode sort_asc sort_asc_perm_sym festival_tweets 10
              [VStr "Diwali"; VStr "Holi"; VStr "Diwali"; VStr "Holi"]
              [VStr "Positive"; VStr "Negative"; VStr "Positive"; VStr "Positive"]
              [VStr "😀"; VStr "😂"; VStr "😀"; VStr "😂"]
              d eq_refl eq_refl eq_refl Hd)
    as [Hl [_ Hb]].
  split; [|exact Hb].
  rewrite Hl. reflexivity.
Defined.

(** X22 on [festival_tweets]: with no top emoji nothing is drawn. *)
Lemma sankey_drawn_iff_witness :
  Flows.sankey sort_asc festival_tweets 0
    = Message "Not enough data to draw Sankey." /\
  exists d, Flows.sankey sort_asc festival_tweets 10 = Drawn d.
Proof.
  split.
  - apply (sankey_drawn_iff pandas_sorts_by_count sort_asc sort_asc_perm_sym festival_tweets 0
             [VStr "Diwali"; VStr "Holi"; VStr "Diwali"; VStr "Holi"]
             [VStr "Positive"; VStr "Negative"; VStr "Positive"; VStr "Positive"]
             [VStr "😀"; VStr "😂"; VStr "😀"; VStr "😂"]
             eq_refl eq_refl eq_refl festival_tweets_well_formed).
    reflexivity.
  - apply (sankey_drawn_iff pandas_sorts_by_count sort_asc sort_asc_perm_sym festival_tweets 10
             [VStr "Diwali"; VStr "Holi"; VStr "Diwali"; VStr "Holi"]
             [VStr "Positive"; VStr "Negative"; VStr "Positive"; VStr "Positive"]
             [VStr "😀"; VStr "😂"; VStr "😀"; VStr "😂"]
             eq_refl eq_refl eq_refl festival_tweets_well_formed).
    vm_compute. lia.
Defined.

(** X23 on [festival_tweets]: four rows in, four rows out. *)
Lemma sankey_flow_bounds_witness :
  exists d into out_of,
    Flows.sankey sort_asc festival_tweets 10 = Drawn d /\
    links d = into ++ out_of /\
    (sum_rows into <= sum_rows out_of)%nat /\
    (sum_rows out_of <= 4)%nat.
Proof.
  assert (Hd : exists d, sankey sort_asc festival_tweets 10 = Drawn d)
    by (eexists; vm_compute; reflexivity).
  destruct Hd as [d Hd]. exists d.
  destruct (sankey_flow_bounds pandas_sorts_by_count sort_asc
              sort_asc_perm_sym festival_tweets 10
              [VStr "Diwali"; VStr "Holi"; VStr "Diwali"; VStr "Holi"]
              [VStr "Positive"; VStr "Negative"; VStr "Positive"; VStr "Positive"]
              [VStr "😀"; VStr "😂"; VStr "😀"; VStr "😂"]
              d eq_refl eq_refl eq_refl festival_tweets_well_formed Hd)
    as [into [out_of [Hl [_ [_ [Hle Htot]]]]]].
  exists into, out_of. split; [exact Hd|].
  split; [exact Hl|]. split; [exact Hle | exact Htot].
Defined.
